(** * The OSDI setup layer of ngspice

    A shallow embedding of [src/osdi/osdisetup.c]: the node collapser
    ([collapse_nodes]), the topology binder ([write_node_mapping] and the
    node-creation loop of [OSDIsetup]), the Jacobian binder ([init_matrix],
    [init_matrix_klu]) and the lifecycle driver ([OSDIsetup]), followed by
    the properties of the specification that concern them.

    Conventions.
    - A [uint32_t] is a [Z] in [0, 2^32); where the source can wrap
      ([num_nodes -= 1], [state_start + i], the casts to [uint32_t]) the
      wrap-around is written with [u32].
    - An array inside the instance blob is a [list]; [rd] and [wr] are the
      C accesses [a[i]] and [a[i] = v].  An access outside the array is
      undefined in C; here a read yields the default and a write does
      nothing, and the statements say where they need lengths.
    - Pointers to matrix coefficients are [Z] counted in [double] slots,
      [NULL] is 0. *)

From Stdlib Require Import ZArith Lia.
From stdpp Require Import base list gmap strings.

Local Open Scope Z_scope.

(** ** Machine integers and arrays *)

Definition UINT32_MAX : Z := 4294967295.

(** Wrap-around of [uint32_t] arithmetic. *)
Definition u32 (z : Z) : Z := z mod 4294967296.

(** The cast [(int)x] of a [uint32_t]. *)
Definition int_of_u32 (z : Z) : Z :=
  if z <? 2147483648 then z else z - 4294967296.

Definition is_u32 (z : Z) : Prop := 0 <= z <= UINT32_MAX.

Definition ptr := Z.
Definition NULL : ptr := 0.

Definition in_bounds {A} (a : list A) (i : Z) : bool :=
  (0 <=? i) && (i <? Z.of_nat (length a)).

(** [a[i]] *)
Definition rd {A} `{Inhabited A} (a : list A) (i : Z) : A :=
  if in_bounds a i then default inhabitant (a !! Z.to_nat i) else inhabitant.

(** [a[i] = v] *)
Definition wr {A} (a : list A) (i : Z) (v : A) : list A :=
  if in_bounds a i then <[Z.to_nat i := v]> a else a.

(** [for (uint32_t i = 0; i < n; i++) s = body s i] *)
Definition for_u32 {S} (n : Z) (body : S -> Z -> S) (s : S) : S :=
  foldl body s (seqZ 0 n).

(** ** Descriptor and instance (osdi.h, as far as the setup layer reads it) *)

Record OsdiNodePair := { node_1 : Z; node_2 : Z }.

Record OsdiJacobianEntry := { nodes : OsdiNodePair; react_ptr_off : Z }.

Record OsdiNode := { name : string; is_flow : bool; react_residual_off : Z }.

Record OsdiParamOpvar := { opvar_name : list string }.

Global Instance OsdiNodePair_inhabited : Inhabited OsdiNodePair :=
  populate {| node_1 := 0; node_2 := 0 |}.
Global Instance OsdiJacobianEntry_inhabited : Inhabited OsdiJacobianEntry :=
  populate {| nodes := inhabitant; react_ptr_off := 0 |}.
Global Instance OsdiNode_inhabited : Inhabited OsdiNode :=
  populate {| name := ""; is_flow := false; react_residual_off := 0 |}.
Global Instance OsdiParamOpvar_inhabited : Inhabited OsdiParamOpvar :=
  populate {| opvar_name := [] |}.

(** The instance blob.  The descriptor's offsets ([node_mapping_offset],
    [collapsed_offset], [state_idx_off], [jacobian_ptr_resist_offset])
    select the four arrays; the reactive pointers live at the byte offsets
    [react_ptr_off] of the Jacobian entries and are kept in a map from
    offset to stored pointer. *)
Record Instance := {
  node_mapping : list Z;
  collapsed : list bool;
  state_idx : list Z;
  jacobian_ptr_resist : list ptr;
  jacobian_ptr_react : gmap Z ptr
}.

Definition set_node_mapping (inst : Instance) (m : list Z) : Instance :=
  {| node_mapping := m; collapsed := collapsed inst;
     state_idx := state_idx inst;
     jacobian_ptr_resist := jacobian_ptr_resist inst;
     jacobian_ptr_react := jacobian_ptr_react inst |}.

Definition set_state_idx (inst : Instance) (s : list Z) : Instance :=
  {| node_mapping := node_mapping inst; collapsed := collapsed inst;
     state_idx := s;
     jacobian_ptr_resist := jacobian_ptr_resist inst;
     jacobian_ptr_react := jacobian_ptr_react inst |}.

Definition set_jacobian_ptr_resist (inst : Instance) (t : list ptr) : Instance :=
  {| node_mapping := node_mapping inst; collapsed := collapsed inst;
     state_idx := state_idx inst;
     jacobian_ptr_resist := t;
     jacobian_ptr_react := jacobian_ptr_react inst |}.

Definition set_jacobian_ptr_react (inst : Instance) (r : gmap Z ptr) : Instance :=
  {| node_mapping := node_mapping inst; collapsed := collapsed inst;
     state_idx := state_idx inst;
     jacobian_ptr_resist := jacobian_ptr_resist inst;
     jacobian_ptr_react := r |}.

(** ** Node collapser: [collapse_nodes] *)

Module Collapse.

(** The first loop: [node_mapping[i] = i]. *)
Definition populate_nodes (n : Z) (m : list Z) : list Z :=
  for_u32 n (fun m i => wr m i i) m.

(** The terminal guard of lines 99-103: the pair is ignored. *)
Definition protected (ct : Z) (m : list Z) (from to : Z) : bool :=
  (rd m from <? ct)
  && ((to =? UINT32_MAX) || (rd m to <? ct) || (rd m to =? UINT32_MAX)).

(** Lines 105-109: swap so that [to] names the smaller mapped node. *)
Definition orient (m : list Z) (from to : Z) : Z * Z :=
  if negb (to =? UINT32_MAX) && (rd m from <? rd m to)
  then (to, from) else (from, to).

(** Lines 111-114: the mapped representatives of the oriented pair. *)
Definition representatives (m : list Z) (from to : Z) : Z * Z :=
  let '(from, to) := orient m from to in
  (rd m from, if negb (to =? UINT32_MAX) then rd m to else to).

(** One iteration of the loop of lines 117-123 on entry [j]. *)
Definition replace_node (from to : Z) (m : list Z) (j : Z) : list Z :=
  if rd m j =? from then wr m j to
  else if (rd m j >? from) && negb (rd m j =? UINT32_MAX)
       then wr m j (rd m j - 1)
       else m.

Definition replace_nodes (n from to : Z) (m : list Z) : list Z :=
  for_u32 n (replace_node from to) m.

(** Whether iteration [i] of the outer loop performs its collapse: the
    hint was executed and the terminal guard does not reject it. *)
Definition executes (pairs : list OsdiNodePair) (hints : list bool)
    (ct : Z) (m : list Z) (i : Z) : bool :=
  rd hints i
  && negb (protected ct m (node_1 (rd pairs i)) (node_2 (rd pairs i))).

(** The body of the outer loop (lines 88-125) on the pair
    [(node_mapping, num_nodes)]. *)
Definition collapse_pair (n : Z) (pairs : list OsdiNodePair)
    (hints : list bool) (ct : Z) (s : list Z * Z) (i : Z) : list Z * Z :=
  let '(m, num_nodes) := s in
  if negb (rd hints i) then s
  else
    let from := node_1 (rd pairs i) in
    let to := node_2 (rd pairs i) in
    if protected ct m from to then s
    else
      let '(from, to) := representatives m from to in
      (replace_nodes n from to m, u32 (num_nodes - 1)).

End Collapse.

(** ** Status codes and the ABI result *)

(** Modelled from the spec: the status codes of ngspice/iferrmsg.h, which is
    outside the sources verified here ("Error taxonomy surfaced to the caller:
    Panic, PrivateError, OutOfMemory, OK").  [OK] is the zero status, so the
    C tests [if (res)], [if (err)] and [if (error)] are [is_error]. *)
Inductive status := OK | E_PANIC | E_NOMEM | E_PRIVATE.

Definition is_error (s : status) : bool :=
  match s with OK => false | _ => true end.

Record OsdiInitError := { code : Z; parameter_id : Z }.

Global Instance OsdiInitError_inhabited : Inhabited OsdiInitError :=
  populate {| code := 0; parameter_id := 0 |}.

Record OsdiInitInfo := {
  flags : Z;
  num_errors : Z;
  errors : list OsdiInitError
}.

(** What the setup layer prints or stores as a message. *)
Inductive message :=
| MsgOutOfBounds (param : string)  (* "Parameter %s is out of bounds!" *)
| MsgUnknownCode (c : Z)           (* "Unknown OSDO init error code %d!" *)
| MsgErrorCount (n : Z)            (* "%i errors occurred during initialization" *)
| MsgPtrNotFound (p : ptr).        (* "Ptr %p not found in BindStruct Table" *)

(** The effects of one call of [handle_init_info]: the lines printed, whether
    [info.errors] was freed, and the value assigned to [errMsg], if any. *)
Record init_effects := {
  printed : list message;
  freed_errors : bool;
  set_errMsg : option message
}.

Definition no_effects : init_effects :=
  {| printed := []; freed_errors := false; set_errMsg := None |}.

(** ** Collaborators and the descriptor *)

(** What the setup layer takes from the rest of the simulator and from the
    OSDI header, all of it outside the sources verified here:
    - the opaque data of the ABI and of the simulator;
    - the constants of osdi.h;
    - the circuit ([CKTtemp], [get_simparams]);
    - the node allocator ([CKTmkVolt], [CKTmkCur]: the error, the circuit
      afterwards and [tmp->number]);
    - the matrix ([SMPmakeElt]: the matrix afterwards and the address,
      [NULL] when none could be made);
    - the allocator of the temporary buffer ([TMALLOC (uint32_t, n)]: its
      initial contents). *)
Class Simulator := {
  model_data : Type;
  real : Type;
  OsdiSimParas : Type;
  CKTcircuit : Type;
  SMPmatrix : Type;
  real_add : real -> real -> real;
  EVAL_RET_FLAG_FATAL : Z;
  EVAL_RET_FLAG_FINISH : Z;
  INIT_ERR_OUT_OF_BOUNDS : Z;
  CKTtemp : CKTcircuit -> real;
  get_simparams : CKTcircuit -> OsdiSimParas;
  CKTmkVolt : CKTcircuit -> string -> string -> status * CKTcircuit * Z;
  CKTmkCur : CKTcircuit -> string -> string -> status * CKTcircuit * Z;
  SMPmakeElt : SMPmatrix -> Z -> Z -> SMPmatrix * ptr;
  TMALLOC : Z -> list Z
}.

Section Setup.

Context `{Simulator}.

Record OsdiNgspiceHandle := { kind : Z; handle_name : string }.

Record OsdiDescriptor := {
  num_nodes : Z;
  num_terminals : Z;
  descr_nodes : list OsdiNode;
  num_jacobian_entries : Z;
  jacobian_entries : list OsdiJacobianEntry;
  num_collapsible : Z;
  collapsible : list OsdiNodePair;
  num_states : Z;
  param_opvar : list OsdiParamOpvar;
  setup_model :
    OsdiNgspiceHandle -> model_data -> OsdiSimParas ->
    model_data * OsdiInitInfo;
  setup_instance :
    OsdiNgspiceHandle -> Instance -> model_data -> real -> Z ->
    OsdiSimParas -> Instance * OsdiInitInfo
}.

(** ** [handle_init_info] *)

Definition fatal_or_finish (info : OsdiInitInfo) : bool :=
  negb (Z.land (flags info)
          (Z.lor EVAL_RET_FLAG_FATAL EVAL_RET_FLAG_FINISH) =? 0).

(** The body of the reporting loop for [errors[i]]. *)
Definition report_error (descr : OsdiDescriptor) (info : OsdiInitInfo)
    (out : list message) (i : Z) : list message :=
  let err := rd (errors info) i in
  if code err =? INIT_ERR_OUT_OF_BOUNDS
  then out ++ [MsgOutOfBounds
                 (rd (opvar_name (rd (param_opvar descr) (parameter_id err))) 0)]
  else out ++ [MsgUnknownCode (code err)].

Definition handle_init_info (info : OsdiInitInfo) (descr : OsdiDescriptor)
    : status * init_effects :=
  if fatal_or_finish info then (E_PANIC, no_effects)
  else if num_errors info =? 0 then (OK, no_effects)
  else
    (E_PRIVATE,
     {| printed := for_u32 (num_errors info) (report_error descr info) [];
        freed_errors := true;
        set_errMsg := Some (MsgErrorCount (num_errors info)) |}).

(** ** [collapse_nodes], [write_node_mapping], [write_state_ids] *)

Definition collapse_nodes (descr : OsdiDescriptor) (inst : Instance)
    (connected_terminals : Z) : Instance * Z :=
  let m0 := Collapse.populate_nodes (num_nodes descr) (node_mapping inst) in
  let '(m, n) :=
    for_u32 (num_collapsible descr)
      (Collapse.collapse_pair (num_nodes descr) (collapsible descr)
         (collapsed inst) connected_terminals)
      (m0, num_nodes descr) in
  (set_node_mapping inst m, n).

Definition write_node_mapping (descr : OsdiDescriptor) (inst : Instance)
    (nodes : list Z) : Instance :=
  set_node_mapping inst
    (for_u32 (num_nodes descr)
       (fun m i =>
          if rd m i =? UINT32_MAX then wr m i 0
          else wr m i (rd nodes (rd m i)))
       (node_mapping inst)).

Definition write_state_ids (descr : OsdiDescriptor) (inst : Instance)
    (state_start : Z) : Instance :=
  set_state_idx inst
    (for_u32 (num_states descr)
       (fun s i => wr s i (u32 (state_start + i)))
       (state_idx inst)).

(** ** Jacobian binder: [init_matrix] *)

(** The body of the loop of [init_matrix] for entry [i]: [None] is the
    [return (E_NOMEM)] of line 171. *)
Definition bind_entry (descr : OsdiDescriptor) (s : SMPmatrix * Instance)
    (i : Z) : SMPmatrix * option Instance :=
  let '(matrix, inst) := s in
  let entry := rd (jacobian_entries descr) i in
  let equation := rd (node_mapping inst) (node_1 (nodes entry)) in
  let unkown := rd (node_mapping inst) (node_2 (nodes entry)) in
  let '(matrix, p) :=
    SMPmakeElt matrix (int_of_u32 equation) (int_of_u32 unkown) in
  if p =? NULL then (matrix, None)
  else
    let inst :=
      set_jacobian_ptr_resist inst (wr (jacobian_ptr_resist inst) i p) in
    let react_off := react_ptr_off entry in
    if negb (react_off =? UINT32_MAX)
    then (matrix,
          Some (set_jacobian_ptr_react inst
                  (<[react_off := p + 1]> (jacobian_ptr_react inst))))
    else (matrix, Some inst).

(** The loop of [init_matrix] over the remaining entry indices. *)
Fixpoint init_matrix_from (descr : OsdiDescriptor) (ix : list Z)
    (matrix : SMPmatrix) (inst : Instance) : status * SMPmatrix * Instance :=
  match ix with
  | [] => (OK, matrix, inst)
  | i :: ix =>
      match bind_entry descr (matrix, inst) i with
      | (matrix, None) => (E_NOMEM, matrix, inst)
      | (matrix, Some inst) => init_matrix_from descr ix matrix inst
      end
  end.

Definition init_matrix (matrix : SMPmatrix) (descr : OsdiDescriptor)
    (inst : Instance) : status * SMPmatrix * Instance :=
  init_matrix_from descr (seqZ 0 (num_jacobian_entries descr)) matrix inst.

(** ** Jacobian binder for the reordering solver: [init_matrix_klu] *)

Record BindElement := { COO : ptr; CSC : ptr; CSC_Complex : ptr }.

(** Modelled from the spec: [bsearch] with [BindCompare] (klu-binding.h,
    outside the sources verified here) over the table
    [KLUmatrixBindStructCOO], "binary search over a sorted table of
    (unsorted-address -> reordered-address) pairs": the element whose [COO]
    address is the key, if there is one. *)
Definition bsearch (key : ptr) (bindings : list BindElement)
    : option BindElement :=
  snd <$> list_find (fun b => COO b = key) bindings.

(** The body of the loop of [init_matrix_klu] on the instance and
    [inst_matrix_ptrs]: [inr p] is the [return (E_PANIC)] of line 439,
    after printing that [p] was not found. *)
Definition bind_entry_klu (descr : OsdiDescriptor)
    (bindings : list BindElement) (s : Instance * list ptr) (i : Z)
    : Instance * list ptr + ptr :=
  let '(inst, inst_matrix_ptrs) := s in
  let entry := rd (jacobian_entries descr) i in
  let equation := rd (node_mapping inst) (node_1 (nodes entry)) in
  let unkown := rd (node_mapping inst) (node_2 (nodes entry)) in
  if negb (equation =? 0) && negb (unkown =? 0) then
    match bsearch (rd (jacobian_ptr_resist inst) i) bindings with
    | None => inr (rd (jacobian_ptr_resist inst) i)
    | Some matched =>
        let react_off := react_ptr_off entry in
        let inst :=
          if negb (react_off =? UINT32_MAX)
          then set_jacobian_ptr_react inst
                 (<[react_off := CSC_Complex matched + 1]>
                    (jacobian_ptr_react inst))
          else inst in
        let inst :=
          set_jacobian_ptr_resist inst
            (wr (jacobian_ptr_resist inst) i (CSC matched)) in
        inl (inst,
             wr (wr inst_matrix_ptrs (2 * i) (CSC matched))
                (2 * i + 1) (CSC_Complex matched))
    end
  else inl s.

Fixpoint init_matrix_klu_from (descr : OsdiDescriptor)
    (bindings : list BindElement) (ix : list Z) (inst : Instance)
    (inst_matrix_ptrs : list ptr)
    : status * Instance * list ptr * list message :=
  match ix with
  | [] => (OK, inst, inst_matrix_ptrs, [])
  | i :: ix =>
      match bind_entry_klu descr bindings (inst, inst_matrix_ptrs) i with
      | inr p => (E_PANIC, inst, inst_matrix_ptrs, [MsgPtrNotFound p])
      | inl (inst, inst_matrix_ptrs) =>
          init_matrix_klu_from descr bindings ix inst inst_matrix_ptrs
      end
  end.

Definition init_matrix_klu (bindings : list BindElement)
    (descr : OsdiDescriptor) (inst : Instance) (inst_matrix_ptrs : list ptr)
    : status * Instance * list ptr * list message :=
  init_matrix_klu_from descr bindings
    (seqZ 0 (num_jacobian_entries descr)) inst inst_matrix_ptrs.

(** ** Lifecycle driver: [OSDIsetup] *)

Record OsdiExtraInstData := {
  temp : real; dt : real; temp_given : bool; dt_given : bool
}.

(** A device occurrence: the generic header, the terminal numbers that
    follow it ([gen_inst + 1], -1 for a terminal left open), the OSDI
    instance data and the extra data. *)
Record GENinstance := {
  GENname : string;
  GENstate : Z;
  terminals : list Z;
  instance_data : Instance;
  extra_instance_data : OsdiExtraInstData
}.

Record GENmodel := {
  GENmodName : string;
  GENinstances : list GENinstance;
  model_data_of : model_data
}.

(** The calls the driver makes to its collaborators and the reservations
    it makes in the state vector, in the order in which they happen. *)
Inductive event :=
| EvSetupModel (model : string)
| EvSetupInstance (inst : string)
| EvMkCur (inst node : string)
| EvMkVolt (inst node : string)
| EvStates (inst : string) (base size : Z).

(** What [OSDIsetup] reads and writes besides the models: the circuit, the
    matrix, [*states], the buffer [node_ids], the globals [errRtn] and
    [errMsg] when assigned, the output of [printf], whether an error list
    was freed, and the events so far. *)
Record setup_state := {
  ckt : CKTcircuit;
  matrix : SMPmatrix;
  states : Z;
  node_ids : list Z;
  errRtn : option string;
  errMsg : option message;
  stdout : list message;
  events : list event
}.

Definition with_init_effects (st : setup_state) (where_ : string)
    (res : status) (eff : init_effects) : setup_state :=
  {| ckt := ckt st; matrix := matrix st; states := states st;
     node_ids := node_ids st;
     errRtn := if is_error res then Some where_ else errRtn st;
     errMsg := match set_errMsg eff with Some m => Some m | None => errMsg st end;
     stdout := stdout st ++ printed eff;
     events := events st |}.

Definition log (st : setup_state) (e : event) : setup_state :=
  {| ckt := ckt st; matrix := matrix st; states := states st;
     node_ids := node_ids st; errRtn := errRtn st; errMsg := errMsg st;
     stdout := stdout st; events := events st ++ [e] |}.

Definition with_ckt (st : setup_state) (c : CKTcircuit) : setup_state :=
  {| ckt := c; matrix := matrix st; states := states st;
     node_ids := node_ids st; errRtn := errRtn st; errMsg := errMsg st;
     stdout := stdout st; events := events st |}.

Definition with_matrix (st : setup_state) (m : SMPmatrix) : setup_state :=
  {| ckt := ckt st; matrix := m; states := states st;
     node_ids := node_ids st; errRtn := errRtn st; errMsg := errMsg st;
     stdout := stdout st; events := events st |}.

Definition with_states (st : setup_state) (n : Z) : setup_state :=
  {| ckt := ckt st; matrix := matrix st; states := n;
     node_ids := node_ids st; errRtn := errRtn st; errMsg := errMsg st;
     stdout := stdout st; events := events st |}.

Definition with_node_ids (st : setup_state) (b : list Z) : setup_state :=
  {| ckt := ckt st; matrix := matrix st; states := states st;
     node_ids := b; errRtn := errRtn st; errMsg := errMsg st;
     stdout := stdout st; events := events st |}.

Definition with_instance_data (gi : GENinstance) (inst : Instance)
    : GENinstance :=
  {| GENname := GENname gi; GENstate := GENstate gi;
     terminals := terminals gi; instance_data := inst;
     extra_instance_data := extra_instance_data gi |}.

Definition with_GENstate (gi : GENinstance) (s : Z) : GENinstance :=
  {| GENname := GENname gi; GENstate := s;
     terminals := terminals gi; instance_data := instance_data gi;
     extra_instance_data := extra_instance_data gi |}.

(** Lines 204-210: the number of states each instance needs.  The sum is
    an [int]; its overflow is undefined in C and not modelled. *)
Definition states_per_instance (descr : OsdiDescriptor) : Z :=
  for_u32 (num_nodes descr)
    (fun n i =>
       if negb (react_residual_off (rd (descr_nodes descr) i) =? UINT32_MAX)
       then n + 2 else n)
    (int_of_u32 (num_states descr)).

(** Lines 229-237: the temperature handed to [setup_instance]. *)
Definition instance_temp (c : CKTcircuit) (x : OsdiExtraInstData) : real :=
  let t := if temp_given x then temp x else CKTtemp c in
  if dt_given x then real_add t (dt x) else t.

(** Lines 242-249: the index of the first open terminal, or all of them. *)
Definition connected_terminals (descr : OsdiDescriptor) (terms : list Z) : Z :=
  match list_find (fun i => rd terms i = -1) (seqZ 0 (num_terminals descr)) with
  | Some (_, i) => i
  | None => num_terminals descr
  end.

(** Line 266: [memcpy (node_ids, gen_inst + 1, sizeof (int) * n)]. *)
Definition copy_terminals (n : Z) (terms buf : list Z) : list Z :=
  for_u32 n (fun b k => wr b k (u32 (rd terms k))) buf.

(** Lines 268-279: the internal nodes [ix] still to be created; an error
    of the allocator is returned at once. *)
Fixpoint make_nodes (descr : OsdiDescriptor) (gname : string) (ix : list Z)
    (st : setup_state) : status * setup_state :=
  match ix with
  | [] => (OK, st)
  | i :: ix =>
      let node := rd (descr_nodes descr) i in
      let '(error, c, number) :=
        if is_flow node then CKTmkCur (ckt st) gname (name node)
        else CKTmkVolt (ckt st) gname (name node) in
      let st :=
        log (with_ckt st c)
          (if is_flow node then EvMkCur gname (name node)
           else EvMkVolt gname (name node)) in
      if is_error error then (error, st)
      else make_nodes descr gname ix
             (with_node_ids st (wr (node_ids st) i (u32 number)))
  end.

(** How an iteration of a loop of [OSDIsetup] ends: the loop goes on (or
    runs out) with the current [res], or the function returns at once. *)
Inductive outcome :=
| Next (res : status)
| Return (err : status).

(** The body of the instance loop (lines 226-291). *)
Definition setup_one_instance (descr : OsdiDescriptor)
    (sim_params : OsdiSimParas) (model : model_data) (st : setup_state)
    (gi : GENinstance) : GENinstance * setup_state * outcome :=
  let t := instance_temp (ckt st) (extra_instance_data gi) in
  let ct := connected_terminals descr (terminals gi) in
  let '(inst, info) :=
    setup_instance descr {| kind := 2; handle_name := GENname gi |}
      (instance_data gi) model t ct sim_params in
  let st := log st (EvSetupInstance (GENname gi)) in
  let '(res, eff) := handle_init_info info descr in
  let st := with_init_effects st "OSDI setup_instance" res eff in
  if is_error res then (with_instance_data gi inst, st, Next res)
  else
    let '(inst, n) := collapse_nodes descr inst ct in
    let st := with_node_ids st (copy_terminals ct (terminals gi) (node_ids st)) in
    let '(error, st) := make_nodes descr (GENname gi) (seqZ ct (n - ct)) st in
    if is_error error then (with_instance_data gi inst, st, Return error)
    else
      let inst := write_node_mapping descr inst (node_ids st) in
      let '(err, m, inst) := init_matrix (matrix st) descr inst in
      let st := with_matrix st m in
      if is_error err then (with_instance_data gi inst, st, Return err)
      else
        let inst := write_state_ids descr inst (u32 (states st)) in
        (with_GENstate (with_instance_data gi inst) (states st),
         log (with_states st (states st + states_per_instance descr))
           (EvStates (GENname gi) (states st) (states_per_instance descr)),
         Next res).

(** The instance loop (lines 224-292); [res] is the value the variable has
    when the loop is entered. *)
Fixpoint setup_instances (descr : OsdiDescriptor) (sim_params : OsdiSimParas)
    (model : model_data) (insts : list GENinstance) (res : status)
    (st : setup_state) : list GENinstance * setup_state * outcome :=
  match insts with
  | [] => ([], st, Next res)
  | gi :: insts =>
      match setup_one_instance descr sim_params model st gi with
      | (gi, st, Return err) => (gi :: insts, st, Return err)
      | (gi, st, Next res) =>
          let '(insts, st, o) :=
            setup_instances descr sim_params model insts res st in
          (gi :: insts, st, o)
      end
  end.

Definition with_model (gm : GENmodel) (md : model_data)
    (insts : list GENinstance) : GENmodel :=
  {| GENmodName := GENmodName gm; GENinstances := insts;
     model_data_of := md |}.

(** The body of the model loop (lines 213-292). *)
Definition setup_one_model (descr : OsdiDescriptor)
    (sim_params : OsdiSimParas) (st : setup_state) (gm : GENmodel)
    : GENmodel * setup_state * outcome :=
  let '(md, info) :=
    setup_model descr {| kind := 1; handle_name := GENmodName gm |}
      (model_data_of gm) sim_params in
  let st := log st (EvSetupModel (GENmodName gm)) in
  let '(res, eff) := handle_init_info info descr in
  let st := with_init_effects st "OSDI setup_model" res eff in
  if is_error res then (with_model gm md (GENinstances gm), st, Next res)
  else
    let '(insts, st, o) :=
      setup_instances descr sim_params md (GENinstances gm) res st in
    (with_model gm md insts, st, o).

(** The model loop (lines 212-293). *)
Fixpoint setup_models (descr : OsdiDescriptor) (sim_params : OsdiSimParas)
    (models : list GENmodel) (res : status) (st : setup_state)
    : list GENmodel * setup_state * outcome :=
  match models with
  | [] => ([], st, Next res)
  | gm :: models =>
      match setup_one_model descr sim_params st gm with
      | (gm, st, Return err) => (gm :: models, st, Return err)
      | (gm, st, Next res) =>
          let '(models, st, o) :=
            setup_models descr sim_params models res st in
          (gm :: models, st, o)
      end
  end.

Definition status_of (o : outcome) : status :=
  match o with Next res => res | Return err => err end.

(** The state in which the model loop is entered: the arguments, the
    fresh buffer [node_ids], and nothing assigned, printed or called yet. *)
Definition initial_state (matrix0 : SMPmatrix) (descr : OsdiDescriptor)
    (ckt0 : CKTcircuit) (states0 : Z) : setup_state :=
  {| ckt := ckt0; matrix := matrix0; states := states0;
     node_ids := TMALLOC (num_nodes descr);
     errRtn := None; errMsg := None; stdout := []; events := [] |}.

(** [OSDIsetup]; [descr] is the descriptor of the registry entry of
    [inModel].  The result is the status returned, the models as the call
    leaves them, and the state as the call leaves it. *)
Definition OSDIsetup (matrix0 : SMPmatrix) (descr : OsdiDescriptor)
    (inModel : list GENmodel) (ckt0 : CKTcircuit) (states0 : Z)
    : status * list GENmodel * setup_state :=
  let '(models, st, o) :=
    setup_models descr (get_simparams ckt0) inModel OK
      (initial_state matrix0 descr ckt0 states0) in
  (status_of o, models, st).

(** ** Vocabulary of the properties *)

Definition equation_of (descr : OsdiDescriptor) (inst : Instance) (i : Z) : Z :=
  rd (node_mapping inst) (node_1 (nodes (rd (jacobian_entries descr) i))).

Definition unknown_of (descr : OsdiDescriptor) (inst : Instance) (i : Z) : Z :=
  rd (node_mapping inst) (node_2 (nodes (rd (jacobian_entries descr) i))).

Definition react_off_of (descr : OsdiDescriptor) (i : Z) : Z :=
  react_ptr_off (rd (jacobian_entries descr) i).

(** An entry one of whose resolved endpoints is the ground node. *)
Definition grounded_entry (descr : OsdiDescriptor) (inst : Instance)
    (i : Z) : bool :=
  (equation_of descr inst i =? 0) || (unknown_of descr inst i =? 0).

Definition reservation_of (e : event) : option (string * Z * Z) :=
  match e with
  | EvStates inst base size => Some (inst, base, size)
  | _ => None
  end.

(** The reservations among some events, in order. *)
Definition reservations (evs : list event) : list (string * Z * Z) :=
  omap reservation_of evs.

(** The ranges [rs], each of size [n], follow one another from [first] and
    end at [last]: their union in order is [first .. last - 1]. *)
Fixpoint chained (n first : Z) (rs : list (string * Z * Z)) (last : Z) : Prop :=
  match rs with
  | [] => first = last
  | (_, base, size) :: rs =>
      base = first /\ size = n /\ chained n (first + size) rs last
  end.


(** The instance [gi] records the reservation of the range at [base] made
    for [inst]: its [GENstate] is the base, and [write_state_ids] has
    numbered its declared states from there. *)
Definition recorded (descr : OsdiDescriptor) (gi : GENinstance)
    (inst : string) (base : Z) : Prop :=
  GENname gi = inst /\ GENstate gi = base /\
  forall k, 0 <= k < num_states descr ->
    in_bounds (state_idx (instance_data gi)) k = true ->
    rd (state_idx (instance_data gi)) k = u32 (u32 base + k).

(** A reservation among [evs] is recorded by an instance of [models]. *)
Definition all_recorded (descr : OsdiDescriptor) (models : list GENmodel)
    (evs : list event) : Prop :=
  forall inst base size, EvStates inst base size ∈ evs ->
    exists gm gi,
      gm ∈ models /\ gi ∈ GENinstances gm /\ recorded descr gi inst base.

(** The call of the node allocator for local node [i] of instance [gname]. *)
Definition allocate (descr : OsdiDescriptor) (gname : string) (i : Z)
    (c : CKTcircuit) : status * CKTcircuit * Z :=
  if is_flow (rd (descr_nodes descr) i)
  then CKTmkCur c gname (name (rd (descr_nodes descr) i))
  else CKTmkVolt c gname (name (rd (descr_nodes descr) i)).

Definition allocation_event (descr : OsdiDescriptor) (gname : string)
    (i : Z) : event :=
  if is_flow (rd (descr_nodes descr) i)
  then EvMkCur gname (name (rd (descr_nodes descr) i))
  else EvMkVolt gname (name (rd (descr_nodes descr) i)).

(** The circuit after the allocator was called for the local nodes [ix] of
    instance [gname], in that order, from the circuit [c]. *)
Definition circuit_after (descr : OsdiDescriptor) (gname : string)
    (ix : list Z) (c : CKTcircuit) : CKTcircuit :=
  foldl (fun c i => snd (fst (allocate descr gname i c))) c ix.

(** [v] is the number that the allocator returned, without error, when the
    loop of lines 268-279, entered with the circuit [c0] and the first
    internal node [ct], called it for the local node [i] of instance
    [gname]: the call is made on the circuit as the calls for the nodes
    from [ct] up to [i] left it. *)
Definition allocated_by_run (descr : OsdiDescriptor) (gname : string)
    (c0 : CKTcircuit) (ct i v : Z) : Prop :=
  let call :=
    allocate descr gname i
      (circuit_after descr gname (seqZ ct (i - ct)) c0) in
  fst (fst call) = OK /\ v = u32 (snd call).

(** The value that the loop of lines 117-123 gives to an entry that holds
    [v], when [from] is the representative removed and [to] the target. *)
Definition compact (from to v : Z) : Z :=
  if v =? from then to
  else if (v >? from) && negb (v =? UINT32_MAX) then v - 1
  else v.

(** The collapsible pairs name nodes of the descriptor, the second of them
    possibly ground. *)
Definition wf_pairs (n : Z) (pairs : list OsdiNodePair) (nc : Z) : Prop :=
  forall i, 0 <= i < nc ->
    0 <= node_1 (rd pairs i) < n /\
    (0 <= node_2 (rd pairs i) < n \/ node_2 (rd pairs i) = UINT32_MAX).

(** The collapse of iteration [i] is proper: the representative it removes
    is not the sentinel and is not its own target. *)
Definition proper_collapse (pairs : list OsdiNodePair) (m : list Z) (i : Z)
    : bool :=
  let '(from, to) :=
    Collapse.representatives m (node_1 (rd pairs i)) (node_2 (rd pairs i)) in
  negb (from =? UINT32_MAX) && negb (from =? to).

(** Every collapse executed in the iterations [ix], started in [s], is
    proper. *)
Fixpoint proper_run (n : Z) (pairs : list OsdiNodePair) (hints : list bool)
    (ct : Z) (ix : list Z) (s : list Z * Z) : bool :=
  match ix with
  | [] => true
  | i :: ix =>
      (negb (Collapse.executes pairs hints ct (fst s) i)
       || proper_collapse pairs (fst s) i)
      && proper_run n pairs hints ct ix
           (Collapse.collapse_pair n pairs hints ct s i)
  end.

(** The number of collapses executed in the iterations [ix], started in
    [s]. *)
Fixpoint executed_collapses (n : Z) (pairs : list OsdiNodePair)
    (hints : list bool) (ct : Z) (ix : list Z) (s : list Z * Z) : Z :=
  match ix with
  | [] => 0
  | i :: ix =>
      (if Collapse.executes pairs hints ct (fst s) i then 1 else 0)
      + executed_collapses n pairs hints ct ix
          (Collapse.collapse_pair n pairs hints ct s i)
  end.

(** Every entry of the mapping is the sentinel or an index below the
    count. *)
Definition compacted (n : Z) (s : list Z * Z) : Prop :=
  Z.of_nat (length (fst s)) = n /\ 0 <= snd s <= n /\
  forall k, 0 <= k < n ->
    0 <= rd (fst s) k < snd s \/ rd (fst s) k = UINT32_MAX.

(** ** Rebinding for the reordering solver: [update_matrix_klu] and the
    CSC entry points *)

(** The body of the loop of [update_matrix_klu]; [2 * i + complex] promotes
    the [bool] to 0 or 1. *)
Definition update_entry_klu (descr : OsdiDescriptor)
    (inst_matrix_ptrs : list ptr) (complex : bool) (inst : Instance) (i : Z)
    : Instance :=
  let entry := rd (jacobian_entries descr) i in
  let equation := rd (node_mapping inst) (node_1 (nodes entry)) in
  let unkown := rd (node_mapping inst) (node_2 (nodes entry)) in
  if negb (equation =? 0) && negb (unkown =? 0)
  then set_jacobian_ptr_resist inst
         (wr (jacobian_ptr_resist inst) i
            (rd inst_matrix_ptrs (2 * i + (if complex then 1 else 0))))
  else inst.

Definition update_matrix_klu (descr : OsdiDescriptor) (inst : Instance)
    (inst_matrix_ptrs : list ptr) (complex : bool) : status * Instance :=
  (OK,
   for_u32 (num_jacobian_entries descr)
     (update_entry_klu descr inst_matrix_ptrs complex) inst).

(** What the CSC entry points use of the models: each model is the list of
    its instances, each instance its data ([osdi_instance_data]) and its
    array of matrix pointers ([osdi_instance_matrix_ptr]). *)
Definition csc_instance : Type := Instance * list ptr.

(** The instance loop of [OSDIbindCSC]; the lines printed come last. *)
Fixpoint bind_csc_instances (descr : OsdiDescriptor)
    (bindings : list BindElement) (insts : list csc_instance)
    : status * list csc_instance * list message :=
  match insts with
  | [] => (OK, [], [])
  | (inst, ptrs) :: insts =>
      let '(err, inst, ptrs, out) := init_matrix_klu bindings descr inst ptrs in
      if is_error err then (err, (inst, ptrs) :: insts, out)
      else
        let '(err, insts, out') := bind_csc_instances descr bindings insts in
        (err, (inst, ptrs) :: insts, out ++ out')
  end.

(** [OSDIbindCSC]; [bindings] is the table [KLUmatrixBindStructCOO] of
    [ckt->CKTmatrix]. *)
Fixpoint OSDIbindCSC (descr : OsdiDescriptor) (bindings : list BindElement)
    (inModel : list (list csc_instance))
    : status * list (list csc_instance) * list message :=
  match inModel with
  | [] => (OK, [], [])
  | insts :: models =>
      let '(err, insts, out) := bind_csc_instances descr bindings insts in
      if is_error err then (err, insts :: models, out)
      else
        let '(err, models, out') := OSDIbindCSC descr bindings models in
        (err, insts :: models, out ++ out')
  end.

(** The instance loop of [OSDIupdateCSC]. *)
Fixpoint update_csc_instances (descr : OsdiDescriptor) (complex : bool)
    (insts : list csc_instance) : status * list csc_instance :=
  match insts with
  | [] => (OK, [])
  | (inst, ptrs) :: insts =>
      let '(err, inst) := update_matrix_klu descr inst ptrs complex in
      if is_error err then (err, (inst, ptrs) :: insts)
      else
        let '(err, insts) := update_csc_instances descr complex insts in
        (err, (inst, ptrs) :: insts)
  end.

Fixpoint OSDIupdateCSC (descr : OsdiDescriptor)
    (inModel : list (list csc_instance)) (complex : bool)
    : status * list (list csc_instance) :=
  match inModel with
  | [] => (OK, [])
  | insts :: models =>
      let '(err, insts) := update_csc_instances descr complex insts in
      if is_error err then (err, insts :: models)
      else
        let '(err, models) := OSDIupdateCSC descr models complex in
        (err, insts :: models)
  end.

Definition OSDIbindCSCComplexToReal (descr : OsdiDescriptor)
    (inModel : list (list csc_instance))
    : status * list (list csc_instance) :=
  OSDIupdateCSC descr inModel false.

Definition OSDIbindCSCComplex (descr : OsdiDescriptor)
    (inModel : list (list csc_instance))
    : status * list (list csc_instance) :=
  OSDIupdateCSC descr inModel true.

(** ** Temperature update: [OSDItemp] *)

(** What [OSDItemp] writes besides the models: the globals [errRtn] and
    [errMsg] when assigned, the output of [printf], and its calls of the
    ABI entry points in order. *)
Record temp_state := {
  temp_errRtn : option string;
  temp_errMsg : option message;
  temp_stdout : list message;
  temp_events : list event
}.

Definition temp_log (st : temp_state) (e : event) : temp_state :=
  {| temp_errRtn := temp_errRtn st; temp_errMsg := temp_errMsg st;
     temp_stdout := temp_stdout st; temp_events := temp_events st ++ [e] |}.

Definition temp_init_effects (st : temp_state) (where_ : string)
    (res : status) (eff : init_effects) : temp_state :=
  {| temp_errRtn := if is_error res then Some where_ else temp_errRtn st;
     temp_errMsg :=
       match set_errMsg eff with Some m => Some m | None => temp_errMsg st end;
     temp_stdout := temp_stdout st ++ printed eff;
     temp_events := temp_events st |}.

(** The body of the instance loop of [OSDItemp] (lines 331-364): the
    instance as [setup_instance] leaves it, and the new [res]. *)
Definition temp_one_instance (descr : OsdiDescriptor)
    (sim_params : OsdiSimParas) (ckt0 : CKTcircuit) (model : model_data)
    (st : temp_state) (gi : GENinstance)
    : GENinstance * temp_state * status :=
  let t := instance_temp ckt0 (extra_instance_data gi) in
  let ct := connected_terminals descr (terminals gi) in
  let '(inst, info) :=
    setup_instance descr {| kind := 2; handle_name := GENname gi |}
      (instance_data gi) model t ct sim_params in
  let st := temp_log st (EvSetupInstance (GENname gi)) in
  let '(res, eff) := handle_init_info info descr in
  (with_instance_data gi inst,
   temp_init_effects st "OSDI setup_instance (OSDItemp)" res eff, res).

Fixpoint temp_instances (descr : OsdiDescriptor) (sim_params : OsdiSimParas)
    (ckt0 : CKTcircuit) (model : model_data) (insts : list GENinstance)
    (res : status) (st : temp_state)
    : list GENinstance * temp_state * status :=
  match insts with
  | [] => ([], st, res)
  | gi :: insts =>
      let '(gi, st, res) :=
        temp_one_instance descr sim_params ckt0 model st gi in
      let '(insts, st, res) :=
        temp_instances descr sim_params ckt0 model insts res st in
      (gi :: insts, st, res)
  end.

(** The body of the model loop of [OSDItemp] (lines 319-365). *)
Definition temp_one_model (descr : OsdiDescriptor)
    (sim_params : OsdiSimParas) (ckt0 : CKTcircuit) (st : temp_state)
    (gm : GENmodel) : GENmodel * temp_state * status :=
  let '(md, info) :=
    setup_model descr {| kind := 4; handle_name := GENmodName gm |}
      (model_data_of gm) sim_params in
  let st := temp_log st (EvSetupModel (GENmodName gm)) in
  let '(res, eff) := handle_init_info info descr in
  let st := temp_init_effects st "OSDI setup_model (OSDItemp)" res eff in
  if is_error res then (with_model gm md (GENinstances gm), st, res)
  else
    let '(insts, st, res) :=
      temp_instances descr sim_params ckt0 md (GENinstances gm) res st in
    (with_model gm md insts, st, res).

Fixpoint temp_models (descr : OsdiDescriptor) (sim_params : OsdiSimParas)
    (ckt0 : CKTcircuit) (models : list GENmodel) (res : status)
    (st : temp_state) : list GENmodel * temp_state * status :=
  match models with
  | [] => ([], st, res)
  | gm :: models =>
      let '(gm, st, res) := temp_one_model descr sim_params ckt0 st gm in
      let '(models, st, res) :=
        temp_models descr sim_params ckt0 models res st in
      (gm :: models, st, res)
  end.

(** [OSDItemp]: the status returned, the models and the effects. *)
Definition OSDItemp (descr : OsdiDescriptor) (inModel : list GENmodel)
    (ckt0 : CKTcircuit) : status * list GENmodel * temp_state :=
  let '(models, st, res) :=
    temp_models descr (get_simparams ckt0) ckt0 inModel OK
      {| temp_errRtn := None; temp_errMsg := None; temp_stdout := [];
         temp_events := [] |} in
  (res, models, st).

(** The line that [handle_init_info] prints for [errors[i]]. *)
Definition error_message (descr : OsdiDescriptor) (info : OsdiInitInfo)
    (i : Z) : message :=
  let err := rd (errors info) i in
  if code err =? INIT_ERR_OUT_OF_BOUNDS
  then MsgOutOfBounds
         (rd (opvar_name (rd (param_opvar descr) (parameter_id err))) 0)
  else MsgUnknownCode (code err).

(** Every entry of the mapping is the sentinel or the index of a node. *)
Definition in_range (n : Z) (m : list Z) : Prop :=
  Z.of_nat (length m) = n /\
  forall k, 0 <= k < n -> 0 <= rd m k < n \/ rd m k = UINT32_MAX.

(** What the netlist fixes of a model: its name and, for each of its
    instances in order, the name, the terminals and the extra data. *)
Definition wiring (gm : GENmodel)
    : string * list (string * list Z * OsdiExtraInstData) :=
  (GENmodName gm,
   map (fun gi => (GENname gi, terminals gi, extra_instance_data gi))
     (GENinstances gm)).

(** The state bases recorded in the instances of a model. *)
Definition state_bases (gm : GENmodel) : list Z :=
  map GENstate (GENinstances gm).

(** What [init_matrix_klu] leaves for entry [i] when it succeeds, given
    the instance and the pointer array before and after: nothing new for an
    entry with an endpoint on the ground node; for any other the element
    [matched] of the table whose [COO] address the resistive table held,
    its [CSC] address in the table and in [inst_matrix_ptrs[2 * i]], its
    [CSC_Complex] address in [inst_matrix_ptrs[2 * i + 1]]. *)
Definition klu_bound (descr : OsdiDescriptor) (bindings : list BindElement)
    (inst : Instance) (ptrs : list ptr) (inst' : Instance)
    (ptrs' : list ptr) (i : Z) : Prop :=
  if grounded_entry descr inst i
  then rd (jacobian_ptr_resist inst') i = rd (jacobian_ptr_resist inst) i /\
       rd ptrs' (2 * i) = rd ptrs (2 * i) /\
       rd ptrs' (2 * i + 1) = rd ptrs (2 * i + 1)
  else exists matched,
       bsearch (rd (jacobian_ptr_resist inst) i) bindings = Some matched /\
       rd (jacobian_ptr_resist inst') i =
         (if in_bounds (jacobian_ptr_resist inst) i then CSC matched
          else rd (jacobian_ptr_resist inst) i) /\
       rd ptrs' (2 * i) =
         (if in_bounds ptrs (2 * i) then CSC matched else rd ptrs (2 * i)) /\
       rd ptrs' (2 * i + 1) =
         (if in_bounds ptrs (2 * i + 1) then CSC_Complex matched
          else rd ptrs (2 * i + 1)).

(** [init_matrix_klu] binds the instance [a] without error and leaves
    [b]. *)
Definition csc_bound (descr : OsdiDescriptor) (bindings : list BindElement)
    (a b : csc_instance) : Prop :=
  init_matrix_klu bindings descr (fst a) (snd a) = (OK, fst b, snd b, []).

(** The array of matrix pointers has its two slots for every declared
    Jacobian entry. *)
Definition csc_room (descr : OsdiDescriptor) (a : csc_instance) : Prop :=
  2 * num_jacobian_entries descr <= Z.of_nat (length (snd a)).

(** What [update_matrix_klu] makes of an instance. *)
Definition csc_updated (descr : OsdiDescriptor) (complex : bool)
    (a : csc_instance) : csc_instance :=
  (snd (update_matrix_klu descr (fst a) (snd a) complex), snd a).

(** The models called by [setup_model], in order, among some events. *)
Definition models_called (evs : list event) : list string :=
  omap (fun e => match e with EvSetupModel s => Some s | _ => None end) evs.

End Setup.

Arguments reservations : simpl never.

(** ** Teardown: [OSDIunsetup] *)

(** What [OSDIunsetup] takes from the circuit, outside the sources verified
    here: the number of [ckt->prev_CKTlastNode], and [CKTdltNNum] (its
    result, which the code ignores, and the circuit afterwards). *)
Class NodeRelease `{Simulator} := {
  prev_CKTlastNode_number : CKTcircuit -> Z;
  CKTdltNNum : CKTcircuit -> Z -> status * CKTcircuit
}.

Section Teardown.

Context `{NodeRelease}.

Definition set_collapsed (inst : Instance) (c : list bool) : Instance :=
  {| node_mapping := node_mapping inst; collapsed := c;
     state_idx := state_idx inst;
     jacobian_ptr_resist := jacobian_ptr_resist inst;
     jacobian_ptr_react := jacobian_ptr_react inst |}.

(** Lines 403-406 for one node number; the state is the circuit and the
    numbers handed to [CKTdltNNum] so far. *)
Definition unsetup_node (s : CKTcircuit * list Z) (num : Z)
    : CKTcircuit * list Z :=
  let '(c, deleted) := s in
  if negb (prev_CKTlastNode_number c =? 0)
     && (num >? prev_CKTlastNode_number c)
  then (snd (CKTdltNNum c num), deleted ++ [num])
  else s.

(** The body of the instance loop of [OSDIunsetup] (lines 385-407). *)
Definition unsetup_instance (descr : OsdiDescriptor)
    (s : CKTcircuit * list Z) (gi : GENinstance)
    : GENinstance * (CKTcircuit * list Z) :=
  let inst := instance_data gi in
  let inst :=
    set_collapsed inst
      (for_u32 (num_collapsible descr) (fun c i => wr c i false)
         (collapsed inst)) in
  (with_instance_data gi inst,
   for_u32 (num_nodes descr)
     (fun s i => unsetup_node s (int_of_u32 (rd (node_mapping inst) i))) s).

Fixpoint unsetup_instances (descr : OsdiDescriptor)
    (insts : list GENinstance) (s : CKTcircuit * list Z)
    : list GENinstance * (CKTcircuit * list Z) :=
  match insts with
  | [] => ([], s)
  | gi :: insts =>
      let '(gi, s) := unsetup_instance descr s gi in
      let '(insts, s) := unsetup_instances descr insts s in
      (gi :: insts, s)
  end.

Fixpoint unsetup_models (descr : OsdiDescriptor) (models : list GENmodel)
    (s : CKTcircuit * list Z) : list GENmodel * (CKTcircuit * list Z) :=
  match models with
  | [] => ([], s)
  | gm :: models =>
      let '(insts, s) := unsetup_instances descr (GENinstances gm) s in
      let '(models, s) := unsetup_models descr models s in
      (with_model gm (model_data_of gm) insts :: models, s)
  end.

(** [OSDIunsetup]: the status, the models, the circuit, and the numbers
    handed to [CKTdltNNum], in order. *)
Definition OSDIunsetup (descr : OsdiDescriptor) (inModel : list GENmodel)
    (ckt0 : CKTcircuit) : status * list GENmodel * CKTcircuit * list Z :=
  let '(models, (c, deleted)) := unsetup_models descr inModel (ckt0, []) in
  (OK, models, c, deleted).

(** What [OSDIunsetup] makes of an instance: the collapse flags of the
    declared pairs are cleared and nothing else is touched. *)
Definition unset (descr : OsdiDescriptor) (gi gi' : GENinstance) : Prop :=
  (GENname gi', GENstate gi', terminals gi', extra_instance_data gi') =
    (GENname gi, GENstate gi, terminals gi, extra_instance_data gi) /\
  node_mapping (instance_data gi') = node_mapping (instance_data gi) /\
  state_idx (instance_data gi') = state_idx (instance_data gi) /\
  jacobian_ptr_resist (instance_data gi') =
    jacobian_ptr_resist (instance_data gi) /\
  jacobian_ptr_react (instance_data gi') =
    jacobian_ptr_react (instance_data gi) /\
  length (collapsed (instance_data gi')) =
    length (collapsed (instance_data gi)) /\
  forall k,
    rd (collapsed (instance_data gi')) k =
    if (0 <=? k) && (k <? num_collapsible descr)
       && in_bounds (collapsed (instance_data gi)) k
    then false else rd (collapsed (instance_data gi)) k.

(** [unset], model by model: names and model data are kept too. *)
Definition models_unset (descr : OsdiDescriptor)
    (models models' : list GENmodel) : Prop :=
  Forall2
    (fun gm gm' =>
       GENmodName gm' = GENmodName gm /\
       model_data_of gm' = model_data_of gm /\
       Forall2 (unset descr) (GENinstances gm) (GENinstances gm'))
    models models'.

(** The collapse flags of every instance cover the declared pairs. *)
Definition flags_sized (descr : OsdiDescriptor) (models : list GENmodel)
    : Prop :=
  Forall
    (Forall (fun gi =>
       num_collapsible descr
       <= Z.of_nat (length (collapsed (instance_data gi)))))
    (map GENinstances models).

(** The node mapping of every instance has [num_nodes] entries. *)
Definition mappings_sized (descr : OsdiDescriptor) (models : list GENmodel)
    : Prop :=
  Forall
    (Forall (fun gi =>
       Z.of_nat (length (node_mapping (instance_data gi))) = num_nodes descr))
    (map GENinstances models).

(** The numbers in the node mappings of the instances of [models], as
    [OSDIunsetup] goes through them. *)
Definition mapped_numbers (models : list GENmodel) : list Z :=
  concat
    (map (fun gi => map int_of_u32 (node_mapping (instance_data gi)))
       (concat (map GENinstances models))).

End Teardown.

(** ** A test bench

    A small simulator to run the driver on concrete netlists: node numbers
    are handed out consecutively after the last one, the matrix remembers
    the pairs requested from it and answers with an address that depends on
    the pair only, the model data is the [OsdiInitInfo] that [setup_model]
    reports, and [setup_instance] accepts the instance as it finds it (the
    collapse flags of an instance are those its model evaluation sets). *)

Module Bench.

Definition sim : Simulator := {|
  model_data := OsdiInitInfo;
  real := Z;
  OsdiSimParas := unit;
  CKTcircuit := Z;
  SMPmatrix := list (Z * Z);
  real_add := Z.add;
  EVAL_RET_FLAG_FATAL := 2;
  EVAL_RET_FLAG_FINISH := 4;
  INIT_ERR_OUT_OF_BOUNDS := 1;
  CKTtemp := fun _ => 300;
  get_simparams := fun _ => tt;
  CKTmkVolt := fun c _ _ => (OK, c + 1, c + 1);
  CKTmkCur := fun c _ _ => (OK, c + 1, c + 1);
  SMPmakeElt := fun m r c => (m ++ [(r, c)], 1000 + 2 * (64 * r + c));
  TMALLOC := fun n => replicate (Z.to_nat n) 0
|}.

Definition success : OsdiInitInfo :=
  {| flags := 0; num_errors := 0; errors := [] |}.

Definition fatal : OsdiInitInfo :=
  {| flags := 2; num_errors := 0; errors := [] |}.

Definition fatal_with_errors : OsdiInitInfo :=
  {| flags := 2; num_errors := 1;
     errors := [ {| code := 1; parameter_id := 0 |} ] |}.

Definition two_errors : OsdiInitInfo :=
  {| flags := 0; num_errors := 2;
     errors := [ {| code := 1; parameter_id := 0 |};
                 {| code := 7; parameter_id := 0 |} ] |}.

Definition pair (a b : Z) : OsdiNodePair := {| node_1 := a; node_2 := b |}.

Definition jac (a b off : Z) : OsdiJacobianEntry :=
  {| nodes := pair a b; react_ptr_off := off |}.

Definition node (s : string) (resid : Z) : OsdiNode :=
  {| name := s; is_flow := false; react_residual_off := resid |}.

Definition report : OsdiNgspiceHandle -> @model_data sim ->
    @OsdiSimParas sim -> @model_data sim * OsdiInitInfo :=
  fun _ md _ => (md, md).

Definition accept : OsdiNgspiceHandle -> Instance -> @model_data sim ->
    @real sim -> Z -> @OsdiSimParas sim -> Instance * OsdiInitInfo :=
  fun _ inst _ _ _ _ => (inst, success).

Definition descriptor (nodes_ : list OsdiNode) (nterm : Z)
    (pairs : list OsdiNodePair) (entries : list OsdiJacobianEntry)
    (nstates : Z) : @OsdiDescriptor sim :=
  {| num_nodes := Z.of_nat (length nodes_);
     num_terminals := nterm;
     descr_nodes := nodes_;
     num_jacobian_entries := Z.of_nat (length entries);
     jacobian_entries := entries;
     num_collapsible := Z.of_nat (length pairs);
     collapsible := pairs;
     num_states := nstates;
     param_opvar := [ {| opvar_name := ["vth0"] |} ];
     setup_model := report;
     setup_instance := accept |}.

(** An instance blob for a descriptor, with the given collapse flags. *)
Definition blob (d : @OsdiDescriptor sim) (hints : list bool) : Instance :=
  {| node_mapping := replicate (Z.to_nat (num_nodes d)) 0;
     collapsed := hints;
     state_idx := replicate (Z.to_nat (num_states d)) 0;
     jacobian_ptr_resist := replicate (Z.to_nat (num_jacobian_entries d)) 0;
     jacobian_ptr_react := ∅ |}.

Definition device (d : @OsdiDescriptor sim) (s : string) (terms : list Z)
    (hints : list bool) : @GENinstance sim :=
  @Build_GENinstance sim s 0 terms (blob d hints)
    (@Build_OsdiExtraInstData sim 0 0 false false).

Definition model (s : string) (info : OsdiInitInfo)
    (insts : list (@GENinstance sim)) : @GENmodel sim :=
  @Build_GENmodel sim s insts info.

(** The three-terminal device of the specification's scenario: drain, gate
    and source are terminals, [internal_a] may collapse into the source. *)
Definition mos : @OsdiDescriptor sim :=
  descriptor
    [node "drain" UINT32_MAX; node "gate" UINT32_MAX; node "source" 40;
     node "internal_a" 48]
    3 [pair 3 2]
    [jac 0 0 UINT32_MAX; jac 3 3 64; jac 3 2 72; jac 2 3 UINT32_MAX]
    1.

(** One terminal and three internal nodes, pairwise collapsible. *)
Definition triangle : @OsdiDescriptor sim :=
  descriptor
    [node "t" UINT32_MAX; node "a" UINT32_MAX; node "b" UINT32_MAX;
     node "c" UINT32_MAX]
    1 [pair 2 1; pair 3 1; pair 3 2] [jac 1 1 UINT32_MAX] 0.

(** One terminal and two internal nodes: [a] collapsible to ground and [b]
    collapsible into [a]. *)
Definition grounded : @OsdiDescriptor sim :=
  descriptor
    [node "t" UINT32_MAX; node "a" UINT32_MAX; node "b" UINT32_MAX]
    1 [pair 1 UINT32_MAX; pair 2 1] [] 0.

(** As [triangle], with a fourth internal node that no pair names. *)
Definition triangle_and_one : @OsdiDescriptor sim :=
  descriptor
    [node "t" UINT32_MAX; node "a" UINT32_MAX; node "b" UINT32_MAX;
     node "c" UINT32_MAX; node "d" UINT32_MAX]
    1 [pair 2 1; pair 3 1; pair 3 2] [] 0.

(** The [mos] instance after topology binding, with the three terminals on
    the circuit nodes 5, 6 and 7, and with the source on the ground node. *)
Definition live : Instance := set_node_mapping (blob mos [true]) [5; 6; 7; 7].

Definition tied : Instance := set_node_mapping (blob mos [true]) [5; 6; 0; 0].

(** Two models of [mos] devices; [setup_model] reports the fatal flag for
    the first. *)
Definition M1 : @GENmodel sim :=
  model "M1" fatal [device mos "X1" [5; 6; 7] [true]].

Definition M2 : @GENmodel sim :=
  model "M2" success [device mos "X2" [5; 6; 7] [true]].

(** One model with two devices, the second with [internal_a] kept. *)
Definition M3 : @GENmodel sim :=
  model "M3" success
    [device mos "X1" [5; 6; 7] [true]; device mos "X2" [7; 8; 9] [false]].

(** One model with two [triangle] devices: no collapse is executed for the
    first, all three for the second. *)
Definition M4 : @GENmodel sim :=
  model "M4" success
    [device triangle "X1" [5] [false; false; false];
     device triangle "X2" [6] [true; true; true]].

(** [live] with the resistive table that [init_matrix] leaves, a table of
    the reordered matrix holding its two addresses, one holding the first
    only, and the two slots per entry of [inst_matrix_ptrs]. *)
Definition bound : Instance := snd (@init_matrix sim [] mos live).

Definition table : list BindElement :=
  [ {| COO := 1650; CSC := 7000; CSC_Complex := 9000 |};
    {| COO := 1910; CSC := 7100; CSC_Complex := 9100 |} ].

Definition short_table : list BindElement :=
  [ {| COO := 1650; CSC := 7000; CSC_Complex := 9000 |} ].

Definition slots : list ptr := replicate 8 0.

(** The models of [M3] as [OSDIsetup] leaves them in a circuit with nine
    nodes: the second device owns the internal node 10. *)
Definition installed : list (@GENmodel sim) :=
  snd (fst (@OSDIsetup sim [] mos [M3] 9 0)).

(** Node release for [sim]: the last external node is [mark], and deleting
    a node leaves the counter of the circuit alone. *)
Definition release (mark : Z) : @NodeRelease sim :=
  @Build_NodeRelease sim (fun _ => mark) (fun c _ => (OK, c)).

(** As [sim], with a matrix that has room for six elements. *)
Definition tight : Simulator := {|
  model_data := OsdiInitInfo;
  real := Z;
  OsdiSimParas := unit;
  CKTcircuit := Z;
  SMPmatrix := list (Z * Z);
  real_add := Z.add;
  EVAL_RET_FLAG_FATAL := 2;
  EVAL_RET_FLAG_FINISH := 4;
  INIT_ERR_OUT_OF_BOUNDS := 1;
  CKTtemp := fun _ => 300;
  get_simparams := fun _ => tt;
  CKTmkVolt := fun c _ _ => (OK, c + 1, c + 1);
  CKTmkCur := fun c _ _ => (OK, c + 1, c + 1);
  SMPmakeElt := fun m r c =>
    if Z.of_nat (length m) <? 6
    then (m ++ [(r, c)], 1000 + 2 * (64 * r + c))
    else (m, NULL);
  TMALLOC := fun n => replicate (Z.to_nat n) 0
|}.

Definition tight_report : OsdiNgspiceHandle -> @model_data tight ->
    @OsdiSimParas tight -> @model_data tight * OsdiInitInfo :=
  fun _ md _ => (md, md).

Definition tight_accept : OsdiNgspiceHandle -> Instance ->
    @model_data tight -> @real tight -> Z -> @OsdiSimParas tight ->
    Instance * OsdiInitInfo :=
  fun _ inst _ _ _ _ => (inst, success).

(** The device [mos] for [tight]. *)
Definition tight_mos : @OsdiDescriptor tight :=
  {| num_nodes := 4;
     num_terminals := 3;
     descr_nodes :=
       [node "drain" UINT32_MAX; node "gate" UINT32_MAX; node "source" 40;
        node "internal_a" 48];
     num_jacobian_entries := 4;
     jacobian_entries :=
       [jac 0 0 UINT32_MAX; jac 3 3 64; jac 3 2 72; jac 2 3 UINT32_MAX];
     num_collapsible := 1;
     collapsible := [pair 3 2];
     num_states := 1;
     param_opvar := [ {| opvar_name := ["vth0"] |} ];
     setup_model := tight_report;
     setup_instance := tight_accept |}.

Definition tight_model (s inst : string) : @GENmodel tight :=
  @Build_GENmodel tight s
    [@Build_GENinstance tight inst 0 [5; 6; 7] (blob mos [true])
       (@Build_OsdiExtraInstData tight 0 0 false false)]
    success.

Definition T1 : @GENmodel tight := tight_model "T1" "X1".

Definition T2 : @GENmodel tight := tight_model "T2" "X2".

Definition T3 : @GENmodel tight := tight_model "T3" "X3".

End Bench.

(** * Properties *)

(** ** Arrays and loops *)

Lemma in_bounds_iff {A} (a : list A) (i : Z) :
  in_bounds a i = true <-> 0 <= i < Z.of_nat (length a).
Proof. unfold in_bounds. rewrite andb_true_iff. lia. Qed.

Lemma in_bounds_false {A} (a : list A) (i : Z) :
  in_bounds a i = false <-> ~ (0 <= i < Z.of_nat (length a)).
Proof. rewrite <- in_bounds_iff. destruct (in_bounds a i); naive_solver. Qed.

Lemma length_wr {A} (a : list A) (i : Z) (v : A) :
  length (wr a i v) = length a.
Proof. unfold wr. destruct (in_bounds a i); [apply length_insert | done]. Qed.

Lemma in_bounds_wr {A} (a : list A) (i j : Z) (v : A) :
  in_bounds (wr a i v) j = in_bounds a j.
Proof. unfold in_bounds. by rewrite length_wr. Qed.

Lemma rd_wr_eq {A} `{Inhabited A} (a : list A) (i : Z) (v : A) :
  in_bounds a i = true -> rd (wr a i v) i = v.
Proof.
  intros Hb. unfold rd. rewrite in_bounds_wr, Hb. unfold wr. rewrite Hb.
  apply in_bounds_iff in Hb.
  rewrite list_lookup_insert_eq by lia. done.
Qed.

Lemma rd_wr_ne {A} `{Inhabited A} (a : list A) (i j : Z) (v : A) :
  i <> j -> rd (wr a i v) j = rd a j.
Proof.
  intros Hne. unfold rd. rewrite in_bounds_wr.
  destruct (in_bounds a j) eqn:Hj; [|done].
  unfold wr. destruct (in_bounds a i) eqn:Hi; [|done].
  apply in_bounds_iff in Hi, Hj.
  rewrite list_lookup_insert_ne by lia. done.
Qed.

Lemma rd_wr {A} `{Inhabited A} (a : list A) (i j : Z) (v : A) :
  rd (wr a i v) j = if (i =? j) && in_bounds a i then v else rd a j.
Proof.
  destruct (Z.eqb_spec i j) as [->|Hne]; simpl.
  - destruct (in_bounds a j) eqn:Hj; [by apply rd_wr_eq|].
    unfold wr. by rewrite Hj.
  - by apply rd_wr_ne.
Qed.

Lemma rd_lookup {A} `{Inhabited A} (a : list A) (k : nat) (x : A) :
  a !! k = Some x -> rd a (Z.of_nat k) = x.
Proof.
  intros Hk. unfold rd.
  assert (in_bounds a (Z.of_nat k) = true) as ->.
  { apply in_bounds_iff. apply lookup_lt_Some in Hk. lia. }
  by rewrite Nat2Z.id, Hk.
Qed.

Lemma list_eq_rd {A} `{Inhabited A} (a b : list A) :
  length a = length b ->
  (forall k, 0 <= k < Z.of_nat (length a) -> rd a k = rd b k) ->
  a = b.
Proof.
  intros Hlen Hrd. apply list_eq_same_length with (length a); [done..|].
  intros i x y Hi Hx Hy.
  assert (0 <= Z.of_nat i < Z.of_nat (length a)) as Hk by lia.
  apply Hrd in Hk.
  by rewrite (rd_lookup a i x), (rd_lookup b i y) in Hk.
Qed.

Lemma for_u32_nonpos {S} (n : Z) (body : S -> Z -> S) (s : S) :
  n <= 0 -> for_u32 n body s = s.
Proof. intros. unfold for_u32. by rewrite seqZ_nil. Qed.

Lemma for_u32_succ {S} (n : Z) (body : S -> Z -> S) (s : S) :
  0 <= n -> for_u32 (n + 1) body s = body (for_u32 n body s) n.
Proof.
  intros Hn. unfold for_u32.
  rewrite seqZ_app by lia. rewrite foldl_app.
  rewrite (seqZ_cons (0 + n) 1) by lia.
  rewrite (seqZ_nil (Z.succ (0 + n))) by lia.
  simpl. by rewrite Z.add_0_l.
Qed.

(** The usual rule for a counting loop. *)
Lemma for_u32_invariant {S} (P : Z -> S -> Prop) (n : Z)
    (body : S -> Z -> S) (s : S) :
  0 <= n -> P 0 s ->
  (forall i s, 0 <= i < n -> P i s -> P (i + 1) (body s i)) ->
  P n (for_u32 n body s).
Proof.
  intros Hn H0 Hstep. revert Hstep.
  pattern n. apply natlike_ind; [| |done].
  - intros _. by rewrite for_u32_nonpos.
  - intros k Hk IH Hstep. unfold Z.succ. rewrite for_u32_succ by done.
    apply Hstep; [lia|]. apply IH. intros i s' Hi. apply Hstep. lia.
Qed.

(** A loop that rewrites entry [i] from its own old value. *)
Lemma for_u32_pointwise {A} `{Inhabited A} (g : Z -> A -> A) (n : Z)
    (body : list A -> Z -> list A) (a : list A) :
  (forall m i, body m i = wr m i (g i (rd m i))) ->
  length (for_u32 n body a) = length a /\
  forall k, rd (for_u32 n body a) k =
            if (0 <=? k) && (k <? n) && in_bounds a k then g k (rd a k)
            else rd a k.
Proof.
  intros Hbody. destruct (Z.le_gt_cases 0 n) as [Hn|Hn].
  2:{ rewrite for_u32_nonpos by lia. split; [done|]. intros k.
      replace ((0 <=? k) && (k <? n)) with false by lia. done. }
  apply (for_u32_invariant
           (fun i m => length m = length a /\
              forall k, rd m k =
                if (0 <=? k) && (k <? i) && in_bounds a k then g k (rd a k)
                else rd a k)); [done| |].
  - split; [done|]. intros k.
    replace ((0 <=? k) && (k <? 0)) with false by lia. done.
  - intros i m Hi [Hlen Hrd]. rewrite Hbody. split.
    + by rewrite length_wr.
    + intros k. rewrite rd_wr.
      assert (in_bounds m i = in_bounds a i) as ->.
      { unfold in_bounds. by rewrite Hlen. }
      destruct (Z.eqb_spec i k) as [->|Hne]; simpl.
      * destruct (in_bounds a k) eqn:Hk.
        -- replace ((0 <=? k) && (k <? k + 1)) with true by lia.
           simpl. rewrite Hrd.
           replace ((0 <=? k) && (k <? k)) with false by lia. done.
        -- rewrite Hrd, Hk, !andb_false_r. done.
      * rewrite Hrd.
        replace (k <? i + 1) with (k <? i) by lia. done.
Qed.

Section Properties.

Context `{Simulator}.

(** ** [handle_init_info] *)

Lemma fatal_or_finish_true (info : OsdiInitInfo) :
  fatal_or_finish info = true <->
  Z.land (flags info) (Z.lor EVAL_RET_FLAG_FATAL EVAL_RET_FLAG_FINISH) <> 0.
Proof. unfold fatal_or_finish. rewrite negb_true_iff. lia. Qed.

Lemma handle_init_info_cases (info : OsdiInitInfo) (descr : OsdiDescriptor) :
  (fatal_or_finish info = true /\
   handle_init_info info descr = (E_PANIC, no_effects)) \/
  (fatal_or_finish info = false /\ num_errors info = 0 /\
   handle_init_info info descr = (OK, no_effects)) \/
  (fatal_or_finish info = false /\ num_errors info <> 0 /\
   fst (handle_init_info info descr) = E_PRIVATE /\
   snd (handle_init_info info descr) <> no_effects).
Proof.
  unfold handle_init_info.
  destruct (fatal_or_finish info); [by left|right].
  destruct (Z.eqb_spec (num_errors info) 0); [by left|right].
  repeat split; done.
Qed.

(** ** Jacobian binder *)

Lemma bind_entry_request (descr : OsdiDescriptor) (matrix : SMPmatrix)
    (inst : Instance) (i : Z) :
  fst (bind_entry descr (matrix, inst) i) =
  fst (SMPmakeElt matrix (int_of_u32 (equation_of descr inst i))
         (int_of_u32 (unknown_of descr inst i))).
Proof.
  unfold bind_entry, equation_of, unknown_of.
  destruct (SMPmakeElt _ _ _) as [m p]. simpl.
  destruct (p =? NULL); [done|]. by destruct (negb _).
Qed.

Lemma bind_entry_stored (descr : OsdiDescriptor) (matrix m' : SMPmatrix)
    (inst inst' : Instance) (i : Z) :
  bind_entry descr (matrix, inst) i = (m', Some inst') ->
  let p := snd (SMPmakeElt matrix (int_of_u32 (equation_of descr inst i))
                  (int_of_u32 (unknown_of descr inst i))) in
  p <> NULL /\
  node_mapping inst' = node_mapping inst /\
  collapsed inst' = collapsed inst /\
  state_idx inst' = state_idx inst /\
  jacobian_ptr_resist inst' = wr (jacobian_ptr_resist inst) i p /\
  jacobian_ptr_react inst' =
    if react_off_of descr i =? UINT32_MAX then jacobian_ptr_react inst
    else <[react_off_of descr i := p + 1]> (jacobian_ptr_react inst).
Proof.
  unfold bind_entry, equation_of, unknown_of, react_off_of.
  destruct (SMPmakeElt _ _ _) as [m p]. simpl.
  destruct (Z.eqb_spec p NULL); [done|].
  destruct (Z.eqb_spec (react_ptr_off (rd (jacobian_entries descr) i))
              UINT32_MAX); simpl; intros [= <- <-]; done.
Qed.

Lemma init_matrix_from_ok (descr : OsdiDescriptor) (ix : list Z) :
  NoDup ix ->
  forall (matrix m' : SMPmatrix) (inst inst' : Instance),
  init_matrix_from descr ix matrix inst = (OK, m', inst') ->
  node_mapping inst' = node_mapping inst /\
  collapsed inst' = collapsed inst /\
  state_idx inst' = state_idx inst /\
  length (jacobian_ptr_resist inst') = length (jacobian_ptr_resist inst) /\
  (forall i, i ∉ ix ->
     rd (jacobian_ptr_resist inst') i = rd (jacobian_ptr_resist inst) i) /\
  (forall off,
     (forall i, i ∈ ix ->
        react_off_of descr i = UINT32_MAX \/ react_off_of descr i <> off) ->
     jacobian_ptr_react inst' !! off = jacobian_ptr_react inst !! off) /\
  (forall pre i post, ix = pre ++ i :: post ->
     in_bounds (jacobian_ptr_resist inst) i = true ->
     react_off_of descr i <> UINT32_MAX ->
     (forall j, j ∈ post -> react_off_of descr j <> react_off_of descr i) ->
     jacobian_ptr_react inst' !! react_off_of descr i =
       Some (rd (jacobian_ptr_resist inst') i + 1)).
Proof.
  induction 1 as [|i0 ix Hnotin Hnd IH]; intros matrix m' inst inst';
    cbn [init_matrix_from].
  - intros [= <- <-]. repeat split; try done.
    intros pre i post Heq. by destruct pre.
  - destruct (bind_entry descr (matrix, inst) i0) as [m1 [inst1|]] eqn:Hb;
      [|done].
    intros Hrun.
    apply bind_entry_stored in Hb as (_ & Hnm & Hc & Hs & Hres & Hreact).
    destruct (IH _ _ _ _ Hrun) as (Hnm' & Hc' & Hs' & Hlen' & Hout & Hkeep & Hin).
    repeat split.
    + congruence.
    + congruence.
    + congruence.
    + by rewrite Hlen', Hres, length_wr.
    + intros i [Hi0 Hi]%not_elem_of_cons. rewrite Hout by done.
      rewrite Hres. by apply rd_wr_ne.
    + intros off Hoff.
      rewrite Hkeep by (intros; apply Hoff; by apply list_elem_of_further).
      rewrite Hreact.
      destruct (Hoff i0 (list_elem_of_here _ _)) as [->|Hne]; [done|].
      destruct (react_off_of descr i0 =? UINT32_MAX); [done|].
      by rewrite lookup_insert_ne.
    + intros pre i post Heq Hbound Hreactive Hlater.
      destruct pre as [|i0' pre]; simpl in Heq; injection Heq as -> ->.
      * rewrite Hkeep, Hout, Hres, Hreact; [|done|].
        -- rewrite rd_wr_eq by done.
           destruct (Z.eqb_spec (react_off_of descr i) UINT32_MAX); [done|].
           by rewrite lookup_insert_eq.
        -- intros j Hj. right. by apply Hlater.
      * apply (Hin pre i post); try done.
        by rewrite Hres, in_bounds_wr.
Qed.

(** What a successful pass leaves in the resistive table for the entry [i]:
    the address that [SMPmakeElt] returned for its resolved pair, on the
    matrix as the entries before [i] left it. *)
Lemma init_matrix_from_address (descr : OsdiDescriptor) (ix : list Z) :
  NoDup ix ->
  forall (matrix m' : SMPmatrix) (inst inst' : Instance),
  init_matrix_from descr ix matrix inst = (OK, m', inst') ->
  forall pre i post, ix = pre ++ i :: post ->
    in_bounds (jacobian_ptr_resist inst) i = true ->
    let m1 := snd (fst (init_matrix_from descr pre matrix inst)) in
    let p := snd (SMPmakeElt m1 (int_of_u32 (equation_of descr inst i))
                    (int_of_u32 (unknown_of descr inst i))) in
    p <> NULL /\ rd (jacobian_ptr_resist inst') i = p.
Proof.
  induction 1 as [|i0 ix Hnotin Hnd IH]; intros matrix m' inst inst' Hrun
    pre i post Heq Hbound.
  { by destruct pre. }
  cbn [init_matrix_from] in Hrun.
  destruct (bind_entry descr (matrix, inst) i0) as [m1 [inst1|]] eqn:Hb;
    [|done].
  pose proof Hb as Hst.
  apply bind_entry_stored in Hst as (Hp & Hnm & _ & _ & Hres & _).
  destruct pre as [|i0' pre]; simpl in Heq; injection Heq as -> ->.
  - cbn [init_matrix_from fst snd]. split; [done|].
    apply init_matrix_from_ok in Hrun as (_ & _ & _ & _ & Hout & _); [|done].
    rewrite Hout by done. rewrite Hres. by apply rd_wr_eq.
  - cbn [init_matrix_from]. rewrite Hb.
    assert (equation_of descr inst i = equation_of descr inst1 i) as ->
      by (unfold equation_of; by rewrite Hnm).
    assert (unknown_of descr inst i = unknown_of descr inst1 i) as ->
      by (unfold unknown_of; by rewrite Hnm).
    apply (IH _ _ _ _ Hrun pre i post eq_refl).
    by rewrite Hres, in_bounds_wr.
Qed.

(** C8. When [init_matrix] succeeds, every Jacobian entry that declares a
    reactive component (its [react_ptr_off] is not [UINT32_MAX]) has, at
    that offset of the instance, the address stored for it in the resistive
    table plus one slot (unless a later entry uses the same offset); the
    reactive pointers at offsets that no reactive entry names, the node
    mapping, the collapse flags and the state indices are as before; and
    the iteration for an entry without a reactive component changes
    nothing in the instance but that entry of the resistive table. *)
Theorem init_matrix_reactive_address (descr : OsdiDescriptor)
    (matrix m' : SMPmatrix) (inst inst' : Instance) :
  init_matrix matrix descr inst = (OK, m', inst') ->
  (forall (m1 m2 : SMPmatrix) (inst1 inst2 : Instance) i,
     bind_entry descr (m1, inst1) i = (m2, Some inst2) ->
     react_off_of descr i = UINT32_MAX ->
     exists p, inst2 =
       set_jacobian_ptr_resist inst1 (wr (jacobian_ptr_resist inst1) i p)) /\
  (forall i, 0 <= i < num_jacobian_entries descr ->
     in_bounds (jacobian_ptr_resist inst) i = true ->
     react_off_of descr i <> UINT32_MAX ->
     (forall j, i < j < num_jacobian_entries descr ->
        react_off_of descr j <> react_off_of descr i) ->
     jacobian_ptr_react inst' !! react_off_of descr i =
       Some (rd (jacobian_ptr_resist inst') i + 1)) /\
  (forall off,
     (forall i, 0 <= i < num_jacobian_entries descr ->
        react_off_of descr i = UINT32_MAX \/ react_off_of descr i <> off) ->
     jacobian_ptr_react inst' !! off = jacobian_ptr_react inst !! off) /\
  node_mapping inst' = node_mapping inst /\
  collapsed inst' = collapsed inst /\
  state_idx inst' = state_idx inst.
Proof.
  unfold init_matrix. intros Hrun.
  apply init_matrix_from_ok in Hrun as (Hnm & Hc & Hs & _ & _ & Hkeep & Hin);
    [|apply NoDup_seqZ].
  split.
  { intros m1 m2 inst1 inst2 i Hb Hoff.
    apply bind_entry_stored in Hb as (_ & H1 & H2 & H3 & H4 & H5).
    rewrite Hoff in H5. simpl in H5. eexists.
    destruct inst1, inst2; simpl in *. subst. reflexivity. }
  repeat split; try done.
  - intros i Hi Hbound Hreactive Hlater.
    apply (Hin (seqZ 0 i) i (seqZ (i + 1) (num_jacobian_entries descr - i - 1)));
      try done.
    + replace (num_jacobian_entries descr)
        with (i + (1 + (num_jacobian_entries descr - i - 1))) at 1 by lia.
      rewrite seqZ_app by lia. f_equal.
      rewrite seqZ_cons by lia. repeat f_equal; lia.
    + intros j Hj%elem_of_seqZ. apply Hlater. lia.
  - intros off Hoff. apply Hkeep. intros i Hi%elem_of_seqZ. apply Hoff. lia.
Qed.

Lemma bind_entry_klu_node_mapping (descr : OsdiDescriptor)
    (bindings : list BindElement) (inst inst' : Instance)
    (ptrs ptrs' : list ptr) (i : Z) :
  bind_entry_klu descr bindings (inst, ptrs) i = inl (inst', ptrs') ->
  node_mapping inst' = node_mapping inst.
Proof.
  unfold bind_entry_klu.
  destruct (negb _ && negb _); [|by intros [= <- <-]].
  destruct (bsearch _ _) as [matched|]; [|done].
  destruct (negb _); by intros [= <- <-].
Qed.

Lemma bind_entry_klu_grounded (descr : OsdiDescriptor)
    (bindings : list BindElement) (inst : Instance) (ptrs : list ptr) (i : Z) :
  grounded_entry descr inst i = true ->
  bind_entry_klu descr bindings (inst, ptrs) i = inl (inst, ptrs).
Proof.
  unfold grounded_entry, equation_of, unknown_of, bind_entry_klu.
  intros Hg. rewrite <- negb_orb, Hg. done.
Qed.

Lemma init_matrix_klu_from_drop (descr : OsdiDescriptor)
    (bindings : list BindElement) (i : Z) (pre post : list Z) :
  forall (inst : Instance) (ptrs : list ptr),
  grounded_entry descr inst i = true ->
  init_matrix_klu_from descr bindings (pre ++ i :: post) inst ptrs =
  init_matrix_klu_from descr bindings (pre ++ post) inst ptrs.
Proof.
  induction pre as [|a pre IH]; intros inst ptrs Hg; cbn [app init_matrix_klu_from].
  - by rewrite bind_entry_klu_grounded.
  - destruct (bind_entry_klu descr bindings (inst, ptrs) a)
      as [[inst1 ptrs1]|p] eqn:Ha; [|done].
    apply IH. apply bind_entry_klu_node_mapping in Ha.
    unfold grounded_entry, equation_of, unknown_of in *. by rewrite Ha.
Qed.

(** C2, as amended.  For a Jacobian entry one of whose resolved endpoints is
    global index 0: the binding pass for the reordering solver
    ([init_matrix_klu]) skips it, without a lookup, a message or a write, so
    that the pass runs as if the entry were not declared.  The plain binding
    pass ([init_matrix]) does not skip it.  Its iteration for the entry
    requests the resolved pair from [SMPmakeElt] like any other and, when
    the address it gets is not [NULL], stores that address in the resistive
    table and, for a reactive entry, that address plus one slot at the
    reactive offset; and when the whole pass succeeds, the resistive table
    holds for the entry the address that [SMPmakeElt] returned, on the
    matrix as the earlier entries left it, and the reactive offset of the
    entry holds that address plus one slot (unless a later entry uses the
    same offset). *)
Theorem grounded_entry_binding (descr : OsdiDescriptor)
    (bindings : list BindElement) (matrix : SMPmatrix) (inst : Instance)
    (ptrs : list ptr) (i : Z) :
  grounded_entry descr inst i = true ->
  bind_entry_klu descr bindings (inst, ptrs) i = inl (inst, ptrs) /\
  (forall pre post,
     init_matrix_klu_from descr bindings (pre ++ i :: post) inst ptrs =
     init_matrix_klu_from descr bindings (pre ++ post) inst ptrs) /\
  (let call :=
     SMPmakeElt matrix (int_of_u32 (equation_of descr inst i))
       (int_of_u32 (unknown_of descr inst i)) in
   fst (bind_entry descr (matrix, inst) i) = fst call /\
   (snd call = NULL -> snd (bind_entry descr (matrix, inst) i) = None) /\
   (snd call <> NULL ->
    exists inst',
      snd (bind_entry descr (matrix, inst) i) = Some inst' /\
      node_mapping inst' = node_mapping inst /\
      jacobian_ptr_resist inst' =
        wr (jacobian_ptr_resist inst) i (snd call) /\
      jacobian_ptr_react inst' =
        if react_off_of descr i =? UINT32_MAX then jacobian_ptr_react inst
        else <[react_off_of descr i := snd call + 1]>
               (jacobian_ptr_react inst))) /\
  (forall (m' : SMPmatrix) (inst' : Instance),
     init_matrix matrix descr inst = (OK, m', inst') ->
     0 <= i < num_jacobian_entries descr ->
     in_bounds (jacobian_ptr_resist inst) i = true ->
     let m1 := snd (fst (init_matrix_from descr (seqZ 0 i) matrix inst)) in
     let p :=
       snd (SMPmakeElt m1 (int_of_u32 (equation_of descr inst i))
              (int_of_u32 (unknown_of descr inst i))) in
     p <> NULL /\
     rd (jacobian_ptr_resist inst') i = p /\
     (react_off_of descr i <> UINT32_MAX ->
      (forall j, i < j < num_jacobian_entries descr ->
         react_off_of descr j <> react_off_of descr i) ->
      jacobian_ptr_react inst' !! react_off_of descr i = Some (p + 1))).
Proof.
  intros Hg. split; [|split; [|split]].
  - by apply bind_entry_klu_grounded.
  - intros pre post. by apply init_matrix_klu_from_drop.
  - intros call. split; [apply bind_entry_request|].
    destruct (bind_entry descr (matrix, inst) i) as [m1 [inst1|]] eqn:Hb.
    + apply bind_entry_stored in Hb as (Hp & Hnm & _ & _ & Hres & Hreact).
      split; [done|]. intros _. by exists inst1.
    + split; [done|]. intros Hp. exfalso. apply Hp. subst call.
      unfold bind_entry, equation_of, unknown_of in *.
      destruct (SMPmakeElt _ _ _) as [m p]. cbn [snd].
      destruct (Z.eqb_spec p NULL); [done|]. by destruct (negb _).
  - intros m' inst' Hrun Hi Hbound m1 p. unfold init_matrix in Hrun.
    assert (seqZ 0 (num_jacobian_entries descr) =
            seqZ 0 i ++ i :: seqZ (i + 1) (num_jacobian_entries descr - i - 1))
      as Hsplit.
    { replace (num_jacobian_entries descr)
        with (i + (1 + (num_jacobian_entries descr - i - 1))) at 1 by lia.
      rewrite seqZ_app by lia. f_equal.
      rewrite seqZ_cons by lia. f_equal. f_equal; lia. }
    destruct (init_matrix_from_address descr _ (NoDup_seqZ _ _) _ _ _ _ Hrun
                _ _ _ Hsplit Hbound) as [Hp Hstored].
    split; [done|]. split; [done|].
    intros Hreactive Hlater. subst p m1. cbv zeta in Hstored.
    rewrite <- Hstored.
    apply init_matrix_from_ok in Hrun as (_ & _ & _ & _ & _ & _ & Hin);
      [|apply NoDup_seqZ].
    apply (Hin _ _ _ Hsplit Hbound Hreactive).
    intros j Hj%elem_of_seqZ. apply Hlater. lia.
Qed.

(** C10.  When the fatal or the finish flag is set, [handle_init_info]
    returns [E_PANIC] without printing, freeing or storing anything,
    whatever errors the [OsdiInitInfo] carries; and whenever it reports
    (prints, frees the error list or stores the count message), neither flag
    is set and the number of errors is not zero. *)
Theorem handle_init_info_flags_first (info : OsdiInitInfo)
    (descr : OsdiDescriptor) :
  (Z.land (flags info) (Z.lor EVAL_RET_FLAG_FATAL EVAL_RET_FLAG_FINISH) <> 0 ->
   forall n errs,
     handle_init_info
       {| flags := flags info; num_errors := n; errors := errs |} descr =
     (E_PANIC, no_effects)) /\
  (snd (handle_init_info info descr) <> no_effects ->
   Z.land (flags info) (Z.lor EVAL_RET_FLAG_FATAL EVAL_RET_FLAG_FINISH) = 0 /\
   num_errors info <> 0 /\
   handle_init_info info descr =
     (E_PRIVATE,
      {| printed := for_u32 (num_errors info) (report_error descr info) [];
         freed_errors := true;
         set_errMsg := Some (MsgErrorCount (num_errors info)) |})).
Proof.
  split.
  - intros Hflag n errs. unfold handle_init_info.
    assert (fatal_or_finish
              {| flags := flags info; num_errors := n; errors := errs |} = true)
      as -> by by apply fatal_or_finish_true.
    done.
  - unfold handle_init_info.
    destruct (fatal_or_finish info) eqn:Hf; [done|].
    destruct (Z.eqb_spec (num_errors info) 0); [done|]. intros _.
    repeat split; try done.
    unfold fatal_or_finish in Hf. apply negb_false_iff in Hf. lia.
Qed.

(** ** The state vector *)


Lemma reservations_app (a b : list event) :
  reservations (a ++ b) = reservations a ++ reservations b.
Proof. apply omap_app. Qed.

Lemma reservations_instance (inst : string) (evs : list event) :
  reservations (EvSetupInstance inst :: evs) = reservations evs.
Proof. done. Qed.

Lemma reservations_model (model : string) (evs : list event) :
  reservations (EvSetupModel model :: evs) = reservations evs.
Proof. done. Qed.

Lemma reservations_states (evs : list event) (inst : string) (base size : Z) :
  reservations (evs ++ [EvStates inst base size]) =
  reservations evs ++ [(inst, base, size)].
Proof. by rewrite reservations_app. Qed.

Lemma chained_app (n first mid last : Z) (rs1 rs2 : list (string * Z * Z)) :
  chained n first rs1 mid -> chained n mid rs2 last ->
  chained n first (rs1 ++ rs2) last.
Proof.
  revert first. induction rs1 as [|[[s b] sz] rs1 IH]; intros first; simpl.
  - by intros ->.
  - intros (-> & -> & Hc) H2. eauto.
Qed.


Lemma no_reservation (evs : list event) (inst : string) (base size : Z) :
  reservations evs = [] -> EvStates inst base size ∉ evs.
Proof.
  intros Hres Hin.
  assert ((inst, base, size) ∈ reservations evs) as Hr.
  { apply list_elem_of_omap. by exists (EvStates inst base size). }
  rewrite Hres in Hr. by apply not_elem_of_nil in Hr.
Qed.

Lemma write_state_ids_rd (descr : OsdiDescriptor) (inst : Instance)
    (start k : Z) :
  0 <= k < num_states descr ->
  in_bounds (state_idx inst) k = true ->
  rd (state_idx (write_state_ids descr inst start)) k = u32 (start + k).
Proof.
  intros Hk Hb. unfold write_state_ids. simpl.
  destruct (for_u32_pointwise (fun i _ => u32 (start + i)) (num_states descr)
              (fun s i => wr s i (u32 (start + i))) (state_idx inst))
    as [_ Hrd]; [done|].
  rewrite Hrd, Hb. replace ((0 <=? k) && (k <? num_states descr)) with true by lia.
  done.
Qed.

Lemma write_state_ids_length (descr : OsdiDescriptor) (inst : Instance)
    (start : Z) :
  length (state_idx (write_state_ids descr inst start)) = length (state_idx inst).
Proof.
  unfold write_state_ids. simpl.
  by destruct (for_u32_pointwise (fun i _ => u32 (start + i)) (num_states descr)
              (fun s i => wr s i (u32 (start + i))) (state_idx inst)).
Qed.

Lemma make_nodes_frame (descr : OsdiDescriptor) (gname : string) (ix : list Z) :
  forall (st st' : setup_state) (e : status),
  make_nodes descr gname ix st = (e, st') ->
  states st' = states st /\ matrix st' = matrix st /\
  exists evs, events st' = events st ++ evs /\ reservations evs = [].
Proof.
  induction ix as [|i ix IH]; intros st st' e; cbn [make_nodes].
  - intros [= <- <-]. repeat split; try done. exists []. by rewrite app_nil_r.
  - destruct (if is_flow (rd (descr_nodes descr) i)
              then CKTmkCur (ckt st) gname (name (rd (descr_nodes descr) i))
              else CKTmkVolt (ckt st) gname (name (rd (descr_nodes descr) i)))
      as [[error c] number].
    destruct (is_error error).
    + intros [= <- <-]. simpl. repeat split; try done.
      eexists. split; [done|]. by destruct (is_flow _).
    + intros Hrun. apply IH in Hrun as (Hs & Hm & evs & Hev & Hres).
      simpl in *. repeat split; try done.
      eexists. rewrite Hev, <- app_assoc. split; [done|].
      rewrite reservations_app, Hres. by destruct (is_flow _).
Qed.

Lemma init_matrix_from_state_idx (descr : OsdiDescriptor) (ix : list Z) :
  forall (m m' : SMPmatrix) (inst inst' : Instance) (e : status),
  init_matrix_from descr ix m inst = (e, m', inst') ->
  state_idx inst' = state_idx inst /\ node_mapping inst' = node_mapping inst.
Proof.
  induction ix as [|i ix IH]; intros m m' inst inst' e; cbn [init_matrix_from].
  - by intros [= <- <- <-].
  - destruct (bind_entry descr (m, inst) i) as [m1 [inst1|]] eqn:Hb.
    + intros Hrun. apply IH in Hrun as [-> ->].
      by apply bind_entry_stored in Hb as (_ & -> & _ & -> & _).
    + by intros [= <- <- <-].
Qed.

(** What one iteration of the instance loop does to the state vector. *)
Lemma setup_one_instance_states (descr : OsdiDescriptor)
    (sim_params : OsdiSimParas) (model : model_data) (st st' : setup_state)
    (gi gi' : GENinstance) (o : outcome) :
  setup_one_instance descr sim_params model st gi = (gi', st', o) ->
  exists evs,
    events st' = events st ++ evs /\
    chained (states_per_instance descr) (states st) (reservations evs)
      (states st') /\
    forall inst base size, EvStates inst base size ∈ evs ->
      recorded descr gi' inst base.
Proof.
  unfold setup_one_instance.
  destruct (setup_instance _ _ _ _ _ _ _) as [inst1 info].
  destruct (handle_init_info info descr) as [res eff].
  destruct (is_error res) eqn:Hres.
  { intros [= <- <- <-]. simpl. eexists. split; [done|]. split; [done|].
    intros inst base size Hin. apply list_elem_of_singleton in Hin. done. }
  destruct (collapse_nodes _ _ _) as [inst2 n].
  destruct (make_nodes _ _ _ _) as [error st1] eqn:Hmk.
  apply make_nodes_frame in Hmk as (Hs1 & Hm1 & evs1 & Hev1 & Hres1).
  simpl in Hs1, Hm1, Hev1.
  destruct (is_error error).
  { intros [= <- <- <-]. exists (EvSetupInstance (GENname gi) :: evs1).
    split; [by rewrite Hev1, <- app_assoc|]. split.
    - rewrite reservations_instance, Hres1. done.
    - intros inst base size [Hin|Hin]%elem_of_cons; [done|].
      by apply (no_reservation evs1) in Hin. }
  destruct (init_matrix _ _ _) as [[err m] inst3] eqn:Hinit.
  unfold init_matrix in Hinit.
  apply init_matrix_from_state_idx in Hinit as [Hidx _].
  destruct (is_error err).
  { intros [= <- <- <-]. exists (EvSetupInstance (GENname gi) :: evs1).
    simpl. split; [by rewrite Hev1, <- app_assoc|]. split.
    - rewrite reservations_instance, Hres1. done.
    - intros inst base size [Hin|Hin]%elem_of_cons; [done|].
      by apply (no_reservation evs1) in Hin. }
  intros [= <- <- <-].
  exists (EvSetupInstance (GENname gi) :: evs1 ++
          [EvStates (GENname gi) (states st1) (states_per_instance descr)]).
  simpl. split; [|split].
  - rewrite Hev1, <- !app_assoc. done.
  - rewrite reservations_instance, reservations_states, Hres1.
    simpl. rewrite Hs1. done.
  - intros inst base size [Hin|Hin]%elem_of_cons; [done|].
    apply elem_of_app in Hin as [Hin|Hin].
    + by apply (no_reservation evs1) in Hin.
    + apply list_elem_of_singleton in Hin. injection Hin as -> -> ->.
      repeat split; try done. intros k Hk Hb.
      apply (write_state_ids_rd descr inst3 (u32 (states st1)) k Hk).
      unfold in_bounds.
      rewrite <- (write_state_ids_length descr inst3 (u32 (states st1))).
      exact Hb.
Qed.

Lemma setup_instances_states (descr : OsdiDescriptor)
    (sim_params : OsdiSimParas) (model : model_data)
    (insts : list GENinstance) :
  forall (res : status) (st st' : setup_state) (insts' : list GENinstance)
         (o : outcome),
  setup_instances descr sim_params model insts res st = (insts', st', o) ->
  exists evs,
    events st' = events st ++ evs /\
    chained (states_per_instance descr) (states st) (reservations evs)
      (states st') /\
    forall inst base size, EvStates inst base size ∈ evs ->
      exists gi, gi ∈ insts' /\ recorded descr gi inst base.
Proof.
  induction insts as [|gi insts IH]; intros res st st' insts' o;
    cbn [setup_instances].
  - intros [= <- <- <-]. exists []. rewrite app_nil_r. repeat split; try done.
    intros inst base size Hin. by apply not_elem_of_nil in Hin.
  - destruct (setup_one_instance descr sim_params model st gi)
      as [[gi1 st1] o1] eqn:H1.
    apply setup_one_instance_states in H1 as (evs1 & Hev1 & Hch1 & Hrec1).
    destruct o1 as [res1|err].
    + destruct (setup_instances descr sim_params model insts res1 st1)
        as [[insts2 st2] o2] eqn:H2.
      apply IH in H2 as (evs2 & Hev2 & Hch2 & Hrec2).
      intros [= <- <- <-]. exists (evs1 ++ evs2).
      split; [by rewrite Hev2, Hev1, <- app_assoc|]. split.
      * rewrite reservations_app. by eapply chained_app.
      * intros inst base size [Hin|Hin]%elem_of_app.
        -- exists gi1. split; [apply list_elem_of_here|by eapply Hrec1].
        -- destruct (Hrec2 _ _ _ Hin) as (gi2 & Hgi2 & Hr).
           exists gi2. split; [by apply list_elem_of_further|done].
    + intros [= <- <- <-]. exists evs1. repeat split; try done.
      intros inst base size Hin. exists gi1.
      split; [apply list_elem_of_here|by eapply Hrec1].
Qed.

Lemma setup_one_model_states (descr : OsdiDescriptor)
    (sim_params : OsdiSimParas) (st st' : setup_state) (gm gm' : GENmodel)
    (o : outcome) :
  setup_one_model descr sim_params st gm = (gm', st', o) ->
  exists evs,
    events st' = events st ++ EvSetupModel (GENmodName gm) :: evs /\
    chained (states_per_instance descr) (states st) (reservations evs)
      (states st') /\
    all_recorded descr [gm'] evs.
Proof.
  unfold setup_one_model.
  destruct (setup_model _ _ _ _) as [md info].
  destruct (handle_init_info info descr) as [res eff].
  destruct (is_error res).
  - intros [= <- <- <-]. exists []. simpl. repeat split; try done.
    intros inst base size Hin. by apply not_elem_of_nil in Hin.
  - destruct (setup_instances _ _ _ _ _ _) as [[insts st1] o1] eqn:Hi.
    apply setup_instances_states in Hi as (evs & Hev & Hch & Hrec).
    intros [= <- <- <-]. exists evs. simpl in *.
    split; [by rewrite Hev, <- app_assoc|]. split; [done|].
    intros inst base size Hin.
    destruct (Hrec _ _ _ Hin) as (gi & Hgi & Hr).
    eexists _, gi. split; [apply list_elem_of_here|]. by split.
Qed.

Lemma setup_models_states (descr : OsdiDescriptor)
    (sim_params : OsdiSimParas) (models : list GENmodel) :
  forall (res : status) (st st' : setup_state) (models' : list GENmodel)
         (o : outcome),
  setup_models descr sim_params models res st = (models', st', o) ->
  exists evs,
    events st' = events st ++ evs /\
    chained (states_per_instance descr) (states st) (reservations evs)
      (states st') /\
    all_recorded descr models' evs.
Proof.
  induction models as [|gm models IH]; intros res st st' models' o;
    cbn [setup_models].
  - intros [= <- <- <-]. exists []. rewrite app_nil_r. repeat split; try done.
    intros inst base size Hin. by apply not_elem_of_nil in Hin.
  - destruct (setup_one_model descr sim_params st gm)
      as [[gm1 st1] o1] eqn:H1.
    apply setup_one_model_states in H1 as (evs1 & Hev1 & Hch1 & Hrec1).
    assert (forall rest, all_recorded descr (gm1 :: rest)
                           (EvSetupModel (GENmodName gm) :: evs1)) as Hhead.
    { intros rest inst base size [Hin|Hin]%elem_of_cons; [done|].
      destruct (Hrec1 _ _ _ Hin) as (gm0 & gi & Hgm & Hgi & Hr).
      apply list_elem_of_singleton in Hgm as ->.
      exists gm1, gi. split; [apply list_elem_of_here|done]. }
    destruct o1 as [res1|err].
    + destruct (setup_models descr sim_params models res1 st1)
        as [[models2 st2] o2] eqn:H2.
      apply IH in H2 as (evs2 & Hev2 & Hch2 & Hrec2).
      intros [= <- <- <-].
      exists ((EvSetupModel (GENmodName gm) :: evs1) ++ evs2).
      split; [by rewrite Hev2, Hev1, <- app_assoc|]. split.
      * rewrite reservations_app, reservations_model. by eapply chained_app.
      * intros inst base size [Hin|Hin]%elem_of_app; [by eapply Hhead|].
        destruct (Hrec2 _ _ _ Hin) as (gm0 & gi & Hgm & Hgi & Hr).
        exists gm0, gi. split; [by apply list_elem_of_further|done].
    + intros [= <- <- <-]. exists (EvSetupModel (GENmodName gm) :: evs1).
      split; [done|]. split; [by rewrite reservations_model|]. apply Hhead.
Qed.


(** ** The status returned by [OSDIsetup] *)

Lemma setup_models_app (descr : OsdiDescriptor) (sim_params : OsdiSimParas)
    (models1 models2 : list GENmodel) :
  forall (res : status) (st : setup_state),
  setup_models descr sim_params (models1 ++ models2) res st =
  match setup_models descr sim_params models1 res st with
  | (models1', st1, Next res1) =>
      let '(models2', st2, o) :=
        setup_models descr sim_params models2 res1 st1 in
      (models1' ++ models2', st2, o)
  | (models1', st1, Return err) => (models1' ++ models2, st1, Return err)
  end.
Proof.
  induction models1 as [|gm models1 IH]; intros res st;
    cbn [app setup_models].
  - by destruct (setup_models descr sim_params models2 res st) as [[? ?] ?].
  - destruct (setup_one_model descr sim_params st gm) as [[gm1 st1] [res1|err]];
      [|done].
    rewrite IH.
    destruct (setup_models descr sim_params models1 res1 st1)
      as [[models1' st1'] [res1'|err]]; [|done].
    by destruct (setup_models descr sim_params models2 res1' st1')
      as [[? ?] ?].
Qed.


(** C1, as amended.  When [setup_model] sets the fatal or the finish flag
    for a model, that model alone is given up: its instances are left as
    they are, [errRtn] names [setup_model], and the loop goes on with the
    next model with [res = E_PANIC].  So [E_PANIC] is what [OSDIsetup]
    returns when no model follows, and when a model follows its
    [setup_model] is called and the value returned is the one the remaining
    models leave. *)
Theorem OSDIsetup_fatal_model_skipped (matrix0 : SMPmatrix)
    (descr : OsdiDescriptor) (m1 : GENmodel) (rest : list GENmodel)
    (ckt0 : CKTcircuit) (states0 : Z) :
  let call :=
    setup_model descr {| kind := 1; handle_name := GENmodName m1 |}
      (model_data_of m1) (get_simparams ckt0) in
  let st1 :=
    with_init_effects
      (log (initial_state matrix0 descr ckt0 states0)
         (EvSetupModel (GENmodName m1)))
      "OSDI setup_model" E_PANIC no_effects in
  fatal_or_finish (snd call) = true ->
  OSDIsetup matrix0 descr (m1 :: rest) ckt0 states0 =
    (let '(rest', st, o) :=
       setup_models descr (get_simparams ckt0) rest E_PANIC st1 in
     (status_of o, with_model m1 (fst call) (GENinstances m1) :: rest', st)) /\
  errRtn st1 = Some "OSDI setup_model" /\
  (rest = [] ->
   fst (fst (OSDIsetup matrix0 descr (m1 :: rest) ckt0 states0)) = E_PANIC) /\
  (forall m2 rest2, rest = m2 :: rest2 ->
   EvSetupModel (GENmodName m2) ∈
     events (snd (OSDIsetup matrix0 descr (m1 :: rest) ckt0 states0))).
Proof.
  intros call st1 Hfatal.
  assert (OSDIsetup matrix0 descr (m1 :: rest) ckt0 states0 =
          (let '(rest', st, o) :=
             setup_models descr (get_simparams ckt0) rest E_PANIC st1 in
           (status_of o, with_model m1 (fst call) (GENinstances m1) :: rest',
            st))) as Heq.
  { unfold OSDIsetup. cbn [setup_models]. unfold setup_one_model.
    fold call. destruct call as [md info] eqn:Hcall. simpl in Hfatal.
    unfold handle_init_info. rewrite Hfatal. cbn [is_error].
    by destruct (setup_models _ _ rest _ _) as [[? ?] ?]. }
  split; [done|]. split; [done|]. split.
  - intros ->. by rewrite Heq.
  - intros m2 rest2 ->. rewrite Heq. cbn [setup_models].
    destruct (setup_one_model descr (get_simparams ckt0) st1 m2)
      as [[m2' st2] o2] eqn:H2.
    apply setup_one_model_states in H2 as (evs2 & Hev2 & _).
    destruct o2 as [res2|err].
    + destruct (setup_models descr (get_simparams ckt0) rest2 res2 st2)
        as [[rest2' st3] o3] eqn:H3.
      apply setup_models_states in H3 as (evs3 & Hev3 & _).
      simpl. rewrite Hev3, Hev2. rewrite !elem_of_app, elem_of_cons. tauto.
    + simpl. rewrite Hev2. rewrite !elem_of_app, elem_of_cons. tauto.
Qed.

(** ** Topology binder *)

Lemma is_error_false (s : status) : is_error s = false <-> s = OK.
Proof. by destruct s. Qed.

Lemma copy_terminals_rd (n : Z) (terms buf : list Z) (k : Z) :
  rd (copy_terminals n terms buf) k =
  if (0 <=? k) && (k <? n) && in_bounds buf k then u32 (rd terms k)
  else rd buf k.
Proof.
  unfold copy_terminals.
  by destruct (for_u32_pointwise (fun k _ => u32 (rd terms k)) n
                 (fun b k => wr b k (u32 (rd terms k))) buf) as [_ ->].
Qed.

Lemma copy_terminals_length (n : Z) (terms buf : list Z) :
  length (copy_terminals n terms buf) = length buf.
Proof.
  unfold copy_terminals.
  by destruct (for_u32_pointwise (fun k _ => u32 (rd terms k)) n
                 (fun b k => wr b k (u32 (rd terms k))) buf) as [-> _].
Qed.

Lemma write_node_mapping_rd (descr : OsdiDescriptor) (inst : Instance)
    (nodes_ : list Z) (i : Z) :
  rd (node_mapping (write_node_mapping descr inst nodes_)) i =
  if (0 <=? i) && (i <? num_nodes descr) && in_bounds (node_mapping inst) i
  then if rd (node_mapping inst) i =? UINT32_MAX then 0
       else rd nodes_ (rd (node_mapping inst) i)
  else rd (node_mapping inst) i.
Proof.
  unfold write_node_mapping. cbn [node_mapping set_node_mapping].
  destruct (for_u32_pointwise
              (fun _ x => if x =? UINT32_MAX then 0 else rd nodes_ x)
              (num_nodes descr)
              (fun m i => if rd m i =? UINT32_MAX then wr m i 0
                          else wr m i (rd nodes_ (rd m i)))
              (node_mapping inst)) as [_ ->]; [|done].
  intros m j. by destruct (rd m j =? UINT32_MAX).
Qed.

Lemma make_nodes_ok (descr : OsdiDescriptor) (gname : string) (ix : list Z) :
  NoDup ix ->
  forall (st st' : setup_state),
  make_nodes descr gname ix st = (OK, st') ->
  length (node_ids st') = length (node_ids st) /\
  (forall k, k ∉ ix -> rd (node_ids st') k = rd (node_ids st) k) /\
  ckt st' = circuit_after descr gname ix (ckt st) /\
  (forall pre i post, ix = pre ++ i :: post ->
     in_bounds (node_ids st) i = true ->
     let call :=
       allocate descr gname i (circuit_after descr gname pre (ckt st)) in
     fst (fst call) = OK /\ rd (node_ids st') i = u32 (snd call)) /\
  events st' = events st ++ map (allocation_event descr gname) ix.
Proof.
  induction 1 as [|i ix Hnotin Hnd IH]; intros st st'; cbn [make_nodes].
  - intros [= <-]. rewrite app_nil_r.
    split; [done|]. split; [done|]. split; [done|]. split; [|done].
    intros pre i post Heq. by destruct pre.
  - fold (allocate descr gname i (ckt st)).
    fold (allocation_event descr gname i).
    destruct (allocate descr gname i (ckt st)) as [[e0 c] number] eqn:Hcall.
    destruct (is_error e0) eqn:Herr.
    { intros [= He0 _]. by rewrite He0 in Herr. }
    apply is_error_false in Herr as ->.
    intros Hrun. apply IH in Hrun as (Hlen & Hout & Hckt & Hin & Hev).
    simpl in Hlen, Hout, Hckt, Hin, Hev. rewrite length_wr in Hlen.
    split; [done|]. split; [|split; [|split]].
    + intros k [Hk Hk']%not_elem_of_cons. rewrite Hout by done.
      by apply rd_wr_ne.
    + unfold circuit_after in *. cbn [foldl]. by rewrite Hcall.
    + intros pre j post Heq Hb.
      destruct pre as [|i' pre']; simpl in Heq; injection Heq as -> ->.
      * unfold circuit_after. cbn [foldl]. rewrite Hcall. cbn [fst snd].
        split; [done|]. rewrite Hout by done. by rewrite rd_wr_eq.
      * unfold circuit_after in *. cbn [foldl]. rewrite Hcall. cbn [fst snd].
        apply (Hin pre' j post eq_refl). by rewrite in_bounds_wr.
    + rewrite Hev. simpl. by rewrite <- app_assoc.
Qed.

(** X21.  Once the terminals are copied and the internal nodes created
    without error, the circuit is the one that the allocator calls for the
    surviving internal nodes leave, in order, and [write_node_mapping]
    rewrites the collapsed mapping as follows: an entry that held the ground
    sentinel becomes 0; an entry that held a compacted index below the
    number of connected terminals becomes the number of that terminal as the
    caller supplied it; an entry that held a compacted index from there up
    to the number of surviving nodes becomes the number that the allocator
    returned when this pass called it for that node.  Hence, when every
    entry of the collapsed mapping is the sentinel or an index below the
    number of surviving nodes, every entry afterwards is 0, a terminal
    number of the caller or a number the allocator returned in this pass. *)
Theorem write_node_mapping_global (descr : OsdiDescriptor) (gname : string)
    (terms : list Z) (ct n : Z) (st0 st2 : setup_state) (inst : Instance) :
  make_nodes descr gname (seqZ ct (n - ct))
    (with_node_ids st0 (copy_terminals ct terms (node_ids st0))) = (OK, st2) ->
  Z.of_nat (length (node_ids st0)) = num_nodes descr ->
  Z.of_nat (length (node_mapping inst)) = num_nodes descr ->
  0 <= ct <= num_nodes descr -> n <= num_nodes descr ->
  ckt st2 = circuit_after descr gname (seqZ ct (n - ct)) (ckt st0) /\
  (forall i, 0 <= i < num_nodes descr ->
     let e := rd (node_mapping inst) i in
     let g :=
       rd (node_mapping (write_node_mapping descr inst (node_ids st2))) i in
     (e = UINT32_MAX -> g = 0) /\
     (e <> UINT32_MAX -> 0 <= e < ct -> g = u32 (rd terms e)) /\
     (e <> UINT32_MAX -> ct <= e < n ->
      allocated_by_run descr gname (ckt st0) ct e g)) /\
  (compacted (num_nodes descr) (node_mapping inst, n) ->
   forall i, 0 <= i < num_nodes descr ->
     let g :=
       rd (node_mapping (write_node_mapping descr inst (node_ids st2))) i in
     g = 0 \/ (exists k, 0 <= k < ct /\ g = u32 (rd terms k)) \/
     (exists k, ct <= k < n /\
        allocated_by_run descr gname (ckt st0) ct k g)).
Proof.
  intros Hmk Hbuf Hmap Hct Hn.
  apply make_nodes_ok in Hmk as (Hlen & Hout & Hckt & Hin & _);
    [|apply NoDup_seqZ].
  cbn [node_ids ckt with_node_ids] in Hlen, Hout, Hckt, Hin.
  rewrite copy_terminals_length in Hlen.
  assert (forall i, 0 <= i < num_nodes descr ->
            let e := rd (node_mapping inst) i in
            let g :=
              rd (node_mapping
                    (write_node_mapping descr inst (node_ids st2))) i in
            (e = UINT32_MAX -> g = 0) /\
            (e <> UINT32_MAX -> 0 <= e < ct -> g = u32 (rd terms e)) /\
            (e <> UINT32_MAX -> ct <= e < n ->
             allocated_by_run descr gname (ckt st0) ct e g)) as Hentry.
  { intros i Hi e g.
    assert (g = if e =? UINT32_MAX then 0 else rd (node_ids st2) e) as Hg.
    { subst g e. rewrite write_node_mapping_rd.
      assert (in_bounds (node_mapping inst) i = true) as ->
        by (apply in_bounds_iff; lia).
      by replace ((0 <=? i) && (i <? num_nodes descr)) with true by lia. }
    split; [|split].
    - intros He. by rewrite Hg, He.
    - intros Hne He. rewrite Hg.
      destruct (Z.eqb_spec e UINT32_MAX) as [|_]; [done|].
      rewrite Hout by (rewrite elem_of_seqZ; lia).
      rewrite copy_terminals_rd.
      assert (in_bounds (node_ids st0) e = true) as ->
        by (apply in_bounds_iff; lia).
      by replace ((0 <=? e) && (e <? ct)) with true by lia.
    - intros Hne He. rewrite Hg.
      destruct (Z.eqb_spec e UINT32_MAX) as [|_]; [done|].
      apply (Hin (seqZ ct (e - ct)) e (seqZ (e + 1) (n - e - 1))).
      + replace (n - ct) with ((e - ct) + (1 + (n - e - 1))) by lia.
        rewrite seqZ_app by lia. f_equal.
        rewrite seqZ_cons by lia. f_equal; [lia|]. f_equal; lia.
      + unfold in_bounds. rewrite copy_terminals_length.
        apply in_bounds_iff. lia. }
  split; [done|]. split; [done|].
  intros (_ & _ & Hcompact) i Hi g. cbn [fst snd] in Hcompact.
  destruct (Hentry i Hi) as (Hground & Hterm & Hfresh). fold g in Hground,
    Hterm, Hfresh.
  destruct (Z.eq_dec (rd (node_mapping inst) i) UINT32_MAX) as [Heq|Hne];
    [left; by apply Hground|].
  destruct (Hcompact i Hi) as [He|He]; [|done].
  right. destruct (Z.lt_ge_cases (rd (node_mapping inst) i) ct).
  - left. exists (rd (node_mapping inst) i). split; [lia|].
    apply Hterm; [done|lia].
  - right. exists (rd (node_mapping inst) i). split; [lia|].
    apply Hfresh; [done|lia].
Qed.

(** ** Node collapser *)

Lemma populate_nodes_seqZ (n : Z) (m : list Z) :
  Z.of_nat (length m) = n -> Collapse.populate_nodes n m = seqZ 0 n.
Proof.
  intros Hlen. unfold Collapse.populate_nodes.
  destruct (for_u32_pointwise (fun i _ => i) n (fun m i => wr m i i) m)
    as [Hl Hrd]; [done|].
  apply list_eq_rd.
  - rewrite Hl, length_seqZ. lia.
  - rewrite Hl. intros k Hk. rewrite Hrd.
    assert (in_bounds m k = true) as -> by (apply in_bounds_iff; lia).
    replace ((0 <=? k) && (k <? n)) with true by lia. simpl.
    symmetry. replace k with (Z.of_nat (Z.to_nat k)) at 1 by lia.
    apply rd_lookup. rewrite lookup_seqZ. lia.
Qed.

Lemma for_u32_one {S} (body : S -> Z -> S) (s : S) :
  for_u32 1 body s = body s 0.
Proof. exact (for_u32_succ 0 body s (Z.le_refl 0)). Qed.

Lemma write_node_mapping_length (descr : OsdiDescriptor) (inst : Instance)
    (nodes_ : list Z) :
  length (node_mapping (write_node_mapping descr inst nodes_)) =
  length (node_mapping inst).
Proof.
  unfold write_node_mapping. cbn [node_mapping set_node_mapping].
  destruct (for_u32_pointwise
              (fun _ x => if x =? UINT32_MAX then 0 else rd nodes_ x)
              (num_nodes descr)
              (fun m i => if rd m i =? UINT32_MAX then wr m i 0
                          else wr m i (rd nodes_ (rd m i)))
              (node_mapping inst)) as [-> _]; [|done].
  intros m j. by destruct (rd m j =? UINT32_MAX).
Qed.

Lemma write_state_ids_node_mapping (descr : OsdiDescriptor) (inst : Instance)
    (start : Z) :
  node_mapping (write_state_ids descr inst start) = node_mapping inst.
Proof. done. Qed.

Lemma connected_terminals_all (descr : OsdiDescriptor) (terms : list Z) :
  (forall i, 0 <= i < num_terminals descr -> rd terms i <> -1) ->
  connected_terminals descr terms = num_terminals descr.
Proof.
  intros Hall. unfold connected_terminals.
  destruct (list_find _ _) as [[k i]| ] eqn:Hfind; [|done].
  apply list_find_Some in Hfind as (Hk & Hi & _).
  apply lookup_seqZ in Hk as [-> Hk]. exfalso. apply (Hall (0 + Z.of_nat k)); [lia|done].
Qed.

Lemma u32_id (z : Z) : is_u32 z -> u32 z = z.
Proof. unfold is_u32, u32, UINT32_MAX. intros. apply Z.mod_small. lia. Qed.

(** C4.  A device with the nodes drain, gate, source (the three terminals,
    all connected, to three different circuit nodes) and [internal_a], and
    with the one collapsible pair (3, 2), whose hint [setup_instance] has
    executed: [collapse_nodes] returns 3 and maps node 3 to 2, the index
    that node 2 keeps; the global mapping that the driver writes holds the
    three terminal numbers and nothing else, node 3 carrying the number of
    the source; and the driver makes no call to the node allocator. *)
Theorem setup_collapsed_into_source (descr : OsdiDescriptor)
    (sim_params : OsdiSimParas) (model : model_data) (st : setup_state)
    (gi : GENinstance) (t0 t1 t2 : Z) (inst1 : Instance)
    (info : OsdiInitInfo) :
  num_nodes descr = 4 -> num_terminals descr = 3 ->
  num_collapsible descr = 1 ->
  rd (collapsible descr) 0 = {| node_1 := 3; node_2 := 2 |} ->
  terminals gi = [t0; t1; t2] ->
  is_u32 t0 -> is_u32 t1 -> is_u32 t2 -> NoDup [t0; t1; t2] ->
  setup_instance descr {| kind := 2; handle_name := GENname gi |}
    (instance_data gi) model
    (instance_temp (ckt st) (extra_instance_data gi)) 3 sim_params =
    (inst1, info) ->
  fatal_or_finish info = false -> num_errors info = 0 ->
  rd (collapsed inst1) 0 = true ->
  length (node_mapping inst1) = 4%nat -> length (node_ids st) = 4%nat ->
  collapse_nodes descr inst1 3 = (set_node_mapping inst1 [0; 1; 2; 2], 3) /\
  let '(gi', st', o) := setup_one_instance descr sim_params model st gi in
  node_mapping (instance_data gi') = [t0; t1; t2; t2] /\
  (forall x, x ∈ node_mapping (instance_data gi') <-> x ∈ [t0; t1; t2]) /\
  ckt st' = ckt st /\
  forall e, e ∈ events st' ->
    e ∈ events st \/ e = EvSetupInstance (GENname gi) \/
    exists base size, e = EvStates (GENname gi) base size.
Proof.
  intros Hn Hnt Hnc Hpair Hterms Ht0 Ht1 Ht2 Hnd Hsetup Hflag Herrs Hhint
    Hmap Hbuf.
  assert (collapse_nodes descr inst1 3 =
          (set_node_mapping inst1 [0; 1; 2; 2], 3)) as Hcollapse.
  { unfold collapse_nodes. rewrite Hn, Hnc.
    rewrite populate_nodes_seqZ by (rewrite Hmap; done).
    rewrite for_u32_one. unfold Collapse.collapse_pair.
    rewrite Hhint, Hpair. reflexivity. }
  split; [done|].
  assert (connected_terminals descr (terminals gi) = 3) as Hct.
  { rewrite connected_terminals_all; [done|].
    rewrite Hnt, Hterms. unfold is_u32, UINT32_MAX in *. intros i Hi.
    assert (i = 0 \/ i = 1 \/ i = 2) as [-> | [-> | ->]] by lia;
      unfold rd; simpl; lia. }
  unfold setup_one_instance. rewrite Hct, Hsetup.
  unfold handle_init_info. rewrite Hflag, Herrs. cbn [Z.eqb is_error].
  rewrite Hcollapse. replace (3 - 3) with 0 by done.
  rewrite seqZ_nil by done. cbn [make_nodes is_error].
  set (buf := copy_terminals 3 (terminals gi) _).
  set (st1 := with_node_ids _ buf).
  assert (node_mapping
            (write_node_mapping descr (set_node_mapping inst1 [0; 1; 2; 2])
               (node_ids st1)) = [t0; t1; t2; t2]) as Hglobal.
  { apply list_eq_rd.
    - by rewrite write_node_mapping_length.
    - rewrite write_node_mapping_length. cbn [node_mapping set_node_mapping length].
      intros k Hk. rewrite write_node_mapping_rd, Hn.
      cbn [node_mapping set_node_mapping node_ids st1 with_node_ids].
      subst buf. cbn [node_ids with_init_effects log].
      destruct (node_ids st) as [|w [|x [|y [|z [|]]]]]; try done.
      rewrite Hterms.
      assert (k = 0 \/ k = 1 \/ k = 2 \/ k = 3) as [-> | [-> | [-> | ->]]] by lia;
        cbn -[u32 copy_terminals]; rewrite copy_terminals_rd; cbn -[u32];
        by rewrite u32_id. }
  destruct (init_matrix _ _ _) as [[err m] inst3] eqn:Hinit.
  unfold init_matrix in Hinit.
  apply init_matrix_from_state_idx in Hinit as [_ Hnm].
  rewrite Hglobal in Hnm.
  assert (forall x, x ∈ [t0; t1; t2; t2] <-> x ∈ [t0; t1; t2]) as Hsame.
  { intros x. rewrite !elem_of_cons. rewrite !elem_of_nil. tauto. }
  destruct (is_error err); cbn.
  - rewrite Hnm. repeat split; try done; try apply Hsame.
    intros e [He|He]%elem_of_app; [by left|].
    apply list_elem_of_singleton in He. right. by left.
  - rewrite Hnm.
    repeat split; try done; try apply Hsame.
    intros e [[He|He]%elem_of_app|He]%elem_of_app.
    + by left.
    + apply list_elem_of_singleton in He. right. by left.
    + apply list_elem_of_singleton in He. right. right. eauto.
Qed.

Lemma wr_rd_id {A} `{Inhabited A} (a : list A) (i : Z) : wr a i (rd a i) = a.
Proof.
  unfold wr, rd. destruct (in_bounds a i) eqn:Hb; [|done].
  apply in_bounds_iff in Hb.
  destruct (lookup_lt_is_Some_2 a (Z.to_nat i)) as [x Hx]; [lia|].
  rewrite Hx. simpl. by apply list_insert_id.
Qed.

Lemma replace_node_compact (from to : Z) (m : list Z) (j : Z) :
  Collapse.replace_node from to m j = wr m j (compact from to (rd m j)).
Proof.
  unfold Collapse.replace_node, compact.
  destruct (rd m j =? from); [done|].
  destruct ((rd m j >? from) && negb (rd m j =? UINT32_MAX)); [done|].
  by rewrite wr_rd_id.
Qed.

Lemma replace_nodes_rd (n from to : Z) (m : list Z) (k : Z) :
  rd (Collapse.replace_nodes n from to m) k =
  if (0 <=? k) && (k <? n) && in_bounds m k then compact from to (rd m k)
  else rd m k.
Proof.
  unfold Collapse.replace_nodes.
  destruct (for_u32_pointwise (fun _ v => compact from to v) n
              (Collapse.replace_node from to) m) as [_ ->]; [|done].
  apply replace_node_compact.
Qed.

Lemma replace_nodes_length (n from to : Z) (m : list Z) :
  length (Collapse.replace_nodes n from to m) = length m.
Proof.
  unfold Collapse.replace_nodes.
  destruct (for_u32_pointwise (fun _ v => compact from to v) n
              (Collapse.replace_node from to) m) as [-> _]; [|done].
  apply replace_node_compact.
Qed.

(** The renumbering of the entries that do not hold the representative
    removed keeps their order, strictly, and leaves the sentinel alone. *)
Lemma compact_monotone (from to a b : Z) :
  a <> from -> b <> from -> a < b -> b <= UINT32_MAX ->
  compact from to a < compact from to b.
Proof.
  unfold compact, UINT32_MAX. intros Ha Hb Hab Hmax.
  destruct (Z.eqb_spec a from); [done|]. destruct (Z.eqb_spec b from); [done|].
  destruct (Z.gtb_spec a from), (Z.gtb_spec b from),
    (Z.eqb_spec a 4294967295), (Z.eqb_spec b 4294967295); simpl; lia.
Qed.

Lemma compact_sentinel (from to : Z) :
  from <> UINT32_MAX -> compact from to UINT32_MAX = UINT32_MAX.
Proof.
  unfold compact. intros Hne.
  destruct (Z.eqb_spec UINT32_MAX from); [done|].
  by rewrite andb_false_r.
Qed.

(** A collapse that removes a representative other than the sentinel, into
    a smaller index or into ground, keeps every entry below the new count. *)
Lemma compact_bound (from to v count : Z) :
  0 <= from < count -> (0 <= to < from \/ to = UINT32_MAX) ->
  (0 <= v < count \/ v = UINT32_MAX) -> count <= UINT32_MAX ->
  0 <= compact from to v < count - 1 \/ compact from to v = UINT32_MAX.
Proof.
  unfold compact, UINT32_MAX. intros Hf Ht Hv Hc.
  destruct (Z.eqb_spec v from); [lia|].
  destruct (Z.gtb_spec v from), (Z.eqb_spec v 4294967295); simpl; lia.
Qed.

Lemma collapse_pair_executes (n : Z) (pairs : list OsdiNodePair)
    (hints : list bool) (ct : Z) (m : list Z) (c i : Z) :
  Collapse.collapse_pair n pairs hints ct (m, c) i =
  if Collapse.executes pairs hints ct m i
  then let '(from, to) :=
         Collapse.representatives m (node_1 (rd pairs i))
           (node_2 (rd pairs i)) in
       (Collapse.replace_nodes n from to m, u32 (c - 1))
  else (m, c).
Proof.
  unfold Collapse.collapse_pair, Collapse.executes.
  destruct (rd hints i); simpl; [|done].
  by destruct (Collapse.protected _ _ _ _).
Qed.

Lemma representatives_proper (n c : Z) (m : list Z) (from to f t : Z) :
  compacted n (m, c) -> n <= UINT32_MAX ->
  0 <= from < n -> (0 <= to < n \/ to = UINT32_MAX) ->
  Collapse.representatives m from to = (f, t) ->
  f <> UINT32_MAX -> f <> t ->
  0 <= f < c /\ (0 <= t < f \/ t = UINT32_MAX).
Proof.
  intros (Hlen & Hc & Hent) Hn Hfrom Hto. simpl in Hlen, Hc, Hent.
  unfold Collapse.representatives, Collapse.orient.
  pose proof (Hent from Hfrom) as Hef.
  destruct (Z.eqb_spec to UINT32_MAX) as [->|Hne]; simpl.
  - intros [= <- <-] Hf _. lia.
  - destruct Hto as [Hto|Hto]; [|done]. pose proof (Hent to Hto) as Het.
    destruct (Z.ltb_spec (rd m from) (rd m to)).
    + destruct (Z.eqb_spec from UINT32_MAX) as [Heq|_]; [lia|]. simpl.
      intros [= <- <-] Hf Hft. lia.
    + destruct (Z.eqb_spec to UINT32_MAX) as [Heq|_]; [lia|]. simpl.
      intros [= <- <-] Hf Hft. unfold UINT32_MAX in *. lia.
Qed.

Lemma collapse_pair_proper (n : Z) (pairs : list OsdiNodePair)
    (hints : list bool) (ct : Z) (s : list Z * Z) (i : Z) :
  compacted n s -> n <= UINT32_MAX ->
  0 <= node_1 (rd pairs i) < n ->
  (0 <= node_2 (rd pairs i) < n \/ node_2 (rd pairs i) = UINT32_MAX) ->
  negb (Collapse.executes pairs hints ct (fst s) i)
  || proper_collapse pairs (fst s) i = true ->
  compacted n (Collapse.collapse_pair n pairs hints ct s i) /\
  snd (Collapse.collapse_pair n pairs hints ct s i) =
    snd s - (if Collapse.executes pairs hints ct (fst s) i then 1 else 0).
Proof.
  destruct s as [m c]. intros Hinv Hn H1 H2 Hproper.
  rewrite collapse_pair_executes. cbn [fst snd] in *.
  destruct (Collapse.executes pairs hints ct m i); simpl in Hproper;
    [|split; [done|simpl; lia]].
  unfold proper_collapse in Hproper.
  destruct (Collapse.representatives _ _ _) as [f t] eqn:Hrep.
  apply andb_true_iff in Hproper as [Hf Hft].
  apply negb_true_iff in Hf, Hft.
  destruct (representatives_proper n c m _ _ f t Hinv Hn H1 H2 Hrep)
    as [Hfc Ht]; [lia..|].
  destruct Hinv as (Hlen & Hc & Hent). cbn [fst snd] in *.
  assert (u32 (c - 1) = c - 1) as ->.
  { apply u32_id. unfold is_u32. lia. }
  split; [|done]. split; [|split]; cbn [fst snd].
  - by rewrite replace_nodes_length.
  - lia.
  - intros k Hk. rewrite replace_nodes_rd.
    assert (in_bounds m k = true) as -> by (apply in_bounds_iff; lia).
    replace ((0 <=? k) && (k <? n)) with true by lia. simpl.
    apply compact_bound; [done|done|by apply Hent|lia].
Qed.

Lemma collapse_run_proper (n : Z) (pairs : list OsdiNodePair)
    (hints : list bool) (ct : Z) (ix : list Z) :
  n <= UINT32_MAX ->
  (forall i, i ∈ ix ->
     0 <= node_1 (rd pairs i) < n /\
     (0 <= node_2 (rd pairs i) < n \/ node_2 (rd pairs i) = UINT32_MAX)) ->
  forall s, compacted n s ->
  proper_run n pairs hints ct ix s = true ->
  compacted n (foldl (Collapse.collapse_pair n pairs hints ct) s ix) /\
  snd (foldl (Collapse.collapse_pair n pairs hints ct) s ix) =
    snd s - executed_collapses n pairs hints ct ix s.
Proof.
  intros Hn. induction ix as [|i ix IH]; intros Hwf s Hinv;
    cbn [proper_run executed_collapses foldl].
  - intros _. split; [done|lia].
  - intros [Hhere Hrest]%andb_true_iff.
    destruct (Hwf i (list_elem_of_here _ _)) as [H1 H2].
    destruct (collapse_pair_proper n pairs hints ct s i Hinv Hn H1 H2 Hhere)
      as [Hinv' Hcount].
    destruct (IH (fun j Hj => Hwf j (list_elem_of_further _ _ _ Hj)) _ Hinv' Hrest)
      as [Hfinal Hc].
    split; [done|]. rewrite Hc, Hcount. lia.
Qed.

(** What [collapse_nodes] achieves when every collapse it executes is
    proper: every entry of the mapping is the sentinel or an index below
    the count returned, which is the number of nodes less the number of
    collapses executed. *)
Lemma collapse_nodes_proper (descr : OsdiDescriptor) (inst : Instance)
    (ct : Z) :
  let n := num_nodes descr in
  let run :=
    proper_run n (collapsible descr) (collapsed inst) ct
      (seqZ 0 (num_collapsible descr)) (seqZ 0 n, n) in
  let executed :=
    executed_collapses n (collapsible descr) (collapsed inst) ct
      (seqZ 0 (num_collapsible descr)) (seqZ 0 n, n) in
  Z.of_nat (length (node_mapping inst)) = n -> n <= UINT32_MAX ->
  wf_pairs n (collapsible descr) (num_collapsible descr) ->
  run = true ->
  snd (collapse_nodes descr inst ct) = n - executed /\
  compacted n (node_mapping (fst (collapse_nodes descr inst ct)),
               snd (collapse_nodes descr inst ct)).
Proof.
  intros n run executed Hlen Hn Hwf Hrun. unfold collapse_nodes.
  rewrite populate_nodes_seqZ by done. fold n. unfold for_u32.
  destruct (collapse_run_proper n (collapsible descr) (collapsed inst) ct
              (seqZ 0 (num_collapsible descr)) Hn) with (s := (seqZ 0 n, n))
    as [Hinv Hcount]; [| |done|].
  - intros i Hi%elem_of_seqZ. apply Hwf. lia.
  - split; [|split]; cbn [fst snd].
    + rewrite length_seqZ. lia.
    + lia.
    + intros k Hk. left.
      replace k with (Z.of_nat (Z.to_nat k)) at 1 2 by lia.
      rewrite (rd_lookup (seqZ 0 n) (Z.to_nat k) (0 + Z.of_nat (Z.to_nat k)));
        [lia|]. apply lookup_seqZ. lia.
  - destruct (foldl _ _ _) as [m c]. cbn [fst snd] in *. done.
Qed.

End Properties.

(** * Concrete runs *)

Section Runs.

Import Bench.

(** C3: the code on a descriptor whose three internal nodes are pairwise
    collapsible, all three hints executed.  The third collapse finds both
    nodes already mapped to index 1 and still takes one off the count:
    [collapse_nodes] returns 1 although two nodes are required, the entries
    of the internal nodes hold 1, which is neither the sentinel nor below
    the count, and the driver, creating no node, binds them to the stale
    entry [node_ids[1]] (here 0, the ground node). *)
Theorem collapse_nodes_redundant_pair :
  let hints := [true; true; true] in
  let m0 := Collapse.populate_nodes 4 (node_mapping (blob triangle hints)) in
  let s1 := Collapse.collapse_pair 4 (collapsible triangle) hints 1 (m0, 4) 0 in
  let s2 := Collapse.collapse_pair 4 (collapsible triangle) hints 1 s1 1 in
  let s3 := Collapse.collapse_pair 4 (collapsible triangle) hints 1 s2 2 in
  let r := @collapse_nodes sim triangle (blob triangle hints) 1 in
  let run :=
    @OSDIsetup sim [] triangle
      [model "M" success [device triangle "X" [5] hints]] 10 0 in
  s1 = ([0; 1; 1; 2], 3) /\ s2 = ([0; 1; 1; 1], 2) /\
  Collapse.executes (collapsible triangle) hints 1 (fst s2) 2 = true /\
  Collapse.representatives (fst s2) 3 2 = (1, 1) /\
  s3 = ([0; 1; 1; 1], 1) /\
  node_mapping (fst r) = [0; 1; 1; 1] /\ snd r = 1 /\
  ~ (rd (node_mapping (fst r)) 1 = UINT32_MAX \/
     rd (node_mapping (fst r)) 1 < snd r) /\
  events (snd run) =
    [EvSetupModel "M"; EvSetupInstance "X"; EvStates "X" 0 0] /\
  map (fun gi => node_mapping (instance_data gi))
    (concat (map GENinstances (snd (fst run)))) = [[5; 0; 0; 0]].
Proof.
  vm_compute. repeat split; try reflexivity. intros [Heq | Hlt]; discriminate.
Qed.

(** C6: the code on two devices of [triangle] in one model, no collapse
    executed for the first and all three for the second.  For the second
    device [collapse_nodes] leaves the entries of the three internal nodes
    at the index 1 and returns the count 1 (the redundant third collapse of
    C3), so that the driver creates no node for it, and
    [write_node_mapping] reads [node_ids[1]], which still holds 11, the
    number that the allocator returned for the node [a] of the first
    device.  The internal nodes of the second device are bound to a node of
    the first: their entries held neither the sentinel nor the index of a
    terminal, and they become neither 0, nor the terminal number of the
    caller, nor a number allocated for this device, for which the allocator
    was never called. *)
Theorem write_node_mapping_stale_entry :
  let run := @OSDIsetup sim [] triangle [M4] 10 0 in
  let second :=
    @collapse_nodes sim triangle (blob triangle [true; true; true]) 1 in
  fst (fst run) = OK /\
  @connected_terminals sim triangle [6] = 1 /\
  node_mapping (fst second) = [0; 1; 1; 1] /\ snd second = 1 /\
  map (fun gi => (GENname gi, node_mapping (instance_data gi)))
    (concat (map GENinstances (snd (fst run)))) =
    [("X1", [5; 11; 12; 13]); ("X2", [6; 11; 11; 11])] /\
  events (snd run) =
    [EvSetupModel "M4"; EvSetupInstance "X1"; EvMkVolt "X1" "a";
     EvMkVolt "X1" "b"; EvMkVolt "X1" "c"; EvStates "X1" 0 0;
     EvSetupInstance "X2"; EvStates "X2" 0 0] /\
  (forall node_, (EvMkVolt "X2" node_ ∉ events (snd run)) /\
                 (EvMkCur "X2" node_ ∉ events (snd run))) /\
  @allocated_by_run sim triangle "X1" 10 1 1 11 /\
  @ckt sim (snd run) = 13.
Proof.
  intros run second.
  assert (events (snd run) =
            [EvSetupModel "M4"; EvSetupInstance "X1"; EvMkVolt "X1" "a";
             EvMkVolt "X1" "b"; EvMkVolt "X1" "c"; EvStates "X1" 0 0;
             EvSetupInstance "X2"; EvStates "X2" 0 0]) as Hev
    by (vm_compute; reflexivity).
  split; [vm_compute; reflexivity|].
  split; [vm_compute; reflexivity|].
  split; [vm_compute; reflexivity|].
  split; [vm_compute; reflexivity|].
  split; [vm_compute; reflexivity|].
  split; [exact Hev|].
  split.
  - intros node_. rewrite Hev.
    split; intros Hin;
      repeat (apply elem_of_cons in Hin as [Hin|Hin]; [discriminate Hin|]);
      by apply not_elem_of_nil in Hin.
  - split; vm_compute; [split; reflexivity|reflexivity].
Qed.

(** C7: the code on a descriptor with the pairs (1, ground) and (2, 1), both
    hints executed.  The first collapse maps node 1 to the sentinel; the
    second, oriented by the unmapped target only, removes the sentinel as
    its representative and rewrites the entry of node 1 from the sentinel to
    index 1.  And on a descriptor with three pairwise collapsible nodes and
    a fourth that no pair names, all hints executed: the third collapse
    removes nothing and renumbers all the same, so that node 1 and node 4,
    which held the different indices 1 and 2, both hold 1 afterwards. *)
Theorem collapse_nodes_ungrounds :
  let hints := [true; true] in
  let m0 := Collapse.populate_nodes 3 (node_mapping (blob grounded hints)) in
  let s1 := Collapse.collapse_pair 3 (collapsible grounded) hints 1 (m0, 3) 0 in
  let s2 := Collapse.collapse_pair 3 (collapsible grounded) hints 1 s1 1 in
  let hints3 := [true; true; true] in
  let pairs := collapsible triangle_and_one in
  let n0 :=
    Collapse.populate_nodes 5 (node_mapping (blob triangle_and_one hints3)) in
  let t1 := Collapse.collapse_pair 5 pairs hints3 1 (n0, 5) 0 in
  let t2 := Collapse.collapse_pair 5 pairs hints3 1 t1 1 in
  let t3 := Collapse.collapse_pair 5 pairs hints3 1 t2 2 in
  s1 = ([0; UINT32_MAX; 1], 2) /\
  Collapse.executes (collapsible grounded) hints 1 (fst s1) 1 = true /\
  Collapse.representatives (fst s1) 2 1 = (UINT32_MAX, 1) /\
  s2 = ([0; 1; 1], 1) /\
  rd (fst s1) 1 = UINT32_MAX /\ rd (fst s2) 1 <> UINT32_MAX /\
  @collapse_nodes sim grounded (blob grounded hints) 1 =
    (set_node_mapping (blob grounded hints) [0; 1; 1], 1) /\
  t2 = ([0; 1; 1; 1; 2], 3) /\
  Collapse.executes pairs hints3 1 (fst t2) 2 = true /\
  Collapse.representatives (fst t2) 3 2 = (1, 1) /\
  t3 = ([0; 1; 1; 1; 1], 2) /\
  rd (fst t2) 1 < rd (fst t2) 4 /\ ~ (rd (fst t3) 1 < rd (fst t3) 4).
Proof.
  vm_compute. repeat split; try reflexivity; intros; discriminate.
Qed.

(** On the device of the scenario every collapse executed is proper, and
    the count and the entries are as [collapse_nodes_proper] says. *)
Example collapse_nodes_proper_mos :
  let r := @collapse_nodes sim mos (blob mos [true]) 3 in
  snd r = 3 /\ compacted 4 (node_mapping (fst r), snd r).
Proof.
  apply (@collapse_nodes_proper sim mos (blob mos [true]) 3).
  - vm_compute. reflexivity.
  - vm_compute. discriminate.
  - intros i Hi. change (@num_collapsible sim mos) with 1 in Hi.
    assert (i = 0) as -> by lia. vm_compute.
    split; [split; [discriminate|reflexivity]|].
    left. split; [discriminate|reflexivity].
  - vm_compute. reflexivity.
Qed.

(** C1, counterexample: [setup_model] sets the fatal flag for M1 in the list
    [M1; M2], and [OSDIsetup] neither returns [E_PANIC] nor leaves M2 alone:
    it returns [OK] after calling [setup_model] for M2 and binding the
    instance X2. *)
Lemma OSDIsetup_fatal_model_goes_on :
  let run := @OSDIsetup sim [] mos [M1; M2] 10 0 in
  @fatal_or_finish sim (@model_data_of sim M1) = true /\
  fst (fst run) = OK /\
  events (snd run) =
    [EvSetupModel "M1"; EvSetupModel "M2"; EvSetupInstance "X2";
     EvStates "X2" 0 5] /\
  ~ (fst (fst run) = E_PANIC /\ EvSetupModel "M2" ∉ events (snd run)).
Proof.
  vm_compute. repeat split; try reflexivity. intros [Hstatus _]. discriminate.
Qed.

Lemma OSDIsetup_fatal_model_skipped_witness :
  @fatal_or_finish sim (@model_data_of sim M1) = true /\
  EvSetupModel "M2" ∈ events (snd (@OSDIsetup sim [] mos [M1; M2] 10 0)).
Proof.
  assert (@fatal_or_finish sim (@model_data_of sim M1) = true) as Hfatal
    by (vm_compute; reflexivity).
  split; [exact Hfatal|].
  destruct (@OSDIsetup_fatal_model_skipped sim [] mos M1 [M2] 10 0 Hfatal)
    as (_ & _ & _ & Hnext).
  exact (Hnext M2 [] eq_refl).
Defined.

(** C2, counterexample: the source of the [mos] instance is on the ground
    node, so that the Jacobian entry 1 resolves to the pair (0, 0), and
    [init_matrix] requests that pair from the matrix and stores the address
    it gets in the resistive table and, plus one, at the reactive offset. *)
Lemma init_matrix_requests_grounded_entry :
  let run := @init_matrix sim [] mos tied in
  @grounded_entry sim mos tied 1 = true /\
  snd (fst run) = [(5, 5); (0, 0); (0, 0); (0, 0)] /\
  jacobian_ptr_resist (snd run) = [1650; 1000; 1000; 1000] /\
  jacobian_ptr_react (snd run) !! 64 = Some 1001 /\
  ~ (((0, 0) ∉ snd (fst run)) /\
     rd (jacobian_ptr_resist (snd run)) 1 = rd (jacobian_ptr_resist tied) 1).
Proof.
  vm_compute. repeat split; try reflexivity. intros [_ Hsame]. discriminate.
Qed.

Lemma grounded_entry_binding_witness :
  let run := @init_matrix sim [] mos tied in
  @grounded_entry sim mos tied 1 = true /\
  @bind_entry_klu sim mos [] (tied, replicate 8 0) 1 =
    inl (tied, replicate 8 0) /\
  fst (@bind_entry sim mos ([], tied) 1) = [(0, 0)] /\
  rd (jacobian_ptr_resist (snd run)) 1 = 1000 /\
  jacobian_ptr_react (snd run) !! 64 = Some 1001.
Proof.
  intros run.
  assert (@grounded_entry sim mos tied 1 = true) as Hg
    by (vm_compute; reflexivity).
  split; [exact Hg|].
  destruct (@grounded_entry_binding sim mos [] [] tied (replicate 8 0) 1 Hg)
    as (Hklu & _ & (Hplain & _) & Hpass).
  split; [exact Hklu|].
  split; [etransitivity; [exact Hplain|]; vm_compute; reflexivity|].
  assert (@init_matrix sim [] mos tied = (OK, snd (fst run), snd run))
    as Hrun by (vm_compute; reflexivity).
  assert (0 <= 1 < @num_jacobian_entries sim mos) as Hi
    by (vm_compute; split; [discriminate|reflexivity]).
  assert (in_bounds (jacobian_ptr_resist tied) 1 = true) as Hb
    by (vm_compute; reflexivity).
  destruct (Hpass (snd (fst run)) (snd run) Hrun Hi Hb)
    as (_ & Hstored & Hreact).
  split.
  - etransitivity; [exact Hstored|]. vm_compute. reflexivity.
  - etransitivity; [apply Hreact|].
    + vm_compute. discriminate.
    + intros j Hj. change (@num_jacobian_entries sim mos) with 4 in Hj.
      assert (j = 2 \/ j = 3) as [-> | ->] by lia; vm_compute; discriminate.
    + vm_compute. reflexivity.
Defined.

Lemma setup_collapsed_into_source_witness :
  let gi := device mos "X1" [5; 6; 7] [true] in
  let st := @initial_state sim [] mos 10 0 in
  @collapse_nodes sim mos (blob mos [true]) 3 =
    (set_node_mapping (blob mos [true]) [0; 1; 2; 2], 3) /\
  let '(gi', st', o) := @setup_one_instance sim mos tt success st gi in
  node_mapping (instance_data gi') = [5; 6; 7; 7] /\
  (forall x, x ∈ node_mapping (instance_data gi') <-> x ∈ [5; 6; 7]) /\
  @ckt sim st' = @ckt sim st /\
  forall e, e ∈ @events sim st' ->
    e ∈ @events sim st \/ e = EvSetupInstance "X1" \/
    exists base size, e = EvStates "X1" base size.
Proof.
  intros gi st.
  apply (@setup_collapsed_into_source sim mos tt success st gi 5 6 7
           (blob mos [true]) success);
    try (vm_compute; reflexivity);
    try (vm_compute; split; discriminate).
  refine (bool_decide_unpack (NoDup [5; 6; 7]) _). vm_compute. exact I.
Defined.


Lemma write_node_mapping_global_witness :
  let st0 := @initial_state sim [] triangle 10 0 in
  let run :=
    @make_nodes sim triangle "X1" (seqZ 1 (4 - 1))
      (with_node_ids st0 (copy_terminals 1 [5] (node_ids st0))) in
  let inst :=
    fst (@collapse_nodes sim triangle (blob triangle [false; false; false]) 1)
  in
  fst run = OK /\
  @ckt sim (snd run) = 13 /\
  node_mapping (@write_node_mapping sim triangle inst (node_ids (snd run))) =
    [5; 11; 12; 13] /\
  @allocated_by_run sim triangle "X1" 10 1 3 13.
Proof.
  intros st0 run inst.
  split; [vm_compute; reflexivity|].
  assert (@make_nodes sim triangle "X1" (seqZ 1 (4 - 1))
            (with_node_ids st0 (copy_terminals 1 [5] (node_ids st0))) =
          (OK, snd run)) as Hrun by (vm_compute; reflexivity).
  assert (Z.of_nat (length (node_ids st0)) = @num_nodes sim triangle) as Hbuf
    by (vm_compute; reflexivity).
  assert (Z.of_nat (length (node_mapping inst)) = @num_nodes sim triangle)
    as Hmap by (vm_compute; reflexivity).
  assert (0 <= 1 <= @num_nodes sim triangle) as Hct
    by (vm_compute; split; discriminate).
  assert (4 <= @num_nodes sim triangle) as Hn by (vm_compute; discriminate).
  destruct (@write_node_mapping_global sim triangle "X1" [5] 1 4 st0
              (snd run) inst Hrun Hbuf Hmap Hct Hn)
    as (Hckt & Hentry & _).
  split; [etransitivity; [exact Hckt|]; vm_compute; reflexivity|].
  split; [vm_compute; reflexivity|].
  assert (0 <= 3 < @num_nodes sim triangle) as Hi
    by (vm_compute; split; [discriminate|reflexivity]).
  assert (rd (node_mapping inst) 3 <> UINT32_MAX) as Hne
    by (vm_compute; discriminate).
  assert (1 <= rd (node_mapping inst) 3 < 4) as He
    by (vm_compute; split; [discriminate|reflexivity]).
  assert (rd (node_mapping inst) 3 = 3) as H3 by (vm_compute; reflexivity).
  assert (rd (node_mapping
                (@write_node_mapping sim triangle inst (node_ids (snd run))))
            3 = 13) as H13 by (vm_compute; reflexivity).
  pose proof (proj2 (proj2 (Hentry 3 Hi)) Hne He) as Hfresh.
  cbv zeta in Hfresh. rewrite H3, H13 in Hfresh. exact Hfresh.
Defined.

Lemma init_matrix_reactive_address_witness :
  let run := @init_matrix sim [] mos live in
  fst (fst run) = OK /\
  jacobian_ptr_react (snd run) !! 64 =
    Some (rd (jacobian_ptr_resist (snd run)) 1 + 1).
Proof.
  intros run. split; [vm_compute; reflexivity|].
  refine (proj1 (proj2 (@init_matrix_reactive_address sim mos []
                          (snd (fst run)) live (snd run) _)) 1 _ _ _ _).
  - vm_compute. reflexivity.
  - vm_compute. split; [discriminate|reflexivity].
  - vm_compute. reflexivity.
  - vm_compute. discriminate.
  - intros j Hj. change (@num_jacobian_entries sim mos) with 4 in Hj.
    assert (j = 2 \/ j = 3) as [-> | ->] by lia; vm_compute; discriminate.
Defined.


Lemma handle_init_info_flags_first_witness :
  Z.land (flags fatal_with_errors)
    (Z.lor (@EVAL_RET_FLAG_FATAL sim) (@EVAL_RET_FLAG_FINISH sim)) <> 0 /\
  @handle_init_info sim fatal_with_errors mos = (E_PANIC, no_effects) /\
  snd (@handle_init_info sim two_errors mos) <> no_effects /\
  Z.land (flags two_errors)
    (Z.lor (@EVAL_RET_FLAG_FATAL sim) (@EVAL_RET_FLAG_FINISH sim)) = 0.
Proof.
  assert (Z.land (flags fatal_with_errors)
            (Z.lor (@EVAL_RET_FLAG_FATAL sim) (@EVAL_RET_FLAG_FINISH sim)) <> 0)
    as Hflag by (vm_compute; discriminate).
  assert (snd (@handle_init_info sim two_errors mos) <> no_effects) as Hrep
    by (vm_compute; discriminate).
  split; [exact Hflag|]. split.
  - exact (proj1 (@handle_init_info_flags_first sim fatal_with_errors mos)
             Hflag 1 (errors fatal_with_errors)).
  - split; [exact Hrep|].
    exact (proj1 (proj2 (@handle_init_info_flags_first sim two_errors mos)
                    Hrep)).
Defined.

End Runs.

(** * Further properties of the setup layer *)

Section Coverage.

Context `{Simulator}.

(** ** [collapse_nodes] *)

Lemma removed_is_internal (ct : Z) (m : list Z) (from to : Z) :
  Collapse.protected ct m from to = false ->
  ct <= fst (Collapse.representatives m from to).
Proof.
  unfold Collapse.protected, Collapse.representatives, Collapse.orient.
  destruct (Z.ltb_spec (rd m from) ct) as [Hf|Hf]; simpl.
  - destruct (Z.eqb_spec to UINT32_MAX); simpl; [done|].
    destruct (Z.ltb_spec (rd m to) ct); simpl; [done|].
    destruct (Z.eqb_spec (rd m to) UINT32_MAX); simpl; [done|]. intros _.
    destruct (Z.ltb_spec (rd m from) (rd m to)); simpl; lia.
  - intros _. destruct (negb (to =? UINT32_MAX)); simpl; [|done].
    destruct (Z.ltb_spec (rd m from) (rd m to)); simpl; lia.
Qed.

Lemma collapse_pair_keeps_terminals (n : Z) (pairs : list OsdiNodePair)
    (hints : list bool) (ct : Z) (s : list Z * Z) (i k : Z) :
  rd (fst s) k = k -> 0 <= k < ct ->
  rd (fst (Collapse.collapse_pair n pairs hints ct s i)) k = k.
Proof.
  destruct s as [m c]. cbn [fst]. intros Hk Hct.
  unfold Collapse.collapse_pair.
  destruct (rd hints i); simpl; [|done].
  destruct (Collapse.protected _ _ _ _) eqn:Hp; [done|].
  apply removed_is_internal in Hp.
  destruct (Collapse.representatives _ _ _) as [f t]. cbn [fst] in *.
  rewrite replace_nodes_rd, Hk.
  destruct ((0 <=? k) && (k <? n) && in_bounds m k); [|done].
  unfold compact. destruct (Z.eqb_spec k f); [lia|].
  destruct (Z.gtb_spec k f); [lia|done].
Qed.

(** X1.  The entries of the connected terminals are never rewritten: after
    [collapse_nodes], whatever pairs the descriptor declares and whatever
    hints were executed, every node below [connected_terminals] is still
    mapped to itself ("terminals can never be collapsed"). *)
Theorem collapse_nodes_keeps_terminals (descr : OsdiDescriptor)
    (inst : Instance) (ct k : Z) :
  Z.of_nat (length (node_mapping inst)) = num_nodes descr ->
  0 <= k < ct -> k < num_nodes descr ->
  rd (node_mapping (fst (collapse_nodes descr inst ct))) k = k.
Proof.
  intros Hlen Hk Hn. unfold collapse_nodes.
  rewrite populate_nodes_seqZ by done.
  set (body := Collapse.collapse_pair _ _ _ _).
  assert (rd (fst (for_u32 (num_collapsible descr) body
                     (seqZ 0 (num_nodes descr), num_nodes descr))) k = k)
    as Hfinal.
  { assert (rd (seqZ 0 (num_nodes descr)) k = k) as Hinit.
    { replace k with (Z.of_nat (Z.to_nat k)) at 1 by lia.
      rewrite (rd_lookup _ (Z.to_nat k) (0 + Z.of_nat (Z.to_nat k)));
        [lia|]. apply lookup_seqZ. lia. }
    destruct (Z.le_gt_cases 0 (num_collapsible descr)) as [Hnc|Hnc].
    - apply (for_u32_invariant (fun _ s => rd (fst s) k = k)); [done|done|].
      intros i s _ Hs. by apply collapse_pair_keeps_terminals.
    - by rewrite for_u32_nonpos by lia. }
  by destruct (for_u32 _ _ _).
Qed.

Lemma representatives_in_range (n : Z) (m : list Z) (from to f t : Z) :
  in_range n m -> n <= UINT32_MAX ->
  0 <= from < n -> (0 <= to < n \/ to = UINT32_MAX) ->
  Collapse.representatives m from to = (f, t) ->
  (0 <= f < n \/ f = UINT32_MAX) /\ (0 <= t < n \/ t = UINT32_MAX).
Proof.
  intros [Hlen Hent] Hmax Hfrom Hto.
  unfold Collapse.representatives, Collapse.orient.
  pose proof (Hent from Hfrom) as Hef.
  destruct (Z.eqb_spec to UINT32_MAX) as [->|Hne]; simpl.
  - intros [= <- <-]. by split; [|right].
  - destruct Hto as [Hto|Hto]; [|done]. pose proof (Hent to Hto) as Het.
    destruct (rd m from <? rd m to).
    + destruct (Z.eqb_spec from UINT32_MAX) as [Heq|_]; [lia|]. simpl.
      by intros [= <- <-].
    + destruct (Z.eqb_spec to UINT32_MAX) as [Heq|_]; [lia|]. simpl.
      by intros [= <- <-].
Qed.

Lemma collapse_pair_in_range (n : Z) (pairs : list OsdiNodePair)
    (hints : list bool) (ct : Z) (s : list Z * Z) (i : Z) :
  n <= UINT32_MAX -> in_range n (fst s) ->
  0 <= node_1 (rd pairs i) < n ->
  (0 <= node_2 (rd pairs i) < n \/ node_2 (rd pairs i) = UINT32_MAX) ->
  in_range n (fst (Collapse.collapse_pair n pairs hints ct s i)).
Proof.
  destruct s as [m c]. cbn [fst]. intros Hmax Hr H1 H2.
  unfold Collapse.collapse_pair.
  destruct (rd hints i); simpl; [|done].
  destruct (Collapse.protected _ _ _ _); [done|].
  destruct (Collapse.representatives _ _ _) as [f t] eqn:Hrep. cbn [fst].
  destruct (representatives_in_range n m _ _ f t Hr Hmax H1 H2 Hrep)
    as [Hf Ht].
  destruct Hr as [Hlen Hent]. split; [by rewrite replace_nodes_length|].
  intros k Hk. rewrite replace_nodes_rd.
  assert (in_bounds m k = true) as -> by (apply in_bounds_iff; lia).
  replace ((0 <=? k) && (k <? n)) with true by lia. simpl.
  pose proof (Hent k Hk) as Hv.
  unfold compact, UINT32_MAX in *.
  destruct (Z.eqb_spec (rd m k) f); [done|].
  destruct (Z.gtb_spec (rd m k) f), (Z.eqb_spec (rd m k) 4294967295);
    simpl; lia.
Qed.

(** X2.  Whatever hints were executed, and also when a collapse is
    redundant or removes the sentinel, [collapse_nodes] keeps the length of
    the mapping and leaves in every entry the sentinel or an index below
    [num_nodes]; so every [nodes[node_mapping[i]]] that
    [write_node_mapping] reads lies inside a buffer of [num_nodes]
    entries. *)
Theorem collapse_nodes_in_range (descr : OsdiDescriptor) (inst : Instance)
    (ct : Z) (buf : list Z) :
  Z.of_nat (length (node_mapping inst)) = num_nodes descr ->
  num_nodes descr <= UINT32_MAX ->
  wf_pairs (num_nodes descr) (collapsible descr) (num_collapsible descr) ->
  Z.of_nat (length buf) = num_nodes descr ->
  in_range (num_nodes descr)
    (node_mapping (fst (collapse_nodes descr inst ct))) /\
  forall i, 0 <= i < num_nodes descr ->
    let e := rd (node_mapping (fst (collapse_nodes descr inst ct))) i in
    e = UINT32_MAX \/ in_bounds buf e = true.
Proof.
  intros Hlen Hmax Hwf Hbuf.
  assert (in_range (num_nodes descr)
            (node_mapping (fst (collapse_nodes descr inst ct)))) as Hr.
  { unfold collapse_nodes. rewrite populate_nodes_seqZ by done.
    set (body := Collapse.collapse_pair _ _ _ _).
    assert (in_range (num_nodes descr)
              (fst (for_u32 (num_collapsible descr) body
                      (seqZ 0 (num_nodes descr), num_nodes descr))))
      as Hfinal.
    { assert (in_range (num_nodes descr) (seqZ 0 (num_nodes descr))) as Hinit.
      { split; [rewrite length_seqZ; lia|]. intros k Hk. left.
        replace k with (Z.of_nat (Z.to_nat k)) at 1 2 by lia.
        rewrite (rd_lookup _ (Z.to_nat k) (0 + Z.of_nat (Z.to_nat k)));
          [lia|]. apply lookup_seqZ. lia. }
      destruct (Z.le_gt_cases 0 (num_collapsible descr)) as [Hnc|Hnc].
      - apply (for_u32_invariant
                 (fun _ s => in_range (num_nodes descr) (fst s)));
          [done|done|].
        intros i s Hi Hs. destruct (Hwf i Hi) as [H1 H2].
        by apply collapse_pair_in_range.
      - by rewrite for_u32_nonpos by lia. }
    by destruct (for_u32 _ _ _). }
  split; [done|]. intros i Hi e. destruct Hr as [_ Hent].
  destruct (Hent i Hi) as [He|He]; [right|by left].
  apply in_bounds_iff. lia.
Qed.

(** ** [handle_init_info] *)

Lemma foldl_snoc_map {A B} (f : list A -> B -> list A) (g : B -> A)
    (l : list B) (init : list A) :
  (forall out i, f out i = out ++ [g i]) ->
  foldl f init l = init ++ map g l.
Proof.
  intros Hf. revert init. induction l as [|x l IH]; intros init; simpl.
  - by rewrite app_nil_r.
  - rewrite Hf, IH. by rewrite <- app_assoc.
Qed.

(** X3.  [handle_init_info] returns [OK] exactly when neither the fatal nor
    the finish flag is set and no error is reported.  When no flag is set
    and [num_errors] is not zero it returns [E_PRIVATE] after printing one
    line for each of the [num_errors] errors, in their order (the name of
    the parameter for an out-of-bounds error, the code for any other),
    freeing the list and storing the message that counts the errors. *)
Theorem handle_init_info_report (info : OsdiInitInfo) (descr : OsdiDescriptor) :
  (fst (handle_init_info info descr) = OK <->
   fatal_or_finish info = false /\ num_errors info = 0) /\
  (fatal_or_finish info = false -> num_errors info <> 0 ->
   handle_init_info info descr =
     (E_PRIVATE,
      {| printed := map (error_message descr info) (seqZ 0 (num_errors info));
         freed_errors := true;
         set_errMsg := Some (MsgErrorCount (num_errors info)) |}) /\
   length (printed (snd (handle_init_info info descr))) =
     Z.to_nat (num_errors info)).
Proof.
  unfold handle_init_info. split.
  - destruct (fatal_or_finish info); simpl; [split; [done|by intros [? _]]|].
    destruct (Z.eqb_spec (num_errors info) 0); simpl; [done|].
    split; [done|by intros [_ ?]].
  - intros -> Hn. destruct (Z.eqb_spec (num_errors info) 0); [done|].
    assert (for_u32 (num_errors info) (report_error descr info) [] =
            map (error_message descr info) (seqZ 0 (num_errors info))) as ->.
    { unfold for_u32.
      apply (foldl_snoc_map _ (error_message descr info) _ []).
      intros out i. unfold report_error, error_message.
      by destruct (code (rd (errors info) i) =? INIT_ERR_OUT_OF_BOUNDS). }
    split; [done|]. cbn [snd printed]. by rewrite length_map, length_seqZ.
Qed.

(** ** [connected_terminals] *)

(** X4.  The number of connected terminals that [OSDIsetup] and [OSDItemp]
    compute lies between 0 and [num_terminals]; no terminal before it is
    open (-1); and when it is less than [num_terminals] the terminal at
    that index is the first open one. *)
Theorem connected_terminals_first_open (descr : OsdiDescriptor)
    (terms : list Z) :
  0 <= num_terminals descr ->
  let ct := connected_terminals descr terms in
  0 <= ct <= num_terminals descr /\
  (forall i, 0 <= i < ct -> rd terms i <> -1) /\
  (ct < num_terminals descr -> rd terms ct = -1).
Proof.
  intros Hnt ct. subst ct. unfold connected_terminals.
  destruct (list_find _ _) as [[k i]| ] eqn:Hfind.
  - apply list_find_Some in Hfind as (Hk & Hi & Hbefore).
    apply lookup_seqZ in Hk as [-> Hk]. split; [lia|]. split; [|done].
    intros j Hj Hopen.
    apply (Hbefore (Z.to_nat j) j); [|lia|done].
    apply lookup_seqZ. lia.
  - split; [lia|]. split; [|lia].
    intros j Hj. eapply list_find_None in Hfind.
    rewrite Forall_seqZ in Hfind. apply Hfind. lia.
Qed.

(** ** [init_matrix] *)

Lemma init_matrix_from_keeps_bound (descr : OsdiDescriptor) (ix : list Z)
    (k : Z) :
  forall (m m' : SMPmatrix) (inst inst' : Instance),
  init_matrix_from descr ix m inst = (OK, m', inst') ->
  rd (jacobian_ptr_resist inst) k <> NULL ->
  rd (jacobian_ptr_resist inst') k <> NULL.
Proof.
  induction ix as [|i ix IH]; intros m m' inst inst';
    cbn [init_matrix_from].
  - by intros [= <- <-].
  - destruct (bind_entry descr (m, inst) i) as [m1 [inst1|]] eqn:Hb; [|done].
    intros Hrun Hk. apply (IH _ _ _ _ Hrun).
    apply bind_entry_stored in Hb as (Hp & _ & _ & _ & -> & _).
    rewrite rd_wr. by destruct ((i =? k) && _).
Qed.

Lemma init_matrix_from_outcome (descr : OsdiDescriptor) (ix : list Z) :
  forall (m m' : SMPmatrix) (inst inst' : Instance) (e : status),
  init_matrix_from descr ix m inst = (e, m', inst') ->
  (e = OK /\
   forall i, i ∈ ix -> in_bounds (jacobian_ptr_resist inst) i = true ->
     rd (jacobian_ptr_resist inst') i <> NULL) \/
  (e = E_NOMEM /\
   exists i m1, i ∈ ix /\
     snd (SMPmakeElt m1 (int_of_u32 (equation_of descr inst i))
            (int_of_u32 (unknown_of descr inst i))) = NULL).
Proof.
  induction ix as [|i ix IH]; intros m m' inst inst' e;
    cbn [init_matrix_from].
  - intros [= <- <- <-]. left. split; [done|].
    intros i Hi. by apply not_elem_of_nil in Hi.
  - destruct (bind_entry descr (m, inst) i) as [m1 [inst1|]] eqn:Hb.
    + intros Hrun. pose proof Hb as Hb'.
      apply bind_entry_stored in Hb' as (Hp & Hnm & _ & _ & Hres & _).
      destruct (IH _ _ _ _ _ Hrun) as [[-> Hall]|[-> (j & m2 & Hj & Hnull)]].
      * left. split; [done|]. intros j [->|Hj]%elem_of_cons Hbound.
        -- apply (init_matrix_from_keeps_bound _ _ _ _ _ _ _ Hrun).
           rewrite Hres. by rewrite rd_wr_eq.
        -- apply Hall; [done|]. by rewrite Hres, in_bounds_wr.
      * right. split; [done|]. exists j, m2.
        split; [by apply list_elem_of_further|].
        unfold equation_of, unknown_of in *. by rewrite <- Hnm.
    + intros [= <- <- <-]. right. split; [done|]. exists i, m.
      split; [apply list_elem_of_here|].
      unfold bind_entry, equation_of, unknown_of in *.
      destruct (SMPmakeElt _ _ _) as [m2 p]. simpl.
      destruct (Z.eqb_spec p NULL); [done|]. by destruct (negb _).
Qed.

(** X5.  [init_matrix] returns [OK] or [E_NOMEM] and nothing else.  After
    [OK] every address in the resistive table of a declared Jacobian entry
    is other than [NULL]; [E_NOMEM] comes only from a request that the
    matrix answered with [NULL]; either way the node mapping is as
    before. *)
Theorem init_matrix_outcome (descr : OsdiDescriptor) (matrix m' : SMPmatrix)
    (inst inst' : Instance) (e : status) :
  init_matrix matrix descr inst = (e, m', inst') ->
  node_mapping inst' = node_mapping inst /\
  ((e = OK /\
    forall i, 0 <= i < num_jacobian_entries descr ->
      in_bounds (jacobian_ptr_resist inst) i = true ->
      rd (jacobian_ptr_resist inst') i <> NULL) \/
   (e = E_NOMEM /\
    exists i m1, 0 <= i < num_jacobian_entries descr /\
      snd (SMPmakeElt m1 (int_of_u32 (equation_of descr inst i))
             (int_of_u32 (unknown_of descr inst i))) = NULL)).
Proof.
  unfold init_matrix. intros Hrun.
  split; [by apply init_matrix_from_state_idx in Hrun as [_ ?]|].
  destruct (init_matrix_from_outcome _ _ _ _ _ _ _ Hrun)
    as [[-> Hall]|[-> (i & m1 & Hi & Hnull)]].
  - left. split; [done|]. intros i Hi. apply Hall. apply elem_of_seqZ. lia.
  - right. split; [done|]. exists i, m1. apply elem_of_seqZ in Hi.
    split; [lia|done].
Qed.

(** ** Aborting and visiting in [OSDIsetup] *)

Lemma setup_one_instance_return (descr : OsdiDescriptor)
    (sim_params : OsdiSimParas) (model : model_data) (st st' : setup_state)
    (gi gi' : GENinstance) (err : status) :
  setup_one_instance descr sim_params model st gi = (gi', st', Return err) ->
  is_error err = true.
Proof.
  unfold setup_one_instance.
  destruct (setup_instance _ _ _ _ _ _ _) as [inst1 info].
  destruct (handle_init_info info descr) as [res eff].
  destruct (is_error res); [done|].
  destruct (collapse_nodes _ _ _) as [inst2 n].
  destruct (make_nodes _ _ _ _) as [e1 st1].
  destruct (is_error e1) eqn:He1; [by intros [= _ _ <-]|].
  destruct (init_matrix _ _ _) as [[e2 m] inst3].
  destruct (is_error e2) eqn:He2; [by intros [= _ _ <-]|done].
Qed.

Lemma setup_instances_return (descr : OsdiDescriptor)
    (sim_params : OsdiSimParas) (model : model_data)
    (insts : list GENinstance) :
  forall (res : status) (st st' : setup_state) (insts' : list GENinstance)
         (err : status),
  setup_instances descr sim_params model insts res st =
    (insts', st', Return err) ->
  is_error err = true.
Proof.
  induction insts as [|gi insts IH]; intros res st st' insts' err;
    cbn [setup_instances]; [done|].
  destruct (setup_one_instance descr sim_params model st gi)
    as [[gi1 st1] [res1|e1]] eqn:H1.
  - destruct (setup_instances descr sim_params model insts res1 st1)
      as [[insts2 st2] o2] eqn:H2.
    intros [= _ _ ->]. by eapply IH.
  - intros [= _ _ <-]. by eapply setup_one_instance_return.
Qed.

Lemma setup_one_model_return (descr : OsdiDescriptor)
    (sim_params : OsdiSimParas) (st st' : setup_state) (gm gm' : GENmodel)
    (err : status) :
  setup_one_model descr sim_params st gm = (gm', st', Return err) ->
  is_error err = true.
Proof.
  unfold setup_one_model.
  destruct (setup_model _ _ _ _) as [md info].
  destruct (handle_init_info info descr) as [res eff].
  destruct (is_error res); [done|].
  destruct (setup_instances _ _ _ _ _ _) as [[insts st1] o1] eqn:Hi.
  intros [= _ _ ->]. by eapply setup_instances_return.
Qed.

(** X6.  An error of the node allocator or of [init_matrix] ends the pass at
    once: when the models before [gm] have been gone through and the
    processing of [gm] returns, [OSDIsetup] returns that status, which is
    never [OK], with the state as it was at that moment and the models
    after [gm] exactly as they were given. *)
Theorem OSDIsetup_abort (matrix0 : SMPmatrix) (descr : OsdiDescriptor)
    (before after : list GENmodel) (gm gm' : GENmodel) (ckt0 : CKTcircuit)
    (states0 : Z) (before' : list GENmodel) (st st' : setup_state)
    (res err : status) :
  setup_models descr (get_simparams ckt0) before OK
    (initial_state matrix0 descr ckt0 states0) = (before', st, Next res) ->
  setup_one_model descr (get_simparams ckt0) st gm = (gm', st', Return err) ->
  OSDIsetup matrix0 descr (before ++ gm :: after) ckt0 states0 =
    (err, before' ++ gm' :: after, st') /\
  err <> OK.
Proof.
  intros Hbefore Hgm. split.
  - unfold OSDIsetup. rewrite setup_models_app, Hbefore.
    cbn [setup_models]. by rewrite Hgm.
  - apply setup_one_model_return in Hgm. by destruct err.
Qed.

Lemma models_called_app (a b : list event) :
  models_called (a ++ b) = models_called a ++ models_called b.
Proof. apply omap_app. Qed.

Lemma make_nodes_calls (descr : OsdiDescriptor) (gname : string)
    (ix : list Z) :
  forall (st st' : setup_state) (e : status),
  make_nodes descr gname ix st = (e, st') ->
  exists evs, events st' = events st ++ evs /\ models_called evs = [].
Proof.
  induction ix as [|i ix IH]; intros st st' e; cbn [make_nodes].
  - intros [= <- <-]. exists []. by rewrite app_nil_r.
  - destruct (if is_flow (rd (descr_nodes descr) i)
              then CKTmkCur (ckt st) gname (name (rd (descr_nodes descr) i))
              else CKTmkVolt (ckt st) gname (name (rd (descr_nodes descr) i)))
      as [[e0 c] number].
    destruct (is_error e0).
    + intros [= <- <-]. simpl. eexists. split; [done|].
      by destruct (is_flow _).
    + intros Hrun. apply IH in Hrun as (evs & Hev & Hcalled).
      simpl in Hev. eexists. rewrite Hev, <- app_assoc. split; [done|].
      rewrite models_called_app, Hcalled. by destruct (is_flow _).
Qed.

Lemma setup_one_instance_keeps (descr : OsdiDescriptor)
    (sim_params : OsdiSimParas) (model : model_data) (st st' : setup_state)
    (gi gi' : GENinstance) (o : outcome) :
  setup_one_instance descr sim_params model st gi = (gi', st', o) ->
  (GENname gi', terminals gi', extra_instance_data gi') =
    (GENname gi, terminals gi, extra_instance_data gi) /\
  exists evs, events st' = events st ++ evs /\ models_called evs = [].
Proof.
  unfold setup_one_instance.
  destruct (setup_instance _ _ _ _ _ _ _) as [inst1 info].
  destruct (handle_init_info info descr) as [res eff].
  destruct (is_error res).
  { intros [= <- <- <-]. split; [done|]. simpl. by eexists. }
  destruct (collapse_nodes _ _ _) as [inst2 n].
  destruct (make_nodes _ _ _ _) as [e1 st1] eqn:Hmk.
  apply make_nodes_calls in Hmk as (evs1 & Hev1 & Hc1). simpl in Hev1.
  destruct (is_error e1).
  { intros [= <- <- <-]. split; [done|].
    exists (EvSetupInstance (GENname gi) :: evs1).
    by rewrite Hev1, <- app_assoc. }
  destruct (init_matrix _ _ _) as [[e2 m] inst3].
  destruct (is_error e2).
  { intros [= <- <- <-]. split; [done|].
    exists (EvSetupInstance (GENname gi) :: evs1).
    simpl. by rewrite Hev1, <- app_assoc. }
  intros [= <- <- <-]. split; [done|].
  exists (EvSetupInstance (GENname gi) :: evs1 ++
          [EvStates (GENname gi) (states st1) (states_per_instance descr)]).
  simpl. split; [by rewrite Hev1, <- !app_assoc|].
  change (models_called
            ([EvSetupInstance (GENname gi)] ++ evs1 ++
             [EvStates (GENname gi) (states st1)
                (states_per_instance descr)]) = []).
  by rewrite !models_called_app, Hc1.
Qed.

Lemma setup_instances_keeps (descr : OsdiDescriptor)
    (sim_params : OsdiSimParas) (model : model_data)
    (insts : list GENinstance) :
  forall (res : status) (st st' : setup_state) (insts' : list GENinstance)
         (o : outcome),
  setup_instances descr sim_params model insts res st = (insts', st', o) ->
  map (fun gi => (GENname gi, terminals gi, extra_instance_data gi)) insts' =
    map (fun gi => (GENname gi, terminals gi, extra_instance_data gi)) insts /\
  exists evs, events st' = events st ++ evs /\ models_called evs = [].
Proof.
  induction insts as [|gi insts IH]; intros res st st' insts' o;
    cbn [setup_instances].
  - intros [= <- <- <-]. split; [done|]. exists []. by rewrite app_nil_r.
  - destruct (setup_one_instance descr sim_params model st gi)
      as [[gi1 st1] o1] eqn:H1.
    apply setup_one_instance_keeps in H1 as (Hk1 & evs1 & Hev1 & Hc1).
    destruct o1 as [res1|err].
    + destruct (setup_instances descr sim_params model insts res1 st1)
        as [[insts2 st2] o2] eqn:H2.
      apply IH in H2 as (Hk2 & evs2 & Hev2 & Hc2).
      intros [= <- <- <-]. split; [simpl; by rewrite Hk1, Hk2|].
      exists (evs1 ++ evs2). rewrite Hev2, Hev1, <- app_assoc.
      split; [done|]. by rewrite models_called_app, Hc1, Hc2.
    + intros [= <- <- <-]. split; [simpl; by rewrite Hk1|]. by exists evs1.
Qed.

Lemma setup_one_model_keeps (descr : OsdiDescriptor)
    (sim_params : OsdiSimParas) (st st' : setup_state) (gm gm' : GENmodel)
    (o : outcome) :
  setup_one_model descr sim_params st gm = (gm', st', o) ->
  wiring gm' = wiring gm /\
  exists evs, events st' = events st ++ evs /\
    models_called evs = [GENmodName gm].
Proof.
  unfold setup_one_model.
  destruct (setup_model _ _ _ _) as [md info].
  destruct (handle_init_info info descr) as [res eff].
  destruct (is_error res).
  - intros [= <- <- <-]. split; [done|]. simpl. by eexists.
  - destruct (setup_instances _ _ _ _ _ _) as [[insts st1] o1] eqn:Hi.
    apply setup_instances_keeps in Hi as (Hk & evs & Hev & Hc).
    intros [= <- <- <-]. split.
    + unfold wiring. simpl. by rewrite Hk.
    + exists (EvSetupModel (GENmodName gm) :: evs). simpl in Hev.
      rewrite Hev, <- app_assoc. split; [done|].
      change (models_called ([EvSetupModel (GENmodName gm)] ++ evs) =
              [GENmodName gm]).
      by rewrite models_called_app, Hc.
Qed.

Lemma setup_models_keeps (descr : OsdiDescriptor)
    (sim_params : OsdiSimParas) (models : list GENmodel) :
  forall (res : status) (st st' : setup_state) (models' : list GENmodel)
         (o : outcome),
  setup_models descr sim_params models res st = (models', st', o) ->
  map wiring models' = map wiring models /\
  exists evs, events st' = events st ++ evs /\
    models_called evs `prefix_of` map GENmodName models /\
    (forall r, o = Next r -> models_called evs = map GENmodName models).
Proof.
  induction models as [|gm models IH]; intros res st st' models' o;
    cbn [setup_models].
  - intros [= <- <- <-]. split; [done|]. exists []. by rewrite app_nil_r.
  - destruct (setup_one_model descr sim_params st gm)
      as [[gm1 st1] o1] eqn:H1.
    apply setup_one_model_keeps in H1 as (Hk1 & evs1 & Hev1 & Hc1).
    destruct o1 as [res1|err].
    + destruct (setup_models descr sim_params models res1 st1)
        as [[models2 st2] o2] eqn:H2.
      apply IH in H2 as (Hk2 & evs2 & Hev2 & Hpre & Hall).
      intros [= <- <- <-]. split; [simpl; by rewrite Hk1, Hk2|].
      exists (evs1 ++ evs2). rewrite Hev2, Hev1, <- app_assoc.
      split; [done|]. rewrite models_called_app, Hc1. simpl. split.
      * by apply prefix_cons.
      * intros r Hr. by rewrite (Hall r Hr).
    + intros [= <- <- <-]. split; [simpl; by rewrite Hk1|].
      exists evs1. split; [done|]. rewrite Hc1. simpl. split; [|done].
      apply prefix_cons, prefix_nil.
Qed.

(** X7.  [OSDIsetup] never adds, drops, renames or rewires anything: the
    models it leaves have the names they had and the same instances in the
    same order, each with its name, its terminals and its extra data,
    whether the pass runs to its end or is aborted. *)
Theorem OSDIsetup_keeps_wiring (matrix0 : SMPmatrix) (descr : OsdiDescriptor)
    (inModel : list GENmodel) (ckt0 : CKTcircuit) (states0 : Z) :
  map wiring (snd (fst (OSDIsetup matrix0 descr inModel ckt0 states0))) =
  map wiring inModel.
Proof.
  unfold OSDIsetup.
  destruct (setup_models _ _ _ _ _) as [[models st] o] eqn:Hrun.
  by apply setup_models_keeps in Hrun as [Hk _].
Qed.

(** X8.  [OSDIsetup] calls [setup_model] at most once for each model, in
    the order of the list and without skipping any: the models called are a
    prefix of the list, and all of the list when the model loop runs to its
    end. *)
Theorem OSDIsetup_models_called (matrix0 : SMPmatrix)
    (descr : OsdiDescriptor) (inModel : list GENmodel) (ckt0 : CKTcircuit)
    (states0 : Z) :
  let run :=
    setup_models descr (get_simparams ckt0) inModel OK
      (initial_state matrix0 descr ckt0 states0) in
  let st := snd (OSDIsetup matrix0 descr inModel ckt0 states0) in
  models_called (events st) `prefix_of` map GENmodName inModel /\
  (forall r, snd run = Next r ->
     models_called (events st) = map GENmodName inModel).
Proof.
  intros run st. subst run st. unfold OSDIsetup.
  destruct (setup_models _ _ _ _ _) as [[models st] o] eqn:Hrun.
  apply setup_models_keeps in Hrun as (_ & evs & Hev & Hpre & Hall).
  simpl in *. by subst evs.
Qed.

(** ** [OSDItemp] *)

Lemma temp_instances_spec (descr : OsdiDescriptor)
    (sim_params : OsdiSimParas) (ckt0 : CKTcircuit) (model : model_data)
    (insts : list GENinstance) :
  forall (res : status) (st : temp_state),
  let '(insts', st', res') :=
    temp_instances descr sim_params ckt0 model insts res st in
  map (fun gi => (GENname gi, terminals gi, extra_instance_data gi)) insts' =
    map (fun gi => (GENname gi, terminals gi, extra_instance_data gi)) insts /\
  map GENstate insts' = map GENstate insts /\
  (exists evs, temp_events st' = temp_events st ++ evs /\
     models_called evs = []) /\
  forall st2,
    fst (fst (temp_instances descr sim_params ckt0 model insts res st2)) =
      insts' /\
    snd (temp_instances descr sim_params ckt0 model insts res st2) = res'.
Proof.
  induction insts as [|gi insts IH]; intros res st; cbn [temp_instances].
  - repeat split; try done. exists []. by rewrite app_nil_r.
  - unfold temp_one_instance.
    destruct (setup_instance _ _ _ _ _ _ _) as [inst1 info].
    destruct (handle_init_info info descr) as [res1 eff].
    set (st1 := temp_init_effects _ _ _ _).
    specialize (IH res1 st1).
    destruct (temp_instances descr sim_params ckt0 model insts res1 st1)
      as [[insts2 st2] res2].
    destruct IH as (Hk & Hs & (evs & Hev & Hc) & Hindep).
    split; [simpl; by rewrite Hk|]. split; [simpl; by rewrite Hs|]. split.
    + exists (EvSetupInstance (GENname gi) :: evs). rewrite Hev.
      subst st1. simpl. rewrite <- app_assoc. split; [done|].
      change (models_called ([EvSetupInstance (GENname gi)] ++ evs) = []).
      by rewrite models_called_app, Hc.
    + intros st3. set (st4 := temp_init_effects _ _ _ _).
      destruct (Hindep st4) as [H1 H2].
      destruct (temp_instances descr sim_params ckt0 model insts res1 st4)
        as [[insts4 st5] res4]. simpl in *.
      by subst.
Qed.

Lemma temp_one_model_spec (descr : OsdiDescriptor)
    (sim_params : OsdiSimParas) (ckt0 : CKTcircuit) (st : temp_state)
    (gm : GENmodel) :
  let '(gm', st', res') := temp_one_model descr sim_params ckt0 st gm in
  wiring gm' = wiring gm /\ state_bases gm' = state_bases gm /\
  (exists evs, temp_events st' = temp_events st ++ evs /\
     models_called evs = [GENmodName gm]) /\
  forall st2,
    fst (fst (temp_one_model descr sim_params ckt0 st2 gm)) = gm' /\
    snd (temp_one_model descr sim_params ckt0 st2 gm) = res'.
Proof.
  unfold temp_one_model.
  destruct (setup_model _ _ _ _) as [md info].
  destruct (handle_init_info info descr) as [res eff].
  destruct (is_error res).
  - repeat split; try done. simpl. by eexists.
  - set (st1 := temp_init_effects _ _ _ _).
    pose proof (temp_instances_spec descr sim_params ckt0 md
                  (GENinstances gm) res st1) as Hi.
    destruct (temp_instances descr sim_params ckt0 md (GENinstances gm) res st1)
      as [[insts st2] res2].
    destruct Hi as (Hk & Hs & (evs & Hev & Hc) & Hindep).
    split; [unfold wiring; simpl; by rewrite Hk|]. split; [done|]. split.
    + exists (EvSetupModel (GENmodName gm) :: evs). rewrite Hev.
      subst st1. simpl. rewrite <- app_assoc. split; [done|].
      change (models_called ([EvSetupModel (GENmodName gm)] ++ evs) =
              [GENmodName gm]).
      by rewrite models_called_app, Hc.
    + intros st3. set (st4 := temp_init_effects _ _ _ _).
      destruct (Hindep st4) as [H1 H2].
      destruct (temp_instances descr sim_params ckt0 md (GENinstances gm)
                  res st4) as [[insts4 st5] res4]. simpl in *.
      by subst.
Qed.

Lemma temp_models_spec (descr : OsdiDescriptor) (sim_params : OsdiSimParas)
    (ckt0 : CKTcircuit) (models : list GENmodel) :
  forall (res : status) (st : temp_state),
  let '(models', st', res') :=
    temp_models descr sim_params ckt0 models res st in
  map wiring models' = map wiring models /\
  map state_bases models' = map state_bases models /\
  exists evs, temp_events st' = temp_events st ++ evs /\
    models_called evs = map GENmodName models.
Proof.
  induction models as [|gm models IH]; intros res st; cbn [temp_models].
  - repeat split; try done. exists []. by rewrite app_nil_r.
  - pose proof (temp_one_model_spec descr sim_params ckt0 st gm) as H1.
    destruct (temp_one_model descr sim_params ckt0 st gm) as [[gm1 st1] res1].
    destruct H1 as (Hk1 & Hs1 & (evs1 & Hev1 & Hc1) & _).
    specialize (IH res1 st1).
    destruct (temp_models descr sim_params ckt0 models res1 st1)
      as [[models2 st2] res2].
    destruct IH as (Hk2 & Hs2 & evs2 & Hev2 & Hc2).
    split; [simpl; by rewrite Hk1, Hk2|].
    split; [simpl; by rewrite Hs1, Hs2|].
    exists (evs1 ++ evs2). rewrite Hev2, Hev1, <- app_assoc.
    split; [done|]. by rewrite models_called_app, Hc1, Hc2.
Qed.

(** X9.  [OSDItemp] never stops early: whatever errors are reported it
    calls [setup_model] for every model of the list, once and in order.
    And it leaves the topology alone: the models keep their names and
    their instances, each with its name, terminals, extra data and state
    base. *)
Theorem OSDItemp_visits_all (descr : OsdiDescriptor)
    (inModel : list GENmodel) (ckt0 : CKTcircuit) :
  let '(_, models, st) := OSDItemp descr inModel ckt0 in
  models_called (temp_events st) = map GENmodName inModel /\
  map wiring models = map wiring inModel /\
  map state_bases models = map state_bases inModel.
Proof.
  unfold OSDItemp.
  pose proof (temp_models_spec descr (get_simparams ckt0) ckt0 inModel OK
                {| temp_errRtn := None; temp_errMsg := None;
                   temp_stdout := []; temp_events := [] |}) as Hrun.
  destruct (temp_models _ _ _ _ _ _) as [[models st] res].
  destruct Hrun as (Hk & Hs & evs & Hev & Hc). simpl in Hev. by subst evs.
Qed.

Lemma temp_models_app (descr : OsdiDescriptor) (sim_params : OsdiSimParas)
    (ckt0 : CKTcircuit) (models1 models2 : list GENmodel) :
  forall (res : status) (st : temp_state),
  temp_models descr sim_params ckt0 (models1 ++ models2) res st =
  let '(models1', st1, res1) :=
    temp_models descr sim_params ckt0 models1 res st in
  let '(models2', st2, res2) :=
    temp_models descr sim_params ckt0 models2 res1 st1 in
  (models1' ++ models2', st2, res2).
Proof.
  induction models1 as [|gm models1 IH]; intros res st;
    cbn [app temp_models].
  - by destruct (temp_models descr sim_params ckt0 models2 res st) as [[? ?] ?].
  - destruct (temp_one_model descr sim_params ckt0 st gm) as [[gm1 st1] res1].
    rewrite IH.
    destruct (temp_models descr sim_params ckt0 models1 res1 st1)
      as [[models1' st1'] res1'].
    by destruct (temp_models descr sim_params ckt0 models2 res1' st1')
      as [[? ?] ?].
Qed.

(** X10.  The status that [OSDItemp] returns for a list of models is the
    status it returns for the last model alone: what [setup_model] and
    [setup_instance] report for the models before the last one is printed
    and stored in [errRtn] and [errMsg], and is no part of the value
    returned. *)
Theorem OSDItemp_status_of_last (descr : OsdiDescriptor)
    (earlier : list GENmodel) (last : GENmodel) (ckt0 : CKTcircuit) :
  fst (fst (OSDItemp descr (earlier ++ [last]) ckt0)) =
  fst (fst (OSDItemp descr [last] ckt0)).
Proof.
  unfold OSDItemp. rewrite temp_models_app.
  destruct (temp_models descr (get_simparams ckt0) ckt0 earlier OK _)
    as [[models1 st1] res1].
  cbn [temp_models].
  pose proof (temp_one_model_spec descr (get_simparams ckt0) ckt0 st1 last)
    as H1.
  destruct (temp_one_model descr (get_simparams ckt0) ckt0 st1 last)
    as [[gm1 st2] r].
  destruct H1 as (_ & _ & _ & Hindep).
  match goal with
  | |- context [temp_one_model _ _ _ ?st0 last] =>
      destruct (Hindep st0) as [_ Hr]
  end.
  destruct (temp_one_model _ _ _ _ last) as [[gm2 st3] r2].
  simpl in *. by subst.
Qed.

(** ** [update_matrix_klu] *)

Lemma grounded_entry_mapping (descr : OsdiDescriptor) (inst inst' : Instance)
    (i : Z) :
  node_mapping inst' = node_mapping inst ->
  grounded_entry descr inst' i = grounded_entry descr inst i.
Proof.
  intros Hnm. unfold grounded_entry, equation_of, unknown_of. by rewrite Hnm.
Qed.

Lemma update_entry_klu_spec (descr : OsdiDescriptor) (ptrs : list ptr)
    (complex : bool) (inst : Instance) (i : Z) :
  update_entry_klu descr ptrs complex inst i =
  if grounded_entry descr inst i then inst
  else set_jacobian_ptr_resist inst
         (wr (jacobian_ptr_resist inst) i
            (rd ptrs (2 * i + (if complex then 1 else 0)))).
Proof.
  unfold update_entry_klu, grounded_entry, equation_of, unknown_of.
  rewrite <- negb_orb. by destruct (_ || _).
Qed.

(** The loop of [update_matrix_klu], entry by entry. *)
Lemma update_matrix_klu_table (descr : OsdiDescriptor) (inst : Instance)
    (ptrs : list ptr) (complex : bool) :
  let inst' := snd (update_matrix_klu descr inst ptrs complex) in
  node_mapping inst' = node_mapping inst /\
  collapsed inst' = collapsed inst /\
  state_idx inst' = state_idx inst /\
  jacobian_ptr_react inst' = jacobian_ptr_react inst /\
  length (jacobian_ptr_resist inst') = length (jacobian_ptr_resist inst) /\
  forall k,
    rd (jacobian_ptr_resist inst') k =
    if (0 <=? k) && (k <? num_jacobian_entries descr)
       && in_bounds (jacobian_ptr_resist inst) k
       && negb (grounded_entry descr inst k)
    then rd ptrs (2 * k + (if complex then 1 else 0))
    else rd (jacobian_ptr_resist inst) k.
Proof.
  intros inst'. subst inst'. unfold update_matrix_klu. cbn [fst snd].
  destruct (Z.le_gt_cases 0 (num_jacobian_entries descr)) as [Hn|Hn].
  2:{ rewrite for_u32_nonpos by lia. repeat split; try done. intros k.
      by replace ((0 <=? k) && (k <? num_jacobian_entries descr))
        with false by lia. }
  apply (for_u32_invariant
           (fun i inst1 =>
              node_mapping inst1 = node_mapping inst /\
              collapsed inst1 = collapsed inst /\
              state_idx inst1 = state_idx inst /\
              jacobian_ptr_react inst1 = jacobian_ptr_react inst /\
              length (jacobian_ptr_resist inst1) =
                length (jacobian_ptr_resist inst) /\
              forall k,
                rd (jacobian_ptr_resist inst1) k =
                if (0 <=? k) && (k <? i)
                   && in_bounds (jacobian_ptr_resist inst) k
                   && negb (grounded_entry descr inst k)
                then rd ptrs (2 * k + (if complex then 1 else 0))
                else rd (jacobian_ptr_resist inst) k)); [done| |].
  - repeat split; try done. intros k.
    by replace ((0 <=? k) && (k <? 0)) with false by lia.
  - intros i inst1 Hi (Hnm & Hc & Hs & Hr & Hlen & Hrd).
    rewrite update_entry_klu_spec, (grounded_entry_mapping _ inst) by done.
    destruct (grounded_entry descr inst i) eqn:Hg.
    + repeat split; try done. intros k. rewrite Hrd.
      destruct (Z.eq_dec k i) as [->|Hne].
      * replace ((0 <=? i) && (i <? i)) with false by lia.
        by rewrite Hg, !andb_false_r.
      * by replace (k <? i + 1) with (k <? i) by lia.
    + cbn [node_mapping collapsed state_idx jacobian_ptr_react
           jacobian_ptr_resist set_jacobian_ptr_resist].
      repeat split; try done; [by rewrite length_wr|].
      intros k. rewrite rd_wr.
      assert (in_bounds (jacobian_ptr_resist inst1) i =
              in_bounds (jacobian_ptr_resist inst) i) as ->
        by (unfold in_bounds; by rewrite Hlen).
      destruct (Z.eqb_spec i k) as [->|Hne]; simpl.
      * replace ((0 <=? k) && (k <? k + 1)) with true by lia. rewrite Hg.
        destruct (in_bounds (jacobian_ptr_resist inst) k) eqn:Hb; simpl;
          [done|].
        rewrite Hrd, Hb. by rewrite andb_false_r.
      * rewrite Hrd. by replace (k <? i + 1) with (k <? i) by lia.
Qed.

(** X11.  [update_matrix_klu] returns [OK] and changes nothing but the
    resistive table, and of that table only the entries of the declared
    Jacobian entries that have no endpoint on the ground node: such an
    entry [i] receives [inst_matrix_ptrs[2 * i]], or
    [inst_matrix_ptrs[2 * i + 1]] when [complex] is set. *)
Theorem update_matrix_klu_entries (descr : OsdiDescriptor) (inst : Instance)
    (ptrs : list ptr) (complex : bool) :
  let inst' := snd (update_matrix_klu descr inst ptrs complex) in
  fst (update_matrix_klu descr inst ptrs complex) = OK /\
  node_mapping inst' = node_mapping inst /\
  collapsed inst' = collapsed inst /\
  state_idx inst' = state_idx inst /\
  jacobian_ptr_react inst' = jacobian_ptr_react inst /\
  length (jacobian_ptr_resist inst') = length (jacobian_ptr_resist inst) /\
  forall k,
    rd (jacobian_ptr_resist inst') k =
    if (0 <=? k) && (k <? num_jacobian_entries descr)
       && in_bounds (jacobian_ptr_resist inst) k
       && negb (grounded_entry descr inst k)
    then rd ptrs (2 * k + (if complex then 1 else 0))
    else rd (jacobian_ptr_resist inst) k.
Proof.
  intros inst'. split.
  - unfold update_matrix_klu. reflexivity.
  - apply update_matrix_klu_table.
Qed.

Lemma instance_eq (a b : Instance) :
  node_mapping a = node_mapping b -> collapsed a = collapsed b ->
  state_idx a = state_idx b ->
  jacobian_ptr_resist a = jacobian_ptr_resist b ->
  jacobian_ptr_react a = jacobian_ptr_react b -> a = b.
Proof. destruct a, b. simpl. by intros -> -> -> -> ->. Qed.

(** An update absorbs the one before it. *)
Lemma update_matrix_klu_absorbs (descr : OsdiDescriptor) (inst : Instance)
    (ptrs : list ptr) (complex1 complex2 : bool) :
  update_matrix_klu descr
    (snd (update_matrix_klu descr inst ptrs complex1)) ptrs complex2 =
  update_matrix_klu descr inst ptrs complex2.
Proof.
  pose proof (update_matrix_klu_table descr inst ptrs complex1)
    as (Hnm1 & Hc1 & Hs1 & Hr1 & Hlen1 & Hrd1).
  set (inst1 := snd (update_matrix_klu descr inst ptrs complex1)) in *.
  pose proof (update_matrix_klu_table descr inst1 ptrs complex2)
    as (Hnm & Hc & Hs & Hr & Hlen & Hrd).
  pose proof (update_matrix_klu_table descr inst ptrs complex2)
    as (Hnm' & Hc' & Hs' & Hr' & Hlen' & Hrd').
  assert (fst (update_matrix_klu descr inst1 ptrs complex2) = OK) as He
    by done.
  assert (fst (update_matrix_klu descr inst ptrs complex2) = OK) as He'
    by done.
  destruct (update_matrix_klu descr inst1 ptrs complex2) as [e a].
  destruct (update_matrix_klu descr inst ptrs complex2) as [e' b].
  cbn [fst snd] in *. subst e e'. f_equal.
  apply instance_eq; try congruence.
  apply list_eq_rd; [congruence|]. intros k Hk.
  rewrite Hrd, Hrd', Hrd1.
  rewrite (grounded_entry_mapping _ inst inst1) by done.
  assert (in_bounds (jacobian_ptr_resist inst1) k =
          in_bounds (jacobian_ptr_resist inst) k) as ->
    by (unfold in_bounds; by rewrite Hlen1).
  destruct ((0 <=? k) && (k <? num_jacobian_entries descr)
            && in_bounds (jacobian_ptr_resist inst) k
            && negb (grounded_entry descr inst k)); done.
Qed.

(** X12.  The last update wins: after any sequence of updates from the
    same pointer array, each with its own [complex], the instance is what
    the last update alone makes of the original one; so an update done
    twice is an update done once, and going to the complex pointers and
    back to the real ones is going to the real ones. *)
Theorem update_matrix_klu_last_wins (descr : OsdiDescriptor) (inst : Instance)
    (ptrs : list ptr) (earlier : list bool) (last : bool) :
  foldl (fun r complex => update_matrix_klu descr (snd r) ptrs complex)
    (OK, inst) (earlier ++ [last]) =
  update_matrix_klu descr inst ptrs last.
Proof.
  change inst with (snd (OK, inst)) at 2.
  generalize (OK, inst). clear inst.
  induction earlier as [|complex earlier IH]; intros r; [done|].
  cbn [app foldl]. rewrite IH. apply update_matrix_klu_absorbs.
Qed.

(** ** [init_matrix_klu] *)

Lemma bind_entry_klu_found (descr : OsdiDescriptor)
    (bindings : list BindElement) (inst : Instance) (ptrs : list ptr) (i : Z) :
  grounded_entry descr inst i = false ->
  match bsearch (rd (jacobian_ptr_resist inst) i) bindings with
  | None =>
      bind_entry_klu descr bindings (inst, ptrs) i =
      inr (rd (jacobian_ptr_resist inst) i)
  | Some matched =>
      exists inst1,
        bind_entry_klu descr bindings (inst, ptrs) i =
        inl (inst1,
             wr (wr ptrs (2 * i) (CSC matched)) (2 * i + 1)
               (CSC_Complex matched)) /\
        node_mapping inst1 = node_mapping inst /\
        jacobian_ptr_resist inst1 =
          wr (jacobian_ptr_resist inst) i (CSC matched)
  end.
Proof.
  unfold grounded_entry, equation_of, unknown_of, bind_entry_klu.
  intros Hg. rewrite <- negb_orb, Hg. simpl.
  destruct (bsearch _ _) as [matched|]; [|done].
  eexists. split; [done|]. by destruct (negb _).
Qed.

Lemma init_matrix_klu_from_outcome (descr : OsdiDescriptor)
    (bindings : list BindElement) (ix : list Z) :
  NoDup ix ->
  forall (inst inst' : Instance) (ptrs ptrs' : list ptr) (e : status)
         (out : list message),
  init_matrix_klu_from descr bindings ix inst ptrs = (e, inst', ptrs', out) ->
  node_mapping inst' = node_mapping inst /\
  length (jacobian_ptr_resist inst') = length (jacobian_ptr_resist inst) /\
  length ptrs' = length ptrs /\
  (forall k, k ∉ ix ->
     rd (jacobian_ptr_resist inst') k = rd (jacobian_ptr_resist inst) k) /\
  (forall j, (forall i, i ∈ ix -> j <> 2 * i /\ j <> 2 * i + 1) ->
     rd ptrs' j = rd ptrs j) /\
  ((e = OK /\ out = [] /\
    forall i, i ∈ ix -> klu_bound descr bindings inst ptrs inst' ptrs' i) \/
   (e = E_PANIC /\
    exists i, i ∈ ix /\ grounded_entry descr inst i = false /\
      bsearch (rd (jacobian_ptr_resist inst) i) bindings = None /\
      out = [MsgPtrNotFound (rd (jacobian_ptr_resist inst) i)])).
Proof.
  induction 1 as [|i0 ix Hnotin Hnd IH];
    intros inst inst' ptrs ptrs' e out; cbn [init_matrix_klu_from].
  - intros [= <- <- <- <-]. repeat split; try done. left.
    repeat split; try done. intros i Hi. by apply not_elem_of_nil in Hi.
  - destruct (grounded_entry descr inst i0) eqn:Hg.
    + rewrite bind_entry_klu_grounded by done. intros Hrun.
      destruct (IH _ _ _ _ _ _ Hrun) as (Hnm & Hl1 & Hl2 & Hres & Hptr & Hout).
      repeat split; try done.
      * intros k [_ Hk]%not_elem_of_cons. by apply Hres.
      * intros j Hj. apply Hptr. intros i Hi.
        apply Hj. by apply list_elem_of_further.
      * destruct Hout as [(-> & -> & Hall)|(-> & i & Hi & Hgi & Hnone & ->)].
        -- left. repeat split; try done.
           intros i [->|Hi]%elem_of_cons; [|by apply Hall].
           unfold klu_bound. rewrite Hg. split; [by apply Hres|].
           split; apply Hptr; intros i Hi;
             (assert (i <> i0) by (by intros ->)); lia.
        -- right. split; [done|]. exists i.
           split; [by apply list_elem_of_further|done].
    + pose proof (bind_entry_klu_found descr bindings inst ptrs i0 Hg) as Hb.
      destruct (bsearch (rd (jacobian_ptr_resist inst) i0) bindings)
        as [matched|] eqn:Hfind.
      2:{ rewrite Hb. intros [= <- <- <- <-]. repeat split; try done.
          right. split; [done|]. exists i0.
          split; [apply list_elem_of_here|done]. }
      destruct Hb as (inst1 & -> & Hnm1 & Hres1). intros Hrun.
      destruct (IH _ _ _ _ _ _ Hrun) as (Hnm & Hl1 & Hl2 & Hres & Hptr & Hout).
      rewrite Hres1, length_wr in Hl1. rewrite !length_wr in Hl2.
      assert (forall k, k <> i0 ->
                rd (jacobian_ptr_resist inst1) k =
                rd (jacobian_ptr_resist inst) k) as Hres1'.
      { intros k Hk. rewrite Hres1. by apply rd_wr_ne. }
      assert (forall j, j <> 2 * i0 -> j <> 2 * i0 + 1 ->
                rd (wr (wr ptrs (2 * i0) (CSC matched)) (2 * i0 + 1)
                      (CSC_Complex matched)) j = rd ptrs j) as Hptr1.
      { intros j Hj1 Hj2. by rewrite !rd_wr_ne. }
      repeat split; try congruence.
      * intros k [Hk0 Hk]%not_elem_of_cons. rewrite Hres by done.
        by apply Hres1'.
      * intros j Hj. destruct (Hj i0 (list_elem_of_here _ _)) as [Hj1 Hj2].
        rewrite Hptr; [by apply Hptr1|].
        intros i Hi. apply Hj. by apply list_elem_of_further.
      * destruct Hout as [(-> & -> & Hall)|(-> & i & Hi & Hgi & Hnone & ->)].
        -- left. repeat split; try done.
           intros i [->|Hi]%elem_of_cons.
           ++ unfold klu_bound. rewrite Hg. exists matched.
              split; [done|]. split; [|split].
              ** rewrite Hres by done. rewrite Hres1, rd_wr, Z.eqb_refl.
                 done.
              ** rewrite Hptr by (intros i Hi;
                   (assert (i <> i0) by (by intros ->)); lia).
                 rewrite rd_wr_ne by lia. rewrite rd_wr, Z.eqb_refl. done.
              ** rewrite Hptr by (intros i Hi;
                   (assert (i <> i0) by (by intros ->)); lia).
                 rewrite rd_wr, Z.eqb_refl, in_bounds_wr. simpl.
                 rewrite (rd_wr_ne ptrs (2 * i0) (2 * i0 + 1)) by lia. done.
           ++ assert (i <> i0) as Hne by (by intros ->).
              specialize (Hall i Hi). unfold klu_bound in *.
              rewrite (grounded_entry_mapping _ inst inst1) in Hall by done.
              rewrite !Hptr1 in Hall by lia.
              rewrite (Hres1' i Hne) in Hall.
              assert (in_bounds (jacobian_ptr_resist inst1) i =
                      in_bounds (jacobian_ptr_resist inst) i) as Hb1
                by (by rewrite Hres1, in_bounds_wr).
              rewrite Hb1, !in_bounds_wr in Hall. done.
        -- right. split; [done|]. exists i.
           assert (i <> i0) as Hne by (by intros ->).
           split; [by apply list_elem_of_further|].
           rewrite <- (grounded_entry_mapping _ inst inst1) by done.
           by rewrite <- (Hres1' i Hne).
Qed.

(** X13.  [init_matrix_klu] returns [OK] or [E_PANIC].  It returns
    [E_PANIC], after printing the one address concerned, exactly when
    some declared entry without an endpoint on the ground node has in the
    resistive table an address that is not in the binding table.  When it
    returns [OK] it has printed nothing and every such entry [i] has the
    [CSC] address of its element of the table in the resistive table and in
    [inst_matrix_ptrs[2 * i]] and the [CSC_Complex] address in
    [inst_matrix_ptrs[2 * i + 1]]; the node mapping is as before. *)
Theorem init_matrix_klu_outcome (descr : OsdiDescriptor)
    (bindings : list BindElement) (inst inst' : Instance)
    (ptrs ptrs' : list ptr) (e : status) (out : list message) :
  init_matrix_klu bindings descr inst ptrs = (e, inst', ptrs', out) ->
  node_mapping inst' = node_mapping inst /\
  length ptrs' = length ptrs /\
  ((e = OK /\ out = [] /\
    (forall i, 0 <= i < num_jacobian_entries descr ->
       klu_bound descr bindings inst ptrs inst' ptrs' i)) \/
   (e = E_PANIC /\
    exists i, 0 <= i < num_jacobian_entries descr /\
      grounded_entry descr inst i = false /\
      bsearch (rd (jacobian_ptr_resist inst) i) bindings = None /\
      out = [MsgPtrNotFound (rd (jacobian_ptr_resist inst) i)])) /\
  (e = OK <->
   forall i, 0 <= i < num_jacobian_entries descr ->
     grounded_entry descr inst i = false ->
     bsearch (rd (jacobian_ptr_resist inst) i) bindings <> None).
Proof.
  unfold init_matrix_klu. intros Hrun.
  apply init_matrix_klu_from_outcome in Hrun
    as (Hnm & _ & Hlen & _ & _ & Hout); [|apply NoDup_seqZ].
  split; [done|]. split; [done|].
  destruct Hout as [(-> & -> & Hall)|(-> & i & Hi & Hg & Hnone & ->)].
  - split.
    + left. repeat split; try done. intros i Hi. apply Hall.
      apply elem_of_seqZ. lia.
    + split; [|done]. intros _ i Hi Hg.
      specialize (Hall i ltac:(apply elem_of_seqZ; lia)).
      unfold klu_bound in Hall. rewrite Hg in Hall.
      destruct Hall as (matched & -> & _). done.
  - apply elem_of_seqZ in Hi. split.
    + right. split; [done|]. exists i. split; [lia|done].
    + split; [done|]. intros Hall. exfalso.
      by apply (Hall i ltac:(lia) Hg).
Qed.

(** After a successful [init_matrix_klu] on a pointer array with its two
    slots for every declared entry, what the table and the slots hold for an
    entry without an endpoint on the ground node. *)
Lemma init_matrix_klu_slots (descr : OsdiDescriptor)
    (bindings : list BindElement) (inst inst' : Instance)
    (ptrs ptrs' : list ptr) (out : list message) :
  init_matrix_klu bindings descr inst ptrs = (OK, inst', ptrs', out) ->
  2 * num_jacobian_entries descr <= Z.of_nat (length ptrs) ->
  forall i, 0 <= i < num_jacobian_entries descr ->
    grounded_entry descr inst i = false ->
    in_bounds (jacobian_ptr_resist inst) i = true ->
    exists matched,
      bsearch (rd (jacobian_ptr_resist inst) i) bindings = Some matched /\
      rd (jacobian_ptr_resist inst') i = CSC matched /\
      rd ptrs' (2 * i) = CSC matched /\
      rd ptrs' (2 * i + 1) = CSC_Complex matched.
Proof.
  unfold init_matrix_klu. intros Hrun Hroom.
  apply init_matrix_klu_from_outcome in Hrun
    as (Hnm & Hl1 & Hl2 & _ & _ & Hout); [|apply NoDup_seqZ].
  destruct Hout as [(_ & _ & Hall)|(Hpanic & _)]; [|done].
  intros i Hi Hg Hb.
  specialize (Hall i ltac:(apply elem_of_seqZ; lia)).
  unfold klu_bound in Hall. rewrite Hg, Hb in Hall.
  destruct Hall as (matched & Hfind & Hres & Hp0 & Hp1).
  assert (in_bounds ptrs (2 * i) = true) as Hb0
    by (apply in_bounds_iff; lia).
  assert (in_bounds ptrs (2 * i + 1) = true) as Hb1
    by (apply in_bounds_iff; lia).
  rewrite Hb0 in Hp0. rewrite Hb1 in Hp1. by exists matched.
Qed.

(** [init_matrix_klu] leaves the instance in the real representation. *)
Lemma update_real_after_init (descr : OsdiDescriptor)
    (bindings : list BindElement) (inst inst' : Instance)
    (ptrs ptrs' : list ptr) (out : list message) :
  init_matrix_klu bindings descr inst ptrs = (OK, inst', ptrs', out) ->
  2 * num_jacobian_entries descr <= Z.of_nat (length ptrs) ->
  update_matrix_klu descr inst' ptrs' false = (OK, inst').
Proof.
  intros Hrun Hroom.
  pose proof (init_matrix_klu_slots _ _ _ _ _ _ _ Hrun Hroom) as Hbound.
  unfold init_matrix_klu in Hrun.
  apply init_matrix_klu_from_outcome in Hrun
    as (Hnm & Hl1 & Hl2 & _ & _ & _); [|apply NoDup_seqZ].
  pose proof (update_matrix_klu_table descr inst' ptrs' false)
    as (Hnm' & Hc' & Hs' & Hr' & Hlen' & Hrd').
  assert (fst (update_matrix_klu descr inst' ptrs' false) = OK) as He
    by done.
  destruct (update_matrix_klu descr inst' ptrs' false) as [e u].
  cbn [fst snd] in *. subst e. f_equal.
  apply instance_eq; try done.
  apply list_eq_rd; [done|]. intros k Hk. rewrite Hrd'.
  destruct (Z.leb_spec 0 k), (Z.ltb_spec k (num_jacobian_entries descr));
    simpl; try done.
  destruct (in_bounds (jacobian_ptr_resist inst') k) eqn:Hb; simpl;
    [|done].
  rewrite (grounded_entry_mapping _ inst inst') by done.
  destruct (grounded_entry descr inst k) eqn:Hg; simpl; [done|].
  destruct (Hbound k) as (matched & _ & -> & Hp0 & _); [lia|done| |].
  { unfold in_bounds in *. by rewrite <- Hl1. }
  by rewrite Z.add_0_r.
Qed.

(** X14.  Round trip of the two binders.  After [init_matrix_klu] has
    succeeded on an instance whose pointer array has two slots for every
    declared entry, [update_matrix_klu] for the real representation changes
    nothing; for the complex one it puts in the resistive table, for every
    entry without an endpoint on the ground node, the [CSC_Complex] address
    of the element the entry was bound to; and going back to the real
    representation restores the instance as [init_matrix_klu] left it. *)
Theorem update_after_init_matrix_klu (descr : OsdiDescriptor)
    (bindings : list BindElement) (inst inst' : Instance)
    (ptrs ptrs' : list ptr) (out : list message) :
  init_matrix_klu bindings descr inst ptrs = (OK, inst', ptrs', out) ->
  2 * num_jacobian_entries descr <= Z.of_nat (length ptrs) ->
  update_matrix_klu descr inst' ptrs' false = (OK, inst') /\
  (forall i, 0 <= i < num_jacobian_entries descr ->
     grounded_entry descr inst i = false ->
     in_bounds (jacobian_ptr_resist inst) i = true ->
     exists matched,
       bsearch (rd (jacobian_ptr_resist inst) i) bindings = Some matched /\
       rd (jacobian_ptr_resist inst') i = CSC matched /\
       rd (jacobian_ptr_resist
             (snd (update_matrix_klu descr inst' ptrs' true))) i =
         CSC_Complex matched) /\
  update_matrix_klu descr
    (snd (update_matrix_klu descr inst' ptrs' true)) ptrs' false =
    (OK, inst').
Proof.
  intros Hrun Hroom.
  pose proof (init_matrix_klu_slots _ _ _ _ _ _ _ Hrun Hroom) as Hbound.
  pose proof (update_real_after_init _ _ _ _ _ _ _ Hrun Hroom) as Hreal.
  unfold init_matrix_klu in Hrun.
  apply init_matrix_klu_from_outcome in Hrun
    as (Hnm & Hl1 & Hl2 & _ & _ & _); [|apply NoDup_seqZ].
  split; [done|]. split.
  - intros i Hi Hg Hb.
    destruct (Hbound i Hi Hg Hb) as (matched & Hfind & Hres & _ & Hp1).
    exists matched. split; [done|]. split; [done|].
    pose proof (update_matrix_klu_table descr inst' ptrs' true)
      as (_ & _ & _ & _ & _ & Hrd).
    rewrite Hrd, (grounded_entry_mapping _ inst inst'), Hg by done.
    assert (in_bounds (jacobian_ptr_resist inst') i = true) as ->
      by (unfold in_bounds in *; by rewrite Hl1).
    by replace ((0 <=? i) && (i <? num_jacobian_entries descr))
      with true by lia.
  - by rewrite update_matrix_klu_absorbs.
Qed.

(** ** The CSC entry points *)

Lemma update_csc_instances_map (descr : OsdiDescriptor) (complex : bool)
    (insts : list csc_instance) :
  update_csc_instances descr complex insts =
  (OK, map (csc_updated descr complex) insts).
Proof.
  induction insts as [|[inst ptrs] insts IH]; [done|].
  cbn [update_csc_instances]. unfold update_matrix_klu at 1.
  cbn [is_error]. by rewrite IH.
Qed.

Lemma OSDIupdateCSC_map (descr : OsdiDescriptor)
    (models : list (list csc_instance)) (complex : bool) :
  OSDIupdateCSC descr models complex =
  (OK, map (map (csc_updated descr complex)) models).
Proof.
  induction models as [|insts models IH]; [done|].
  cbn [OSDIupdateCSC]. rewrite update_csc_instances_map.
  cbn [is_error]. by rewrite IH.
Qed.

(** X15.  [OSDIbindCSCComplex] and [OSDIbindCSCComplexToReal] never fail
    and never stop early: each returns [OK] with every instance of every
    model updated.  And they compose as the updates do: switching to the
    complex pointers and then to the real ones leaves the models as
    switching to the real ones alone does. *)
Theorem OSDIbindCSCComplex_then_real (descr : OsdiDescriptor)
    (models : list (list csc_instance)) :
  OSDIbindCSCComplex descr models =
    (OK, map (map (csc_updated descr true)) models) /\
  OSDIbindCSCComplexToReal descr models =
    (OK, map (map (csc_updated descr false)) models) /\
  OSDIbindCSCComplexToReal descr (snd (OSDIbindCSCComplex descr models)) =
    OSDIbindCSCComplexToReal descr models.
Proof.
  unfold OSDIbindCSCComplex, OSDIbindCSCComplexToReal.
  rewrite !OSDIupdateCSC_map. repeat split. cbn [snd]. f_equal.
  rewrite <- list_fmap_compose. apply list_fmap_ext. intros _ insts _.
  simpl. rewrite <- list_fmap_compose. apply list_fmap_ext.
  intros _ [inst ptrs] _. unfold csc_updated. cbn [fst snd compose].
  by rewrite update_matrix_klu_absorbs.
Qed.

Lemma bind_csc_instances_outcome (descr : OsdiDescriptor)
    (bindings : list BindElement) (insts : list csc_instance) :
  forall (e : status) (insts' : list csc_instance) (out : list message),
  bind_csc_instances descr bindings insts = (e, insts', out) ->
  (e = OK /\ out = [] /\ Forall2 (csc_bound descr bindings) insts insts') \/
  (e = E_PANIC /\ exists p, out = [MsgPtrNotFound p]).
Proof.
  induction insts as [|[inst ptrs] insts IH]; intros e insts' out;
    cbn [bind_csc_instances].
  - intros [= <- <- <-]. left. by repeat split.
  - destruct (init_matrix_klu bindings descr inst ptrs)
      as [[[e1 inst1] ptrs1] out1] eqn:Hb.
    pose proof Hb as Hout. unfold init_matrix_klu in Hout.
    apply init_matrix_klu_from_outcome in Hout; [|apply NoDup_seqZ].
    destruct Hout
      as (_ & _ & _ & _ & _ & [(-> & -> & _)|(-> & i & _ & _ & _ & ->)]);
      cbn [is_error].
    + destruct (bind_csc_instances descr bindings insts)
        as [[e2 insts2] out2].
      intros [= <- <- <-].
      destruct (IH _ _ _ eq_refl) as [(-> & -> & Hall)|(-> & p & ->)].
      * left. repeat split; try done. by constructor.
      * right. split; [done|]. by exists p.
    + intros [= <- <- <-]. right. split; [done|]. by eexists.
Qed.

Lemma update_csc_bound (descr : OsdiDescriptor) (bindings : list BindElement)
    (insts insts' : list csc_instance) :
  Forall2 (csc_bound descr bindings) insts insts' ->
  Forall (csc_room descr) insts ->
  map (csc_updated descr false) insts' = insts'.
Proof.
  induction 1 as [|[inst ptrs] [inst' ptrs'] insts insts' Hb Hall IH];
    [done|].
  intros [Hroom Hrooms]%Forall_cons. cbn [map]. rewrite IH by done. f_equal.
  unfold csc_bound, csc_room, csc_updated in *. cbn [fst snd] in *.
  by rewrite (update_real_after_init _ _ _ _ _ _ _ Hb Hroom).
Qed.

(** X16.  [OSDIbindCSC] returns [OK] or [E_PANIC].  [E_PANIC] comes with
    exactly one line printed, the address that was not found.  [OK] comes
    with nothing printed and every instance of every model bound by
    [init_matrix_klu]; and then, if every pointer array has its two slots
    for every declared entry, [OSDIbindCSCComplexToReal] returns the models
    unchanged. *)
Theorem OSDIbindCSC_outcome (descr : OsdiDescriptor)
    (bindings : list BindElement) (inModel : list (list csc_instance))
    (e : status) (models : list (list csc_instance)) (out : list message) :
  OSDIbindCSC descr bindings inModel = (e, models, out) ->
  (e = OK /\ out = [] /\
   Forall2 (Forall2 (csc_bound descr bindings)) inModel models /\
   (Forall (Forall (csc_room descr)) inModel ->
    OSDIbindCSCComplexToReal descr models = (OK, models))) \/
  (e = E_PANIC /\ exists p, out = [MsgPtrNotFound p]).
Proof.
  revert e models out.
  induction inModel as [|insts inModel IH]; intros e models out;
    cbn [OSDIbindCSC].
  - intros [= <- <- <-]. left. by repeat split.
  - destruct (bind_csc_instances descr bindings insts)
      as [[e1 insts1] out1] eqn:H1.
    destruct (bind_csc_instances_outcome _ _ _ _ _ _ H1)
      as [(-> & -> & Hall1)|(-> & p & ->)]; cbn [is_error].
    + destruct (OSDIbindCSC descr bindings inModel)
        as [[e2 models2] out2].
      intros [= <- <- <-].
      destruct (IH _ _ _ eq_refl) as [(-> & -> & Hall2 & Hreal)|(-> & p & ->)].
      * left. split; [done|]. split; [done|]. split; [by constructor|].
        intros [Hroom Hrooms]%Forall_cons.
        unfold OSDIbindCSCComplexToReal in *.
        rewrite OSDIupdateCSC_map in *. f_equal. simpl.
        rewrite (update_csc_bound _ _ _ _ Hall1 Hroom). f_equal.
        specialize (Hreal Hrooms). by injection Hreal.
      * right. split; [done|]. by exists p.
    + intros [= <- <- <-]. right. split; [done|]. by exists p.
Qed.

End Coverage.

(** ** [OSDIunsetup] *)

Section TeardownProperties.

Context `{NodeRelease}.

Lemma map_rd_seqZ {A} `{Inhabited A} (m : list A) :
  map (rd m) (seqZ 0 (Z.of_nat (length m))) = m.
Proof.
  apply list_eq. intros i. rewrite list_lookup_fmap.
  destruct (m !! i) as [x|] eqn:Hx.
  - rewrite lookup_seqZ_lt by (apply lookup_lt_Some in Hx; lia).
    simpl. f_equal. by apply rd_lookup.
  - rewrite lookup_seqZ_ge; [done|]. apply lookup_ge_None in Hx. lia.
Qed.

Lemma unsetup_instance_unset (descr : OsdiDescriptor)
    (s : CKTcircuit * list Z) (gi : GENinstance) :
  unset descr gi (fst (unsetup_instance descr s gi)).
Proof.
  unfold unsetup_instance, unset. cbn.
  destruct (for_u32_pointwise (fun _ _ => false) (num_collapsible descr)
              (fun c i => wr c i false) (collapsed (instance_data gi)))
    as [Hlen Hrd]; [done|].
  repeat split; done.
Qed.

Lemma unsetup_nodes_none (nums : list Z) (c : CKTcircuit) (d : list Z) :
  prev_CKTlastNode_number c = 0 -> foldl unsetup_node (c, d) nums = (c, d).
Proof.
  intros Hprev. induction nums as [|num nums IH]; [done|].
  cbn [foldl unsetup_node]. by rewrite Hprev.
Qed.

Lemma unsetup_nodes_stable (nums : list Z) :
  (forall c num,
     prev_CKTlastNode_number (snd (CKTdltNNum c num)) =
     prev_CKTlastNode_number c) ->
  forall (c : CKTcircuit) (d : list Z),
  let prev := prev_CKTlastNode_number c in
  prev_CKTlastNode_number (fst (foldl unsetup_node (c, d) nums)) = prev /\
  snd (foldl unsetup_node (c, d) nums) =
    d ++ filter (fun num => prev <> 0 /\ prev < num) nums.
Proof.
  intros Hstable. induction nums as [|num nums IH]; intros c d prev.
  - by rewrite app_nil_r.
  - cbn [foldl unsetup_node]. rewrite filter_cons. fold prev.
    destruct (Z.eqb_spec prev 0) as [Hz|Hz]; simpl.
    + destruct (IH c d) as [-> ->]. fold prev.
      by rewrite decide_False by lia.
    + destruct (Z.gtb_spec num prev) as [Hgt|Hle].
      * destruct (IH (snd (CKTdltNNum c num)) (d ++ [num])) as [-> ->].
        rewrite Hstable. fold prev. rewrite decide_True by lia.
        by rewrite <- app_assoc.
      * destruct (IH c d) as [-> ->]. fold prev.
        by rewrite decide_False by lia.
Qed.

Lemma unsetup_instance_nodes (descr : OsdiDescriptor)
    (s : CKTcircuit * list Z) (gi : GENinstance) :
  Z.of_nat (length (node_mapping (instance_data gi))) = num_nodes descr ->
  snd (unsetup_instance descr s gi) =
  foldl unsetup_node s (map int_of_u32 (node_mapping (instance_data gi))).
Proof.
  intros Hlen. unfold unsetup_instance. cbn [snd node_mapping set_collapsed].
  unfold for_u32. rewrite <- Hlen.
  set (m := node_mapping (instance_data gi)).
  transitivity (foldl unsetup_node s
                  (map int_of_u32 (map (rd m) (seqZ 0 (Z.of_nat (length m)))))).
  - by rewrite <- list_fmap_compose, foldl_fmap.
  - by rewrite map_rd_seqZ.
Qed.

Lemma unsetup_instances_spec (descr : OsdiDescriptor)
    (insts : list GENinstance) :
  forall (s : CKTcircuit * list Z),
  Forall2 (unset descr) insts (fst (unsetup_instances descr insts s)) /\
  (prev_CKTlastNode_number (fst s) = 0 ->
   snd (unsetup_instances descr insts s) = s) /\
  ((forall c num,
      prev_CKTlastNode_number (snd (CKTdltNNum c num)) =
      prev_CKTlastNode_number c) ->
   Forall (fun gi =>
     Z.of_nat (length (node_mapping (instance_data gi))) = num_nodes descr)
     insts ->
   let prev := prev_CKTlastNode_number (fst s) in
   prev_CKTlastNode_number (fst (snd (unsetup_instances descr insts s))) =
     prev /\
   snd (snd (unsetup_instances descr insts s)) =
     snd s ++
     filter (fun num => prev <> 0 /\ prev < num)
       (concat
          (map (fun gi => map int_of_u32 (node_mapping (instance_data gi)))
             insts))).
Proof.
  induction insts as [|gi insts IH]; intros s; cbn [unsetup_instances].
  - split; [constructor|]. split; [done|]. intros _ _. simpl.
    by rewrite app_nil_r.
  - pose proof (unsetup_instance_unset descr s gi) as Hu.
    destruct (unsetup_instance descr s gi) as [gi1 s1] eqn:H1.
    specialize (IH s1).
    destruct (unsetup_instances descr insts s1) as [insts2 s2].
    destruct IH as (Hall & Hnone & Hstab). cbn [fst snd] in *.
    split; [by constructor|]. split.
    + intros Hprev. destruct s as [c d]. cbn [fst] in *.
      assert (s1 = (c, d)) as ->.
      { change s1 with (snd (gi1, s1)). rewrite <- H1.
        unfold unsetup_instance. cbn [snd]. unfold for_u32.
        rewrite <- (foldl_fmap unsetup_node (c, d) _
                     (fun i => int_of_u32 (rd _ i))).
        by apply unsetup_nodes_none. }
      by apply Hnone.
    + intros Hstable [Hlen Hlens]%Forall_cons.
      assert (s1 = foldl unsetup_node s
                     (map int_of_u32 (node_mapping (instance_data gi))))
        as Hs1.
      { change s1 with (snd (gi1, s1)). rewrite <- H1.
        by apply unsetup_instance_nodes. }
      destruct s as [c d]. cbn [fst snd] in *.
      destruct (unsetup_nodes_stable
                  (map int_of_u32 (node_mapping (instance_data gi)))
                  Hstable c d) as [Hp Hd].
      rewrite <- Hs1 in Hp, Hd.
      destruct (Hstab Hstable Hlens) as [Hp2 Hd2].
      rewrite Hp in Hp2, Hd2. split; [done|].
      rewrite Hd2, Hd. cbn [map concat]. by rewrite filter_app, app_assoc.
Qed.

Lemma unsetup_models_spec (descr : OsdiDescriptor) (models : list GENmodel) :
  forall (s : CKTcircuit * list Z),
  models_unset descr models (fst (unsetup_models descr models s)) /\
  (prev_CKTlastNode_number (fst s) = 0 ->
   snd (unsetup_models descr models s) = s) /\
  ((forall c num,
      prev_CKTlastNode_number (snd (CKTdltNNum c num)) =
      prev_CKTlastNode_number c) ->
   mappings_sized descr models ->
   let prev := prev_CKTlastNode_number (fst s) in
   prev_CKTlastNode_number (fst (snd (unsetup_models descr models s))) =
     prev /\
   snd (snd (unsetup_models descr models s)) =
     snd s ++
     filter (fun num => prev <> 0 /\ prev < num) (mapped_numbers models)).
Proof.
  unfold models_unset, mappings_sized, mapped_numbers.
  induction models as [|gm models IH]; intros s; cbn [unsetup_models].
  - split; [constructor|]. split; [done|]. intros _ _. simpl.
    by rewrite app_nil_r.
  - destruct (unsetup_instances_spec descr (GENinstances gm) s)
      as (Hall1 & Hnone1 & Hstab1).
    destruct (unsetup_instances descr (GENinstances gm) s) as [insts1 s1].
    specialize (IH s1).
    destruct (unsetup_models descr models s1) as [models2 s2].
    destruct IH as (Hall & Hnone & Hstab). cbn [fst snd] in *.
    split; [by constructor|]. split.
    + intros Hprev. specialize (Hnone1 Hprev). subst s1. by apply Hnone.
    + intros Hstable Hsized. cbn [map] in Hsized.
      apply Forall_cons in Hsized as [Hlen Hlens].
      destruct (Hstab1 Hstable Hlen) as [Hp1 Hd1].
      destruct (Hstab Hstable Hlens) as [Hp2 Hd2].
      rewrite Hp1 in Hp2, Hd2. split; [done|].
      rewrite Hd2, Hd1. cbn [map concat].
      by rewrite fmap_app, concat_app, filter_app, app_assoc.
Qed.

Lemma collapse_nodes_no_hint (descr : OsdiDescriptor) (inst : Instance)
    (ct : Z) :
  Z.of_nat (length (node_mapping inst)) = num_nodes descr ->
  (forall i, 0 <= i < num_collapsible descr -> rd (collapsed inst) i = false) ->
  collapse_nodes descr inst ct =
  (set_node_mapping inst (seqZ 0 (num_nodes descr)), num_nodes descr).
Proof.
  intros Hlen Hflags. unfold collapse_nodes.
  rewrite populate_nodes_seqZ by done.
  assert (for_u32 (num_collapsible descr)
            (Collapse.collapse_pair (num_nodes descr) (collapsible descr)
               (collapsed inst) ct)
            (seqZ 0 (num_nodes descr), num_nodes descr) =
          (seqZ 0 (num_nodes descr), num_nodes descr)) as ->; [|done].
  destruct (Z.le_gt_cases 0 (num_collapsible descr)) as [Hn|Hn].
  2:{ by rewrite for_u32_nonpos by lia. }
  apply (for_u32_invariant
           (fun _ s => s = (seqZ 0 (num_nodes descr), num_nodes descr)));
    [done|done|].
  intros i s Hi ->. unfold Collapse.collapse_pair.
  by rewrite Hflags.
Qed.

Lemma OSDIunsetup_unset (descr : OsdiDescriptor)
    (inModel : list GENmodel) (ckt0 : CKTcircuit) :
  models_unset descr inModel
    (snd (fst (fst (OSDIunsetup descr inModel ckt0)))).
Proof.
  unfold OSDIunsetup.
  destruct (unsetup_models_spec descr inModel (ckt0, [])) as (Hall & _).
  by destruct (unsetup_models descr inModel (ckt0, [])) as [models [c d]].
Qed.

(** X17. [OSDIunsetup] always returns [OK].  It keeps the models, their
    names and data, and in every instance the name, the state base, the
    terminals, the node mapping, the state indices and the matrix pointers;
    of the collapse flags it clears those of the declared pairs that the
    array holds and keeps the others. *)
Theorem OSDIunsetup_clears (descr : OsdiDescriptor)
    (inModel : list GENmodel) (ckt0 : CKTcircuit) :
  let '(e, models, _, _) := OSDIunsetup descr inModel ckt0 in
  e = OK /\ models_unset descr inModel models.
Proof.
  unfold OSDIunsetup.
  destruct (unsetup_models_spec descr inModel (ckt0, [])) as (Hall & _).
  destruct (unsetup_models descr inModel (ckt0, [])) as [models [c d]].
  done.
Qed.

(** X18. When deleting a node does not move the mark of the last external
    node, and every node mapping has [num_nodes] entries, [OSDIunsetup] hands
    to [CKTdltNNum] exactly the mapped numbers above that mark, in the order
    of the models, instances and nodes, repeats included; a number at or
    below the mark (a terminal, or ground) is never handed over, and with a
    zero mark nothing is. *)
Theorem OSDIunsetup_releases (descr : OsdiDescriptor)
    (inModel : list GENmodel) (ckt0 : CKTcircuit) :
  (forall c num,
     prev_CKTlastNode_number (snd (CKTdltNNum c num)) =
     prev_CKTlastNode_number c) ->
  mappings_sized descr inModel ->
  let '(_, _, c, deleted) := OSDIunsetup descr inModel ckt0 in
  let prev := prev_CKTlastNode_number ckt0 in
  prev_CKTlastNode_number c = prev /\
  deleted =
    filter (fun num => prev <> 0 /\ prev < num) (mapped_numbers inModel) /\
  Forall (fun num => prev < num) deleted.
Proof.
  intros Hstable Hsized. unfold OSDIunsetup.
  destruct (unsetup_models_spec descr inModel (ckt0, []))
    as (_ & _ & Hstab).
  destruct (unsetup_models descr inModel (ckt0, [])) as [models [c d]].
  destruct (Hstab Hstable Hsized) as [Hp Hd]. cbn [fst snd] in *.
  rewrite app_nil_l in Hd. repeat split; [done|done|].
  rewrite Hd. apply Forall_forall. intros num Hin.
  apply list_elem_of_filter in Hin. tauto.
Qed.

(** X19. With a zero mark of the last external node [OSDIunsetup] deletes
    nothing and leaves the circuit as it was, whatever the node mappings
    hold. *)
Theorem OSDIunsetup_no_mark (descr : OsdiDescriptor)
    (inModel : list GENmodel) (ckt0 : CKTcircuit) :
  prev_CKTlastNode_number ckt0 = 0 ->
  let '(_, _, c, deleted) := OSDIunsetup descr inModel ckt0 in
  c = ckt0 /\ deleted = [].
Proof.
  intros Hprev. unfold OSDIunsetup.
  destruct (unsetup_models_spec descr inModel (ckt0, []))
    as (_ & Hnone & _).
  destruct (unsetup_models descr inModel (ckt0, [])) as [models [c d]].
  cbn [fst snd] in *. specialize (Hnone Hprev). by inversion Hnone.
Qed.

(** X20. After [OSDIunsetup], when the node mappings have [num_nodes]
    entries and the flag arrays cover the declared pairs, [collapse_nodes]
    on any instance collapses nothing: it writes the identity mapping and
    returns [num_nodes], whatever the number of connected terminals. *)
Theorem collapse_nodes_after_unsetup (descr : OsdiDescriptor)
    (inModel : list GENmodel) (ckt0 : CKTcircuit) (ct : Z) :
  mappings_sized descr inModel ->
  flags_sized descr inModel ->
  Forall
    (Forall (fun gi =>
       collapse_nodes descr (instance_data gi) ct =
       (set_node_mapping (instance_data gi) (seqZ 0 (num_nodes descr)),
        num_nodes descr)))
    (map GENinstances (snd (fst (fst (OSDIunsetup descr inModel ckt0))))).
Proof.
  intros Hsized Hflags.
  pose proof (OSDIunsetup_unset descr inModel ckt0) as Hun.
  destruct (OSDIunsetup descr inModel ckt0) as [[[e models] c] d].
  cbn [fst snd] in *. unfold mappings_sized, flags_sized in *.
  induction Hun as [|gm gm' models0 models' (_ & _ & Hinsts) _ IH];
    [constructor|].
  cbn [map] in *.
  apply Forall_cons in Hsized as [Hlen Hlens].
  apply Forall_cons in Hflags as [Hfl Hfls].
  constructor; [|by apply IH].
  clear IH Hlens Hfls.
  induction Hinsts as [|gi gi' insts insts' Hu _ IH]; [constructor|].
  apply Forall_cons in Hlen as [Hlen Hlens].
  apply Forall_cons in Hfl as [Hfl Hfls].
  constructor; [|by apply IH].
  destruct Hu as (_ & Hm & _ & _ & _ & _ & Hrd).
  apply collapse_nodes_no_hint; [by rewrite Hm|].
  intros i Hi. rewrite Hrd.
  assert (in_bounds (collapsed (instance_data gi)) i = true) as ->
    by (apply in_bounds_iff; lia).
  by replace ((0 <=? i) && (i <? num_collapsible descr)) with true by lia.
Qed.

End TeardownProperties.

(** ** Runs on the bench *)

Section CoverageRuns.

Import Bench.

Lemma collapse_nodes_keeps_terminals_witness :
  rd (node_mapping (fst (@collapse_nodes sim mos (blob mos [true]) 3))) 2 = 2.
Proof.
  apply (@collapse_nodes_keeps_terminals sim mos (blob mos [true]) 3 2).
  - vm_compute. reflexivity.
  - lia.
  - vm_compute. reflexivity.
Defined.

Lemma collapse_nodes_in_range_witness :
  in_range (@num_nodes sim mos)
    (node_mapping (fst (@collapse_nodes sim mos (blob mos [true]) 3))).
Proof.
  refine (proj1 (@collapse_nodes_in_range sim mos (blob mos [true]) 3
                   (replicate 4 0) _ _ _ _)).
  - vm_compute. reflexivity.
  - vm_compute. discriminate.
  - intros i Hi. change (@num_collapsible sim mos) with 1 in Hi.
    assert (i = 0) as -> by lia.
    change (0 <= 3 < 4 /\ (0 <= 2 < 4 \/ 2 = UINT32_MAX)). lia.
  - vm_compute. reflexivity.
Defined.

Lemma connected_terminals_first_open_witness :
  rd [5; -1; 7] (@connected_terminals sim mos [5; -1; 7]) = -1.
Proof.
  refine (proj2 (proj2 (@connected_terminals_first_open sim mos [5; -1; 7] _))
            _).
  - vm_compute. discriminate.
  - vm_compute. reflexivity.
Defined.

Lemma init_matrix_outcome_witness :
  let run := @init_matrix sim [] mos live in
  node_mapping (snd run) = node_mapping live.
Proof.
  intros run.
  refine (proj1 (@init_matrix_outcome sim mos [] (snd (fst run)) live
                   (snd run) (fst (fst run)) _)).
  vm_compute. reflexivity.
Defined.

Lemma OSDIsetup_abort_witness :
  let before :=
    @setup_models tight tight_mos tt [T1] OK
      (@initial_state tight [] tight_mos 9 0) in
  let this := @setup_one_model tight tight_mos tt (snd (fst before)) T2 in
  @OSDIsetup tight [] tight_mos ([T1] ++ T2 :: [T3]) 9 0 =
    (E_NOMEM, fst (fst before) ++ fst (fst this) :: [T3], snd (fst this)) /\
  E_NOMEM <> OK.
Proof.
  intros before this.
  apply (@OSDIsetup_abort tight [] tight_mos [T1] [T3] T2 (fst (fst this))
           9 0 (fst (fst before)) (snd (fst before)) (snd (fst this))
           OK E_NOMEM).
  - vm_compute. reflexivity.
  - vm_compute. reflexivity.
Defined.

Lemma init_matrix_klu_outcome_witness :
  let run := @init_matrix_klu sim table mos bound slots in
  fst (fst (fst run)) = OK /\ length (snd (fst run)) = length slots.
Proof.
  intros run. split; [vm_compute; reflexivity|].
  refine (proj1 (proj2 (@init_matrix_klu_outcome sim mos table bound
                          (snd (fst (fst run))) slots (snd (fst run))
                          (fst (fst (fst run))) (snd run) _))).
  vm_compute. reflexivity.
Defined.

Lemma update_after_init_matrix_klu_witness :
  let run := @init_matrix_klu sim table mos bound slots in
  @update_matrix_klu sim mos (snd (fst (fst run))) (snd (fst run)) false =
    (OK, snd (fst (fst run))).
Proof.
  intros run.
  refine (proj1 (@update_after_init_matrix_klu sim mos table bound
                   (snd (fst (fst run))) slots (snd (fst run)) (snd run)
                   _ _)).
  - vm_compute. reflexivity.
  - vm_compute. discriminate.
Defined.

Lemma OSDIbindCSC_outcome_witness :
  let run := @OSDIbindCSC sim mos table [[(bound, slots)]] in
  fst (fst run) = OK /\
  @OSDIbindCSCComplexToReal sim mos (snd (fst run)) = (OK, snd (fst run)).
Proof.
  intros run.
  assert (fst (fst run) = OK) as Hok by (vm_compute; reflexivity).
  split; [exact Hok|].
  assert (@OSDIbindCSC sim mos table [[(bound, slots)]] =
          (fst (fst run), snd (fst run), snd run)) as Hrun
    by (vm_compute; reflexivity).
  destruct (@OSDIbindCSC_outcome sim mos table [[(bound, slots)]]
              (fst (fst run)) (snd (fst run)) (snd run) Hrun)
    as [(_ & _ & _ & Hreal) | (Hpanic & _)].
  - apply Hreal.
    constructor; [|constructor]. constructor; [|constructor].
    vm_compute. discriminate.
  - rewrite Hok in Hpanic. discriminate.
Defined.

Lemma OSDIunsetup_releases_witness :
  snd (@OSDIunsetup sim (release 9) mos installed 10) =
  filter (fun num => 9 <> 0 /\ 9 < num) (@mapped_numbers sim installed).
Proof.
  assert (@mappings_sized sim mos installed) as Hsized.
  { unfold mappings_sized. vm_compute.
    constructor; [|constructor].
    constructor; [reflexivity|]. constructor; [reflexivity|constructor]. }
  pose proof (@OSDIunsetup_releases sim (release 9) mos installed 10
                (fun _ _ => eq_refl) Hsized) as Hrel.
  destruct (@OSDIunsetup sim (release 9) mos installed 10)
    as [[[e models] c] d].
  exact (proj1 (proj2 Hrel)).
Defined.

Lemma OSDIunsetup_no_mark_witness :
  snd (@OSDIunsetup sim (release 0) mos installed 10) = [].
Proof.
  pose proof (@OSDIunsetup_no_mark sim (release 0) mos installed 10 eq_refl)
    as Hnone.
  destruct (@OSDIunsetup sim (release 0) mos installed 10)
    as [[[e models] c] d].
  exact (proj2 Hnone).
Defined.

Lemma collapse_nodes_after_unsetup_witness :
  Forall
    (Forall (fun gi =>
       @collapse_nodes sim mos (instance_data gi) 3 =
       (set_node_mapping (instance_data gi) (seqZ 0 4), 4)))
    (map GENinstances
       (snd (fst (fst (@OSDIunsetup sim (release 9) mos installed 10))))).
Proof.
  apply (@collapse_nodes_after_unsetup sim (release 9) mos installed 10 3).
  - unfold mappings_sized. vm_compute.
    constructor; [|constructor].
    constructor; [reflexivity|]. constructor; [reflexivity|constructor].
  - unfold flags_sized. vm_compute.
    constructor; [|constructor].
    constructor; [discriminate|]. constructor; [discriminate|constructor].
Defined.

End CoverageRuns.
